(** * Sharko: the spatio-temporal join of [final_dataset.py] and the
      downloader of [SST_script_8day.py], embedded in Rocq.

    The scripts are linear pandas / xarray / scipy programs.  Their data are
    modelled as follows.

    - a [float64] is either [NaN] or a finite rational ([Fin q]); rounding
      of float arithmetic is not modelled;
    - a [datetime64[ns]] value is its count of nanoseconds since the epoch
      (a [Z]); where it is used as an axis value it is injected into [Q];
    - a pandas index (an xarray dimension coordinate) is a [list Q];
    - Python exceptions are values of [exn], raised through [result].

    Library calls ([Index.get_indexer], [Index.slice_indexer],
    [KDTree.query], [DataFrame.dropna], ...) are embedded by the behaviour of
    the library routine they reach; the routine is named at each definition. *)

From Stdlib Require Import QArith Qabs Qround Lqa ZArith.
From stdpp Require Import gmap strings list.

(** ** Exceptions and results *)

Inductive exn : Type :=
  | FileNotFoundError
  | ValueError
  | KeyError
  | IndexError
  | InvalidIndexError
  | RequestException
  | OSError.

Inductive result (A : Type) : Type :=
  | Ok (a : A)
  | Raise (e : exn).
Arguments Ok {A} a.
Arguments Raise {A} e.

#[global] Instance result_ret : MRet result := λ A a, Ok a.
#[global] Instance result_bind : MBind result :=
  λ A B f m, match m with Ok a => f a | Raise e => Raise e end.
#[global] Instance result_fmap : FMap result :=
  λ A B f m, match m with Ok a => Ok (f a) | Raise e => Raise e end.

(** [[f(x) for x in xs]] where [f] may raise: the first exception wins. *)
Fixpoint mapR {A B : Type} (f : A → result B) (xs : list A) : result (list B) :=
  match xs with
  | [] => Ok []
  | x :: r => y ← f x; ys ← mapR f r; Ok (y :: ys)
  end.

(** ** Scalars *)

Inductive float64 : Type :=
  | NaN
  | Fin (q : Q).

Definition isna (v : float64) : bool :=
  match v with NaN => true | Fin _ => false end.

Definition Qltb (x y : Q) : bool :=
  match (x ?= y)%Q with Lt => true | _ => false end.
Definition Qleb (x y : Q) : bool :=
  match (x ?= y)%Q with Gt => false | _ => true end.
Definition Qeqb (x y : Q) : bool :=
  match (x ?= y)%Q with Eq => true | _ => false end.

(** ** pandas [Index] over numeric or datetime labels *)

Module Index.

(** [Index.is_monotonic_increasing]: every label is [<=] its successor. *)
Fixpoint is_monotonic_increasing (xs : list Q) : bool :=
  match xs with
  | [] => true
  | x :: r =>
      match r with
      | [] => true
      | y :: _ => Qleb x y && is_monotonic_increasing r
      end
  end.

Fixpoint is_monotonic_decreasing (xs : list Q) : bool :=
  match xs with
  | [] => true
  | x :: r =>
      match r with
      | [] => true
      | y :: _ => Qleb y x && is_monotonic_decreasing r
      end
  end.

(** [Index.is_unique]. *)
Fixpoint is_unique (xs : list Q) : bool :=
  match xs with
  | [] => true
  | x :: r => forallb (λ y, negb (Qeqb x y)) r && is_unique r
  end.

Inductive side := Left | Right.
Inductive fill_method := Pad | Backfill.

(** [numpy.searchsorted] on an ascending array: the number of leading
    elements that are [< v] (side left) or [<= v] (side right). *)
Fixpoint searchsorted (xs : list Q) (v : Q) (s : side) : nat :=
  match xs with
  | [] => O
  | x :: r =>
      if (match s with Left => Qltb x v | Right => Qleb x v end)
      then S (searchsorted r v s)
      else O
  end.

(** [Index._searchsorted_monotonic]: a descending index is searched in
    reverse, with the side flipped and the position mirrored. *)
Definition _searchsorted_monotonic (xs : list Q) (v : Q) (s : side) : result nat :=
  if is_monotonic_increasing xs then Ok (searchsorted xs v s)
  else if is_monotonic_decreasing xs then
    let pos := searchsorted (rev xs) v (match s with Left => Right | Right => Left end) in
    Ok (length xs - pos)%nat
  else Raise ValueError.

(** [Index.get_indexer(target)] without a method: the position of an exact
    match, or [-1]. *)
Fixpoint get_indexer_exact (xs : list Q) (v : Q) : Z :=
  match xs with
  | [] => -1
  | x :: r =>
      if Qeqb x v then 0
      else let i := get_indexer_exact r v in
           if (i =? -1)%Z then -1 else (i + 1)%Z
  end.

(** [Index._get_fill_indexer_searchsorted]: exact matches first, then the
    neighbour to the left ([Pad]) or to the right ([Backfill]) of the
    insertion point; [-1] when there is none.  This is the path
    [Index._get_fill_indexer] takes unless index and targets are both
    increasing; the engine it uses then returns the same positions. *)
Definition _get_fill_indexer_searchsorted
    (xs : list Q) (v : Q) (m : fill_method) : result Z :=
  let exact := get_indexer_exact xs v in
  if (exact =? -1)%Z then
    pos ← _searchsorted_monotonic xs v (match m with Pad => Left | Backfill => Right end);
    match m with
    | Pad => Ok (Z.of_nat pos - 1)%Z
    | Backfill => Ok (if (pos =? length xs)%nat then -1 else Z.of_nat pos)%Z
    end
  else Ok exact.

(** [values[i]] for an integer [i] produced by a fill indexer: numpy reads
    [-1] as the last position. *)
Definition take (xs : list Q) (i : Z) : Q :=
  if (i <? 0)%Z then nth (Z.to_nat (Z.of_nat (length xs) + i)) xs 0%Q
  else nth (Z.to_nat i) xs 0%Q.

(** [Index._difference_compat]: [abs(values[indexer] - target)]. *)
Definition _difference_compat (xs : list Q) (v : Q) (i : Z) : Q :=
  Qabs (take xs i - v).

(** [Index._get_nearest_indexer]: the left neighbour when it is strictly
    closer (ascending index) or at least as close (descending index), or
    when there is no right neighbour; else the right neighbour. *)
Definition _get_nearest_indexer (xs : list Q) (v : Q) : result Z :=
  match xs with
  | [] => Ok (-1)%Z
  | _ =>
      left_indexer ← _get_fill_indexer_searchsorted xs v Pad;
      right_indexer ← _get_fill_indexer_searchsorted xs v Backfill;
      let left_distances := _difference_compat xs v left_indexer in
      let right_distances := _difference_compat xs v right_indexer in
      let op := if is_monotonic_increasing xs then Qltb else Qleb in
      Ok (if op left_distances right_distances || (right_indexer =? -1)%Z
          then left_indexer else right_indexer)
  end.

(** [Index.get_indexer(target, method="nearest")] for one target label. *)
Definition get_indexer_nearest (xs : list Q) (v : Q) : result Z :=
  if is_unique xs then _get_nearest_indexer xs v
  else Raise InvalidIndexError.

(** xarray's [PandasIndex.sel] with [method="nearest"] and an array
    indexer: a label that finds no position raises [KeyError]. *)
Definition sel_nearest (xs : list Q) (v : Q) : result nat :=
  i ← get_indexer_nearest xs v;
  if (i <? 0)%Z then Raise KeyError else Ok (Z.to_nat i).

(** [Index.get_loc(label)] as a slice of positions: the run of labels
    equal to [v].  A label that is absent raises [KeyError]; so does one
    whose occurrences are not contiguous. *)
Fixpoint run_length (xs : list Q) (v : Q) : nat :=
  match xs with
  | x :: r => if Qeqb x v then S (run_length r v) else O
  | [] => O
  end.

Definition get_loc (xs : list Q) (v : Q) : result (nat * nat) :=
  let exact := get_indexer_exact xs v in
  if (exact =? -1)%Z then Raise KeyError
  else
    let start := Z.to_nat exact in
    let stop := (start + run_length (skipn start xs) v)%nat in
    if (get_indexer_exact (skipn stop xs) v =? -1)%Z then Ok (start, stop)
    else Raise KeyError.

(** [Index.get_slice_bound(label, side)]: the edge of the label's own
    positions when it is present, else its insertion point in a monotonic
    index; [KeyError] when the index is not monotonic. *)
Definition get_slice_bound (xs : list Q) (v : Q) (s : side) : result nat :=
  if (get_indexer_exact xs v =? -1)%Z then
    match _searchsorted_monotonic xs v s with
    | Ok pos => Ok pos
    | Raise _ => Raise KeyError
    end
  else
    slc ← get_loc xs v;
    Ok (match s with Left => slc.1 | Right => slc.2 end).

(** [Index.slice_indexer(start, stop)]: the half-open range of positions
    [[lo, hi)] from the left bound of [start] to the right bound of
    [stop], as [Index.slice_locs] computes it. *)
Definition slice_indexer (xs : list Q) (start stop : Q) : result (nat * nat) :=
  lo ← get_slice_bound xs start Left;
  hi ← get_slice_bound xs stop Right;
  Ok (lo, hi).

(** [a[lo:hi]] *)
Definition islice {A : Type} (lohi : nat * nat) (a : list A) : list A :=
  firstn (lohi.2 - lohi.1) (skipn lohi.1 a).

End Index.

(** ** Calendar arithmetic of [pandas.Timestamp] (proleptic Gregorian) *)

Module Calendar.

Definition ns_per_second : Z := 10 ^ 9.
Definition seconds_per_day : Z := 86400.
Definition ns_per_day : Z := seconds_per_day * ns_per_second.

(** Days since 1970-01-01 to (year, month, day). *)
Definition civil_from_days (days : Z) : Z * Z * Z :=
  let z := (days + 719468)%Z in
  let era := (z / 146097)%Z in
  let doe := (z - era * 146097)%Z in
  let yoe := ((doe - doe / 1460 + doe / 36524 - doe / 146096) / 365)%Z in
  let y := (yoe + era * 400)%Z in
  let doy := (doe - (365 * yoe + yoe / 4 - yoe / 100))%Z in
  let mp := ((5 * doy + 2) / 153)%Z in
  let d := (doy - (153 * mp + 2) / 5 + 1)%Z in
  let m := (if mp <? 10 then mp + 3 else mp - 9)%Z in
  ((if m <=? 2 then y + 1 else y)%Z, m, d).

Definition days_from_civil (y m d : Z) : Z :=
  let y' := (if m <=? 2 then y - 1 else y)%Z in
  let era := (y' / 400)%Z in
  let yoe := (y' - era * 400)%Z in
  let doy := ((153 * (if m >? 2 then m - 3 else m + 9) + 2) / 5 + d - 1)%Z in
  let doe := (yoe * 365 + yoe / 4 - yoe / 100 + doy)%Z in
  (era * 146097 + doe - 719468)%Z.

Definition year (days : Z) : Z := (civil_from_days days).1.1.

(** [Timestamp.dayofyear] of a nanosecond timestamp: 1 on 1 January. *)
Definition dayofyear (ns : Z) : Z :=
  let days := (ns / ns_per_day)%Z in
  (days - days_from_civil (year days) 1 1 + 1)%Z.

(** [pd.to_datetime('YYYY-MM-DD')] as nanoseconds. *)
Definition to_datetime (y m d : Z) : Z := (days_from_civil y m d * ns_per_day)%Z.

(** [strftime('%Y%m%d')]. *)
Definition digit (n : Z) : string :=
  String (Ascii.ascii_of_nat (48 + Z.to_nat (n mod 10))) EmptyString.
Definition pad2 (n : Z) : string := digit (n / 10) +:+ digit n.
Definition pad4 (n : Z) : string := pad2 (n / 100) +:+ pad2 n.
Definition strftime_Ymd (days : Z) : string :=
  let '(y, m, d) := civil_from_days days in
  pad4 y +:+ pad2 m +:+ pad2 d.

End Calendar.

(** ** pandas [DataFrame] *)

Inductive cell : Type :=
  | Datetime (ns : Z)        (** a [datetime64[ns]] value *)
  | NaT                      (** the missing datetime *)
  | Float (v : float64)
  | Int (z : Z)
  | Sin2Pi (x : Q)           (** the float [np.sin(2 * np.pi * x)] *)
  | Cos2Pi (x : Q).          (** the float [np.cos(2 * np.pi * x)] *)

Record Frame : Type := mkFrame {
  columns : list string;
  rows : list (list cell)    (** each row is aligned with [columns] *)
}.

Module DataFrame.

Definition cell_isna (c : cell) : bool :=
  match c with
  | NaT => true
  | Float v => isna v
  | _ => false
  end.

Definition len (df : Frame) : nat := length (rows df).

(** [DataFrame.empty]: some axis has length 0. *)
Definition empty (df : Frame) : bool :=
  match columns df, rows df with
  | [], _ | _, [] => true
  | _, _ => false
  end.

(** [cols.index(name)] *)
Fixpoint index_of (name : string) (cols : list string) : option nat :=
  match cols with
  | [] => None
  | c :: r => if String.eqb c name then Some O
              else S <$> index_of name r
  end.

Definition at_ (i : nat) (row : list cell) : cell := nth i row (Float NaN).

(** [df[name]] *)
Definition get_column (df : Frame) (name : string) : result (list cell) :=
  match index_of name (columns df) with
  | Some i => Ok (map (at_ i) (rows df))
  | None => Raise KeyError
  end.

(** [df[name] = values]: an existing column is overwritten in place, a new
    one is appended; a length mismatch raises. *)
Definition set_column (df : Frame) (name : string) (values : list cell) : result Frame :=
  if negb (length values =? len df)%nat then Raise ValueError
  else match index_of name (columns df) with
       | Some i =>
           Ok (mkFrame (columns df)
                 (zip_with (λ r v, <[i:=v]> r) (rows df) values))
       | None =>
           Ok (mkFrame (columns df ++ [name])
                 (zip_with (λ r v, r ++ [v]) (rows df) values))
       end.

(** [df[name] = scalar] *)
Definition set_scalar (df : Frame) (name : string) (v : cell) : Frame :=
  match index_of name (columns df) with
  | Some i => mkFrame (columns df) (map (λ r, <[i:=v]> r) (rows df))
  | None => mkFrame (columns df ++ [name]) (map (λ r, r ++ [v]) (rows df))
  end.

(** [df.rename(columns=mapping)] *)
Definition rename (df : Frame) (mapping : list (string * string)) : Frame :=
  let new c :=
    match find (λ kv, String.eqb kv.1 c) mapping with
    | Some kv => kv.2
    | None => c
    end in
  mkFrame (map new (columns df)) (rows df).

(** [df.dropna()]: a row is kept when none of its cells is missing. *)
Definition dropna (df : Frame) : Frame :=
  mkFrame (columns df)
    (filter (λ r, forallb (λ c, negb (cell_isna c)) r = true) (rows df)).

(** [df[mask]] with the mask computed row by row *)
Definition where_ (keep : list cell → bool) (df : Frame) : Frame :=
  mkFrame (columns df) (filter (λ r, keep r = true) (rows df)).

(** [df[cols]]: the listed columns, in the order listed. *)
Definition select (df : Frame) (cols : list string) : result Frame :=
  idx ← mapR (λ c, match index_of c (columns df) with
                   | Some i => Ok i
                   | None => Raise KeyError
                   end) cols;
  Ok (mkFrame cols (map (λ r, map (λ i, at_ i r) idx) (rows df))).

(** [df.drop(columns=[name])] *)
Definition drop (df : Frame) (name : string) : result Frame :=
  match index_of name (columns df) with
  | Some i => Ok (mkFrame (delete i (columns df)) (map (delete i) (rows df)))
  | None => Raise KeyError
  end.

(** [pd.concat([a, b], ignore_index=True)]: the columns of [a], then those
    of [b] that [a] lacks; rows are aligned by column name and a column a
    frame lacks is filled with NaN. *)
Definition reindex (cols : list string) (df : Frame) : list (list cell) :=
  map (λ r, map (λ c, match index_of c (columns df) with
                      | Some i => at_ i r
                      | None => Float NaN
                      end) cols) (rows df).

Definition concat (a b : Frame) : Frame :=
  let cols := columns a ++
              filter (λ c, index_of c (columns a) = None) (columns b) in
  mkFrame cols (reindex cols a ++ reindex cols b).

(** Typed views of a column's cells. *)
Definition as_float (c : cell) : result Q :=
  match c with
  | Float (Fin q) => Ok q
  | Int z => Ok (inject_Z z)
  | _ => Raise ValueError
  end.

Definition as_datetime (c : cell) : result Z :=
  match c with
  | Datetime t => Ok t
  | _ => Raise ValueError
  end.

Definition floats (df : Frame) (name : string) : result (list Q) :=
  cs ← get_column df name; mapR as_float cs.

Definition datetimes (df : Frame) (name : string) : result (list Z) :=
  cs ← get_column df name; mapR as_datetime cs.

End DataFrame.

(** ** xarray datasets, as far as the script reads them *)

(** A gridded dataset has the dimensions (time, lat, lon); its time
    dimension may lack a coordinate ([None]).  A track dataset has one
    sample dimension along which time, lat, lon and every variable run; its
    lat and lon are plain variables, not indexes. *)
Inductive Dataset : Type :=
  | Gridded (time : option (list Z)) (lat lon : list Q)
            (data_vars : list (string * list (list (list float64))))
  | Track (time : list Z) (lat lon : list Q)
          (data_vars : list (string * list float64)).

(** One [.nc] file of a folder: [content] is [None] when [xr.open_dataset]
    raises on it; [start_date] is what [pd.to_datetime] with format
    [%Y%m%d] makes of [basename.split('.')[1].split('_')[0]], [None] when
    that expression raises. *)
Record NcFile : Type := mkNcFile {
  fname : string;
  content : option Dataset;
  start_date : option Z
}.

Module Xr.

(** [ds[variable]] *)
Fixpoint lookup_var {A : Type} (vars : list (string * A)) (name : string) : result A :=
  match vars with
  | [] => Raise KeyError
  | (n, a) :: r => if String.eqb n name then Ok a else lookup_var r name
  end.

(** Length of the time dimension. *)
Definition time_size (ds : Dataset) : nat :=
  match ds with
  | Gridded (Some t) _ _ _ => length t
  | Gridded None _ _ [] => O
  | Gridded None _ _ ((_, a) :: _) => length a
  | Track t _ _ _ => length t
  end.

(** [ds.assign_coords(time=times)] *)
Definition assign_time (ds : Dataset) (times : list Z) : result Dataset :=
  if negb (length times =? time_size ds)%nat then Raise ValueError
  else match ds with
       | Gridded _ lat lon vars => Ok (Gridded (Some times) lat lon vars)
       | Track _ lat lon vars => Ok (Track times lat lon vars)
       end.

(** Concatenation of two datasets along time under [join='override']: the
    lat and lon axes of the first are kept, and the variables are those of
    the first. *)
Definition concat_vars {A : Type} (v1 v2 : list (string * list A))
    : result (list (string * list A)) :=
  mapR (λ na, b ← lookup_var v2 na.1; Ok (na.1, na.2 ++ b)) v1.

Definition concat2 (a b : Dataset) : result Dataset :=
  match a, b with
  | Gridded ta lat lon va, Gridded tb _ _ vb =>
      vars ← concat_vars va vb;
      Ok (Gridded (match ta, tb with
                   | Some x, Some y => Some (x ++ y)
                   | _, _ => None
                   end) lat lon vars)
  | Track ta la lo va, Track tb lb lob vb =>
      vars ← concat_vars va vb;
      Ok (Track (ta ++ tb) (la ++ lb) (lo ++ lob) vars)
  | _, _ => Raise ValueError
  end.

(** [xr.open_mfdataset(files, combine='nested', concat_dim='time',
    join='override')] over the datasets the files hold. *)
Fixpoint concat_from (acc : Dataset) (rest : list Dataset) : result Dataset :=
  match rest with
  | [] => Ok acc
  | d :: r => acc' ← concat2 acc d; concat_from acc' r
  end.

Definition open_mfdataset (dss : list Dataset) : result Dataset :=
  match dss with
  | [] => Raise OSError
  | d :: r => concat_from d r
  end.

(** [ds.sel(lat=slice(a, b), lon=slice(c, d))]: only a dataset indexed by
    lat and lon can be sliced by label. *)
Definition sel_slices (ds : Dataset) (lat_slice lon_slice : Q * Q) : result Dataset :=
  match ds with
  | Gridded t lat lon vars =>
      ilat ← Index.slice_indexer lat lat_slice.1 lat_slice.2;
      ilon ← Index.slice_indexer lon lon_slice.1 lon_slice.2;
      Ok (Gridded t (Index.islice ilat lat) (Index.islice ilon lon)
            (map (λ na, (na.1, map (λ slab, map (Index.islice ilon)
                                               (Index.islice ilat slab)) na.2))
                 vars))
  | Track _ _ _ _ => Raise KeyError
  end.

(** [ds.dims['lat']] and [ds.dims['lon']] *)
Definition dim_lat (ds : Dataset) : nat :=
  match ds with Gridded _ lat _ _ | Track _ lat _ _ => length lat end.
Definition dim_lon (ds : Dataset) : nat :=
  match ds with Gridded _ _ lon _ | Track _ _ lon _ => length lon end.

(** [arr[it, ilat, ilon]] *)
Definition read (arr : list (list (list float64))) (it ilat ilon : nat) : result float64 :=
  match arr !! it with
  | Some slab =>
      match slab !! ilat with
      | Some row =>
          match row !! ilon with
          | Some v => Ok v
          | None => Raise IndexError
          end
      | None => Raise IndexError
      end
  | None => Raise IndexError
  end.

(** [zip(a, b, c)] *)
Fixpoint zip3 {A B C : Type} (a : list A) (b : list B) (c : list C) : list (A * B * C) :=
  match a, b, c with
  | x :: a', y :: b', z :: c' => (x, y, z) :: zip3 a' b' c'
  | _, _, _ => []
  end.

(** [ds[variable].sel(lat=lats, lon=lons, time=times, method='nearest')]
    with the three indexers sharing the dimension [points]: one position
    per axis and per point, then the array is read point by point. *)
Definition sel_nearest (ds : Dataset) (variable : string)
    (lats lons : list Q) (times : list Z) : result (list float64) :=
  match ds with
  | Gridded (Some taxis) lat lon vars =>
      arr ← lookup_var vars variable;
      ilat ← mapR (Index.sel_nearest lat) lats;
      ilon ← mapR (Index.sel_nearest lon) lons;
      itime ← mapR (λ t, Index.sel_nearest (map inject_Z taxis) (inject_Z t)) times;
      mapR (λ i, read arr i.1.1 i.1.2 i.2) (zip3 itime ilat ilon)
  | _ => Raise KeyError
  end.

End Xr.

(** ** [scipy.spatial.KDTree] *)

Module KDTree.

Abbreviation point := (Q * Q * Q)%type.

(** Squared Euclidean distance: the order it induces on neighbours is that
    of the Euclidean distance ([p=2]) the tree minimises. *)
Definition dist2 (a b : point) : Q :=
  let d0 := (a.1.1 - b.1.1)%Q in
  let d1 := (a.1.2 - b.1.2)%Q in
  let d2 := (a.2 - b.2)%Q in
  (d0 * d0 + d1 * d1 + d2 * d2)%Q.

(** The nearest data point among [data], which start at position [i],
    given the best (position, squared distance) found before them. *)
Fixpoint scan (data : list point) (x : point) (i : nat) (best : nat * Q) : nat * Q :=
  match data with
  | [] => best
  | p :: r =>
      let d := dist2 p x in
      scan r x (S i) (if Qltb d best.2 then (i, d) else best)
  end.

(** [tree.query(x, k=1)], its index part: the position of a data point
    nearest to [x].  There is no [distance_upper_bound]; on an empty tree
    the missing neighbour is reported as position [n = 0]. *)
Definition query (data : list point) (x : point) : nat :=
  match data with
  | [] => O
  | p :: r => (scan r x 1%nat (O, dist2 p x)).1
  end.

End KDTree.

(** ** [numpy.random] *)

(** The global generator, as the sequence of draws it will yield: the i-th
    double (read modulo 1, so that it lies in [[0, 1)]) and the i-th
    integer (read modulo the width of the requested range). *)
Record RandomState : Type := mkRandomState {
  random_sample : nat → Q;
  random_integer : nat → Z
}.

Module Np.

Definition frac (q : Q) : Q := (q - inject_Z (Qfloor q))%Q.

(** [np.random.uniform(low, high, size)], consuming the doubles from
    position [offset]: [low + (high - low) * u] with [u] in [[0, 1)]. *)
Definition uniform (rs : RandomState) (offset : nat) (low high : Q) (size : nat) : list Q :=
  map (λ i, (low + (high - low) * frac (random_sample rs i))%Q) (seq offset size).

(** [np.random.randint(low, high, size)]: integers of [[low, high)];
    [low >= high] raises. *)
Definition randint (rs : RandomState) (low high : Z) (size : nat) : result (list Z) :=
  if (low <? high)%Z
  then Ok (map (λ i, (low + random_integer rs i mod (high - low))%Z) (seq 0 size))
  else Raise ValueError.

(** [np.vstack([a, b, c]).T] *)
Definition vstack3T (a b c : list Q) : result (list (Q * Q * Q)) :=
  if (length a =? length b)%nat && (length b =? length c)%nat
  then Ok (Xr.zip3 a b c)
  else Raise ValueError.

(** [Series.min()] and [Series.max()] of a non-empty float column. *)
Definition min_ (x : Q) (r : list Q) : Q :=
  fold_left (λ m y, if Qltb y m then y else m) r x.
Definition max_ (x : Q) (r : list Q) : Q :=
  fold_left (λ m y, if Qltb m y then y else m) r x.

End Np.

(** ** [final_dataset.py] *)

(** A record of the occurrence file, reduced to the three columns the script
    reads.  [eventDate] is what [pd.to_datetime(..., errors='coerce')] makes
    of the cell: [None] for a missing or unparseable date. *)
Record OccRecord : Type := mkOccRecord {
  eventDate : option Z;
  decimalLatitude : float64;
  decimalLongitude : float64
}.

(** The occurrence file: its header, in file order, and its records. *)
Record OccurrenceFile : Type := mkOccurrenceFile {
  header : list string;
  records : list OccRecord
}.

(** What the run finds outside the script. *)
Record Env : Type := mkEnv {
  occurrence : result OccurrenceFile;   (** opening [occurrence_file] *)
  glob_nc : string → list NcFile;       (** [glob(folder/*.nc)] *)
  rng : RandomState;
  utcoffset : Z → Z                     (** local offset from UTC, in seconds,
                                            on a day given as days since the epoch *)
}.

Record Source : Type := mkSource {
  folder : string;
  variable : string;
  is_gridded : bool;
  needs_time : bool
}.

Record OutputFile : Type := mkOutputFile {
  directory : string;
  file_name : string;
  compression : string;
  table : Frame
}.

Module FinalDataset.

(** *** Step 1: setup *)

(** ['2020-01-01'] and ['2025-06-10'], as (year, month, day) *)
Definition start_date_str : Z * Z * Z := (2020, 1, 1)%Z.
Definition end_date_str : Z * Z * Z := (2025, 6, 10)%Z.
Definition out_dir : string := "./final_model_data".
Definition chl_folder : string := "C:\Sharko\chlorophyll_data_8day".
Definition sst_folder : string := "C:\Sharko\sst_data_8day".
Definition ssh_folder : string := "C:\Sharko\SSHA_New".
Definition sss_folder : string := "C:\Sharko\SSS_New".

Definition days_of (d : Z * Z * Z) : Z := Calendar.days_from_civil d.1.1 d.1.2 d.2.

(** *** Step 2: the presence records *)

Definition required_columns : list string :=
  ["eventDate"; "decimalLatitude"; "decimalLongitude"].

Definition raw_cell (r : OccRecord) (column : string) : cell :=
  if String.eqb column "eventDate" then
    match eventDate r with Some t => Datetime t | None => NaT end
  else if String.eqb column "decimalLatitude" then Float (decimalLatitude r)
  else Float (decimalLongitude r).

(** [pd.read_csv(..., usecols=required_columns)]: the columns come in the
    order of the file, not of [usecols]; a required column the file lacks
    raises [ValueError]. *)
Definition read_csv (f : OccurrenceFile) (usecols : list string) : result Frame :=
  if forallb (λ c, bool_decide (c ∈ header f)) usecols then
    let cols := filter (λ c, c ∈ usecols) (header f) in
    Ok (mkFrame cols (map (λ r, map (raw_cell r) cols) (records f)))
  else Raise ValueError.

(** [df['time'] = pd.to_datetime(df['time'], errors='coerce')] *)
Definition to_datetime_coerce (df : Frame) : result Frame :=
  cs ← DataFrame.get_column df "time";
  DataFrame.set_column df "time"
    (map (λ c, match c with Datetime t => Datetime t | _ => NaT end) cs).

Definition in_date_range (i : nat) (row : list cell) : bool :=
  match DataFrame.at_ i row with
  | Datetime t =>
      (Calendar.to_datetime start_date_str.1.1 start_date_str.1.2 start_date_str.2 <=? t)%Z
      && (t <=? Calendar.to_datetime end_date_str.1.1 end_date_str.1.2 end_date_str.2)%Z
  | _ => false
  end.

Definition load_presence (env : Env) : result Frame :=
  f ← occurrence env;
  presence_data ← read_csv f required_columns;
  let presence_data :=
    DataFrame.rename presence_data
      [("eventDate", "time"); ("decimalLatitude", "lat"); ("decimalLongitude", "lon")] in
  presence_data ← to_datetime_coerce presence_data;
  let presence_data := DataFrame.dropna presence_data in
  match DataFrame.index_of "time" (columns presence_data) with
  | Some i => Ok (DataFrame.where_ (in_date_range i) presence_data)
  | None => Raise KeyError
  end.

(** *** Step 3: pseudo-absence points *)

(** [int(datetime.strptime(s, '%Y-%m-%d').timestamp())]: the naive date is
    read in local time. *)
Definition timestamp (env : Env) (d : Z * Z * Z) : Z :=
  (days_of d * Calendar.seconds_per_day - utcoffset env (days_of d))%Z.

(** The three random columns, for [lats] and [lons] the non-empty
    presence columns. *)
Definition draw_pseudo_points (rs : RandomState) (start_ts end_ts : Z)
    (lat0 : Q) (lats : list Q) (lon0 : Q) (lons : list Q) (num_presence : nat)
    : result (list Z * list Q * list Q) :=
  let num_pseudo_points := (num_presence * 2)%nat in
  let min_lat := Np.min_ lat0 lats in
  let max_lat := Np.max_ lat0 lats in
  let min_lon := Np.min_ lon0 lons in
  let max_lon := Np.max_ lon0 lons in
  let pseudo_lats := Np.uniform rs 0 min_lat max_lat num_pseudo_points in
  let pseudo_lons := Np.uniform rs num_pseudo_points min_lon max_lon num_pseudo_points in
  random_timestamps ← Np.randint rs start_ts end_ts num_pseudo_points;
  let pseudo_times := map (λ s, (s * Calendar.ns_per_second)%Z) random_timestamps in
  Ok (pseudo_times, pseudo_lats, pseudo_lons).

Definition pseudo_frame (p : list Z * list Q * list Q) : Frame :=
  mkFrame ["time"; "lat"; "lon"]
    (map (λ tlo, [Datetime tlo.1.1; Float (Fin tlo.1.2); Float (Fin tlo.2)])
         (Xr.zip3 p.1.1 p.1.2 p.2)).

Definition generate_pseudo_absence (env : Env) (presence_data : Frame) : result Frame :=
  if (0 <? DataFrame.len presence_data)%nat then
    lats ← DataFrame.floats presence_data "lat";
    lons ← DataFrame.floats presence_data "lon";
    match lats, lons with
    | lat0 :: lats', lon0 :: lons' =>
        p ← draw_pseudo_points (rng env) (timestamp env start_date_str) (timestamp env end_date_str)
              lat0 lats' lon0 lons' (DataFrame.len presence_data);
        Ok (pseudo_frame p)
    | _, _ => Raise ValueError
    end
  else Ok (mkFrame ["time"; "lat"; "lon"] []).

(** *** Step 4: all points *)

Definition combine (presence_data pseudo_absence_data : Frame) : Frame :=
  let presence_data := DataFrame.set_scalar presence_data "presence" (Int 1) in
  let pseudo_absence_data := DataFrame.set_scalar pseudo_absence_data "presence" (Int 0) in
  DataFrame.concat presence_data pseudo_absence_data.

(** *** Step 5: loading a source *)

Definition _build_time_coordinate_from_filenames (ds : Dataset) (files : list NcFile) : Dataset :=
  match mapR (λ f, match start_date f with
                   | Some t => Ok t
                   | None => Raise ValueError
                   end) files with
  | Ok times =>
      match Xr.assign_time ds times with
      | Ok ds' => ds'
      | Raise _ => ds
      end
  | Raise _ => ds
  end.

(** [max(bounds)], [min(bounds)] of a pair *)
Definition max2 (b : Q * Q) : Q := if Qltb b.1 b.2 then b.2 else b.1.
Definition min2 (b : Q * Q) : Q := if Qltb b.2 b.1 then b.2 else b.1.

(** The cropping step: [None] is the skip of a source found not to
    overlap the points; a [KeyError] of the label slicing leaves the
    dataset as it is. *)
Definition crop (ds : Dataset) (lat_bounds lon_bounds : Q * Q) : result (option Dataset) :=
  match Xr.sel_slices ds (max2 lat_bounds, min2 lat_bounds)
                         (min2 lon_bounds, max2 lon_bounds) with
  | Ok cropped_ds =>
      if (Xr.dim_lat cropped_ds =? 0)%nat || (Xr.dim_lon cropped_ds =? 0)%nat
      then Ok None
      else Ok (Some cropped_ds)
  | Raise KeyError => Ok (Some ds)
  | Raise e => Raise e
  end.

(** The renaming of [latitude] and [longitude] to [lat] and [lon] has
    nothing to do here: the axes of a [Dataset] carry these names. *)
Definition open_multifile_dataset (file_list : list NcFile)
    (lat_bounds lon_bounds : Q * Q) (needs_time_coord : bool) : result (option Dataset) :=
  match file_list with
  | [] => Raise FileNotFoundError
  | _ =>
      let valid_files := filter (λ f, is_Some (content f)) file_list in
      match valid_files with
      | [] => Raise ValueError
      | _ =>
          ds ← Xr.open_mfdataset (omap content valid_files);
          let ds := if needs_time_coord
                    then _build_time_coordinate_from_filenames ds valid_files
                    else ds in
          crop ds lat_bounds lon_bounds
      end
  end.

(** *** Step 6: extraction *)

Definition seconds (ns : Z) : Q := inject_Z (ns / Calendar.ns_per_second).

(** A gridded dataset handed to the track path cannot be stacked into
    (sample, 3) triples and read back as one value per point: it raises. *)
Definition _extract_track_data_with_kdtree (ds : Dataset) (variable : string)
    (lookup_df : Frame) : result (list float64) :=
  match ds with
  | Track time lat lon vars =>
      sat_points ← Np.vstack3T (map seconds time) lat lon;
      lookup_time ← DataFrame.datetimes lookup_df "time";
      lookup_lat ← DataFrame.floats lookup_df "lat";
      lookup_lon ← DataFrame.floats lookup_df "lon";
      lookup_points ← Np.vstack3T (map seconds lookup_time) lookup_lat lookup_lon;
      let indices := map (KDTree.query sat_points) lookup_points in
      values ← Xr.lookup_var vars variable;
      mapR (λ i, match values !! i with
                 | Some v => Ok v
                 | None => Raise IndexError
                 end) indices
  | Gridded _ _ _ _ => Raise ValueError
  end.

Definition extract_gridded (ds : Dataset) (variable : string) (final_dataset : Frame)
    : result (list float64) :=
  lats ← DataFrame.floats final_dataset "lat";
  lons ← DataFrame.floats final_dataset "lon";
  times ← DataFrame.datetimes final_dataset "time";
  Xr.sel_nearest ds variable lats lons times.

Definition data_sources : list (string * Source) :=
  [ ("chlor_a", mkSource chl_folder "chlor_a" true true);
    ("sst", mkSource sst_folder "sst" true true);
    ("ssha", mkSource ssh_folder "ssha" false false);
    ("sss", mkSource sss_folder "sss_smap" true false) ].

(** The body of the [try]: the frame with the source's column, the frame
    unchanged on [continue], or the exception. *)
Definition process_source (env : Env) (lat_bounds lon_bounds : Q * Q)
    (final_dataset : Frame) (name : string) (source : Source) : result Frame :=
  ds ← open_multifile_dataset (glob_nc env (folder source)) lat_bounds lon_bounds
         (needs_time source);
  match ds with
  | None => Ok final_dataset
  | Some ds =>
      extracted_values ←
        (if is_gridded source
         then extract_gridded ds (variable source) final_dataset
         else _extract_track_data_with_kdtree ds (variable source) final_dataset);
      DataFrame.set_column final_dataset name (map Float extracted_values)
  end.

(** One turn of the loop: [except Exception] leaves the frame as it was. *)
Definition process_or_skip (env : Env) (lat_bounds lon_bounds : Q * Q)
    (final_dataset : Frame) (ns : string * Source) : Frame :=
  match process_source env lat_bounds lon_bounds final_dataset ns.1 ns.2 with
  | Ok df => df
  | Raise _ => final_dataset
  end.

Definition extract_all (env : Env) (lat_bounds lon_bounds : Q * Q)
    (sources : list (string * Source)) (final_dataset : Frame) : Frame :=
  fold_left (process_or_skip env lat_bounds lon_bounds) sources final_dataset.

(** *** Steps 7 and 8: finalizing and saving *)

Definition add_day_features (final_dataset : Frame) : result Frame :=
  times ← DataFrame.get_column final_dataset "time";
  final_dataset ← DataFrame.set_column final_dataset "day_of_year"
    (map (λ c, match c with
               | Datetime t => Int (Calendar.dayofyear t)
               | _ => Float NaN
               end) times);
  doy ← DataFrame.get_column final_dataset "day_of_year";
  final_dataset ← DataFrame.set_column final_dataset "day_sin"
    (map (λ c, match c with
               | Int d => Sin2Pi (inject_Z d / 365)
               | _ => Float NaN
               end) doy);
  final_dataset ← DataFrame.set_column final_dataset "day_cos"
    (map (λ c, match c with
               | Int d => Cos2Pi (inject_Z d / 365)
               | _ => Float NaN
               end) doy);
  DataFrame.drop final_dataset "day_of_year".

(** [cols.insert(len(cols), cols.pop(cols.index('presence')))] *)
Definition presence_last (cols : list string) : result (list string) :=
  match DataFrame.index_of "presence" cols with
  | Some i => Ok (delete i cols ++ ["presence"])
  | None => Raise ValueError
  end.

Definition save (final_dataset : Frame) : result (option OutputFile) :=
  if negb (DataFrame.empty final_dataset) then
    cols ← presence_last (columns final_dataset);
    final_dataset ← DataFrame.select final_dataset cols;
    Ok (Some (mkOutputFile out_dir "model_training_dataset.csv.gz" "gzip" final_dataset))
  else Ok None.

(** The joined table before rows with a missing value are dropped. *)
Definition joined (env : Env) (presence_data combined_points : Frame) : result Frame :=
  lats ← DataFrame.floats presence_data "lat";
  lons ← DataFrame.floats presence_data "lon";
  match lats, lons with
  | lat0 :: lats', lon0 :: lons' =>
      let lat_bounds := (Np.min_ lat0 lats', Np.max_ lat0 lats') in
      let lon_bounds := (Np.min_ lon0 lons', Np.max_ lon0 lons') in
      let final_dataset := extract_all env lat_bounds lon_bounds data_sources combined_points in
      add_day_features final_dataset
  | _, _ => Raise ValueError
  end.

(** The whole script: an exception that escapes it, or the file it saved
    ([None] when it saved none). *)
Definition main (env : Env) : result (option OutputFile) :=
  presence_data ← load_presence env;
  pseudo_absence_data ← generate_pseudo_absence env presence_data;
  let combined_points := combine presence_data pseudo_absence_data in
  if (0 <? DataFrame.len combined_points)%nat then
    final_dataset ← joined env presence_data combined_points;
    save (DataFrame.dropna final_dataset)
  else Ok None.

End FinalDataset.

(** ** [SST_script_8day.py] *)

(** The answer to one [session.get]: status, the Content-Type header (the
    empty string when absent), the bytes the body stream delivers, and
    whether the stream ends normally; a stream that does not raises
    [RequestException] after delivering its bytes. *)
Record Response : Type := mkResponse {
  status_code : Z;
  content_type : string;
  body : N;
  stream_ok : bool
}.

(** The state the downloader acts on: the sizes of the files on disk, the
    lines of the missing-files log, the number of requests sent so far and
    the seconds slept. *)
Record World : Type := mkWorld {
  files : gmap string N;
  missing_log : list string;
  requests : nat;
  slept : nat
}.

Module SstDownloader.

Definition DATA_DIR : string := "sst_data_8day".
Definition MISSING_LOG : string := DATA_DIR +:+ "/missing_files.txt".
Definition BASE_URL : string := "https://oceandata.sci.gsfc.nasa.gov/ob/getfile/".
Definition overall_start_date : Z := Calendar.days_from_civil 2020 1 1.
Definition overall_end_date : Z := Calendar.days_from_civil 2025 6 30.

(** The server: what the n-th request of the run gets for a URL, or the
    [RequestException] it raises. *)
Definition Server : Type := nat → string → result Response.

(** [needle in s] *)
Fixpoint contains_from (fuel : nat) (needle s : string) : bool :=
  String.prefix needle s ||
  match fuel, s with
  | S fuel', String _ r => contains_from fuel' needle r
  | _, _ => false
  end.
Definition contains (needle s : string) : bool :=
  contains_from (String.length s) needle s.

Definition write_log (w : World) (line : string) : World :=
  mkWorld (files w) (missing_log w ++ [line]) (requests w) (slept w).
Definition sleep (w : World) (secs : nat) : World :=
  mkWorld (files w) (missing_log w) (requests w) (slept w + secs).
Definition write_file (w : World) (path : string) (size : N) : World :=
  mkWorld (<[path := size]> (files w)) (missing_log w) (requests w) (slept w).
Definition remove (w : World) (path : string) : World :=
  mkWorld (delete path (files w)) (missing_log w) (requests w) (slept w).
Definition sent (w : World) : World :=
  mkWorld (files w) (missing_log w) (S (requests w)) (slept w).

(** [os.path.exists(p) and os.path.getsize(p) > 10000] *)
Definition valid_file (w : World) (path : string) : bool :=
  match files w !! path with
  | Some size => (10000 <? size)%N
  | None => false
  end.

(** The file name of the 8-day composite that starts on [start_date]
    (days since the epoch). *)
Definition file_name_of (start_date : Z) : string :=
  let end_date := (start_date + 7)%Z in
  let end_date :=
    if (Calendar.year start_date <? Calendar.year end_date)%Z
    then Calendar.days_from_civil (Calendar.year start_date) 12 31
    else end_date in
  "AQUA_MODIS." +:+ Calendar.strftime_Ymd start_date +:+ "_" +:+
  Calendar.strftime_Ymd end_date +:+ ".L3m.8D.SST.sst.4km.nc".

(** The [for attempt in range(1, retries + 1)] loop with [left] attempts
    to go, and what follows it. *)
Fixpoint attempts (server : Server) (fname url save_path : string)
    (left : nat) (w : World) : option string * World :=
  match left with
  | O => (None, write_log w (fname +:+ " (Max retries reached)"))
  | S left' =>
      match server (requests w) url with
      | Raise _ => attempts server fname url save_path left' (sleep (sent w) 5)
      | Ok r =>
          let w := sent w in
          if contains "text/html" (content_type r) then (None, w)
          else if (status_code r =? 200)%Z then
            let w := write_file w save_path (body r) in
            if stream_ok r then
              if valid_file w save_path then (Some save_path, w)
              else (None, remove w save_path)
            else attempts server fname url save_path left' (sleep w 5)
          else if (status_code r =? 404)%Z then
            (None, write_log w (fname +:+ " (404 Not Found)"))
          else attempts server fname url save_path left' (sleep w 5)
      end
  end.

Definition download_nc_file (server : Server) (start_date : Z) (retries : nat)
    (w : World) : option string * World :=
  let fname := file_name_of start_date in
  let url := BASE_URL +:+ fname in
  let save_path := DATA_DIR +:+ "/" +:+ fname in
  if valid_file w save_path then (Some save_path, w)
  else attempts server fname url save_path retries w.

(** [pd.date_range(start, end, freq=f"{step}D")]: the days from [start]
    on, [step] apart, as long as they do not pass [end].  The walk takes
    at most one step per day of the range. *)
Fixpoint date_range_from (fuel : nat) (d stop step : Z) : list Z :=
  match fuel with
  | O => []
  | S fuel' =>
      if (d <=? stop)%Z then d :: date_range_from fuel' (d + step) stop step
      else []
  end.
Definition date_range (start stop step : Z) : list Z :=
  date_range_from (Z.to_nat (stop - start + 1)) start stop step.

(** The start dates of a year: [pd.date_range(f"{year}-01-01",
    f"{year}-12-31", freq="8D")]. *)
Definition year_dates (y : Z) : list Z :=
  date_range (Calendar.days_from_civil y 1 1) (Calendar.days_from_civil y 12 31) 8.

(** The start dates of all the years, kept when inside the overall range. *)
Definition dates_to_download : list Z :=
  filter (λ d, (overall_start_date <= d)%Z ∧ (d <= overall_end_date)%Z)
    (concat (map year_dates [2020; 2021; 2022; 2023; 2024; 2025]%Z)).

(** The main loop: the files obtained, and the final state. *)
Definition download_all (server : Server) (dates : list Z) (w : World)
    : list string * World :=
  fold_left (λ acc d,
               let '(file_path, w') := download_nc_file server d 3 acc.2 in
               (match file_path with
                | Some p => acc.1 ++ [p]
                | None => acc.1
                end, w'))
    dates ([], w).

End SstDownloader.

Import FinalDataset.

(** * Specification-side predicates and sample inputs *)

(** The track dataset is well formed for [variable]: one sample dimension of
    positive length, shared by time, lat, lon and the variable. *)
Definition track_samples (time : list Z) (lat lon : list Q)
    (vars : list (string * list float64)) (variable : string)
    (values : list float64) : Prop :=
  time ≠ []
  ∧ length lat = length time
  ∧ length lon = length time
  ∧ Xr.lookup_var vars variable = Ok values
  ∧ length values = length time.

(** The coordinate columns of the points hold no missing cell. *)
Definition point_columns (df : Frame) (lt : list Z) (la lo : list Q) : Prop :=
  DataFrame.datetimes df "time" = Ok lt
  ∧ DataFrame.floats df "lat" = Ok la
  ∧ DataFrame.floats df "lon" = Ok lo.

(** The time of the search space: the whole seconds since the epoch of a
    nanosecond timestamp. *)
Definition epoch_seconds (ns : Z) : Q := inject_Z (ns / 1000000000).

(** The squared Euclidean distance between two triples (seconds, degrees of
    latitude, degrees of longitude), no coordinate being rescaled.  Its
    order on pairs of triples is that of the Euclidean distance. *)
Definition euclidean2 (t1 a1 o1 t2 a2 o2 : Q) : Q :=
  ((t1 - t2) * (t1 - t2) + (a1 - a2) * (a1 - a2) + (o1 - o2) * (o1 - o2))%Q.

(** Sample [i] of the track is a nearest one to the point (t, a, o): its
    Euclidean distance to the point on the raw triple (whole seconds since
    the epoch, degrees, degrees) is exceeded by that of no sample. *)
Definition nearest_sample (time : list Z) (lat lon : list Q) (t : Z) (a o : Q) (i : nat) : Prop :=
  ∃ ti ai oi,
    time !! i = Some ti ∧ lat !! i = Some ai ∧ lon !! i = Some oi
    ∧ ∀ j tj aj oj,
        time !! j = Some tj → lat !! j = Some aj → lon !! j = Some oj →
        (euclidean2 (epoch_seconds ti) ai oi (epoch_seconds t) a o
         <= euclidean2 (epoch_seconds tj) aj oj (epoch_seconds t) a o)%Q.

(** A synthetic track of two samples and one point: the first sample is 10
    seconds and 0 degrees away, the second 0 seconds and 5 degrees away. *)
Definition demo_track_time : list Z := [100 * 10 ^ 9; 110 * 10 ^ 9]%Z.
Definition demo_track_lat : list Q := [0; 5]%Q.
Definition demo_track_lon : list Q := [0; 0]%Q.
Definition demo_track_values : list float64 := [Fin 1; Fin 2].
Definition demo_track : Dataset :=
  Track demo_track_time demo_track_lat demo_track_lon [("ssha", demo_track_values)].
Definition demo_point : Frame :=
  mkFrame ["time"; "lat"; "lon"] [[Datetime (110 * 10 ^ 9); Float (Fin 0); Float (Fin 0)]].

(** A track on which the unit of time decides: from the point (100 s, 0, 0)
    the first sample is 0.9 s away in time, that is 0 whole seconds and
    900 000 000 nanoseconds; the second is half a degree away; the third is
    3 s away. *)
Definition fine_track_time : list Z := [100900000000; 100000000000; 103000000000]%Z.
Definition fine_track_lat : list Q := [0; 1 # 2; 0]%Q.
Definition fine_track_lon : list Q := [0; 0; 0]%Q.
Definition fine_track_values : list float64 := [Fin 1; Fin 2; Fin 3].
Definition fine_track : Dataset :=
  Track fine_track_time fine_track_lat fine_track_lon [("ssha", fine_track_values)].
Definition fine_point : Frame :=
  mkFrame ["time"; "lat"; "lon"] [[Datetime 100000000000; Float (Fin 0); Float (Fin 0)]].


(** [a] lies in the closed range spanned by the values of [xs]. *)
Definition within (xs : list Q) (a : Q) : Prop :=
  (∃ x, x ∈ xs ∧ (x <= a)%Q) ∧ (∃ y, y ∈ xs ∧ (a <= y)%Q).

(** A row of the pseudo-absence table: a timestamp of [s] whole seconds and
    a position inside the bounding box of the observed points. *)
Definition pseudo_row (lats lons : list Q) (s : Z) (row : list cell) : Prop :=
  ∃ a o, row = [Datetime (s * 10 ^ 9); Float (Fin a); Float (Fin o)]
         ∧ within lats a ∧ within lons o.

(** The [i]-th uniform draw of the generator, a number of [[0, 1)], and its
    [i]-th integer draw read in a range of [width] values. *)
Definition uniform_draw (rs : RandomState) (i : nat) : Q :=
  (random_sample rs i - inject_Z (Qfloor (random_sample rs i)))%Q.
Definition integer_draw (rs : RandomState) (width : Z) (i : nat) : Z :=
  (random_integer rs i mod width)%Z.

(** [lo] and [hi] are the least and the greatest of the values [xs]: the
    sides of the bounding box of the observed points. *)
Definition bounding (xs : list Q) (lo hi : Q) : Prop :=
  lo ∈ xs ∧ hi ∈ xs ∧ ∀ x, x ∈ xs → (lo <= x)%Q ∧ (x <= hi)%Q.

(** The [k]-th of [n] points drawn uniformly and independently: the
    latitude is the affine image in the box of the draw [k], the longitude
    that of the draw [n + k], and the time is the [k]-th integer draw, read
    in the seconds from [t0] on and before [t1]. *)
Definition sampled_row (rs : RandomState) (t0 t1 : Z)
    (lat_lo lat_hi lon_lo lon_hi : Q) (n k : nat) : list cell :=
  [ Datetime ((t0 + integer_draw rs (t1 - t0) k) * 10 ^ 9);
    Float (Fin (lat_lo + (lat_hi - lat_lo) * uniform_draw rs k));
    Float (Fin (lon_lo + (lon_hi - lon_lo) * uniform_draw rs (n + k))) ].

(** The same run with another outcome of the random generator. *)
Definition with_rng (env : Env) (rs : RandomState) : Env :=
  mkEnv (occurrence env) (glob_nc env) rs (utcoffset env).

(** One observed point, and an environment in the UTC time zone. *)
Definition one_presence : Frame :=
  mkFrame ["time"; "lat"; "lon"]
    [[Datetime (Calendar.to_datetime 2021 3 1); Float (Fin 10); Float (Fin 20)]].
(** Two observed points, spanning a box of 2 by 5 degrees. *)
Definition two_presence : Frame :=
  mkFrame ["time"; "lat"; "lon"]
    [ [Datetime (Calendar.to_datetime 2021 3 1); Float (Fin 10); Float (Fin 25)];
      [Datetime (Calendar.to_datetime 2022 3 1); Float (Fin 12); Float (Fin 20)] ].
Definition utc_env (rs : RandomState) : Env :=
  mkEnv (Raise FileNotFoundError) (λ _, []) rs (λ _, 0%Z).
Definition zero_rng : RandomState := mkRandomState (λ _, 0%Q) (λ _, 0%Z).

(** A small world for the whole run: an occurrence file with the columns in
    the order of a GBIF download, two 8-day chlorophyll and temperature
    grids dated by their file names, a two-sample altimetry track and a
    salinity grid that carries its own time axis. *)
Definition demo_grid (variable : string) (v : float64) : Dataset :=
  Gridded None [14; 11; 9]%Q [19; 22; 26]%Q
    [(variable, [[[v; v; v]; [v; v; v]; [v; v; v]]])].

Definition demo_files (variable : string) (v : float64) : list NcFile :=
  [ mkNcFile "AQUA_MODIS.20200101_20200108.L3m.8D.nc" (Some (demo_grid variable v))
      (Some (Calendar.to_datetime 2020 1 1));
    mkNcFile "broken.nc" None None;
    mkNcFile "AQUA_MODIS.20220101_20220108.L3m.8D.nc" (Some (demo_grid variable v))
      (Some (Calendar.to_datetime 2022 1 1)) ].

Definition demo_salinity : Dataset :=
  Gridded (Some [Calendar.to_datetime 2021 1 1]) [14; 11; 9]%Q [19; 22; 26]%Q
    [("sss_smap", [[[Fin 31; Fin 32; Fin 33]; [Fin 34; Fin 35; Fin 36]; [Fin 37; Fin 38; Fin 39]]])].

Definition demo_altimetry : Dataset :=
  Track [Calendar.to_datetime 2021 1 1; Calendar.to_datetime 2023 1 1]
    [0; 50]%Q [0; 50]%Q [("ssha", [Fin 100; Fin 200])].

Definition demo_glob (chl : float64) (f : string) : list NcFile :=
  if String.eqb f chl_folder then demo_files "chlor_a" chl
  else if String.eqb f sst_folder then demo_files "sst" (Fin 18)
  else if String.eqb f ssh_folder then [mkNcFile "ssha.nc" (Some demo_altimetry) None]
  else if String.eqb f sss_folder then [mkNcFile "sss.nc" (Some demo_salinity) None]
  else [].

Definition demo_records : list OccRecord :=
  [ mkOccRecord (Some (Calendar.to_datetime 2021 3 1)) (Fin 10) (Fin 20);
    mkOccRecord None (Fin 10) (Fin 20);
    mkOccRecord (Some (Calendar.to_datetime 2022 3 1)) (Fin 12) (Fin 25);
    mkOccRecord (Some (Calendar.to_datetime 2019 3 1)) (Fin 12) (Fin 25) ].

Definition demo_rng : RandomState :=
  mkRandomState (λ i, (Z.of_nat i # 7)%Q) (λ i, (Z.of_nat i * 1000003)%Z).

Definition demo_env (hdr : list string) (recs : list OccRecord) (chl : float64) : Env :=
  mkEnv (Ok (mkOccurrenceFile hdr recs)) (demo_glob chl) demo_rng (λ _, 0%Z).

Definition gbif_header : list string :=
  ["gbifID"; "decimalLatitude"; "decimalLongitude"; "eventDate"].
Definition dwc_header : list string :=
  ["eventDate"; "decimalLatitude"; "decimalLongitude"].

(** The file the run saves in that world. *)
Definition saved_or_empty (r : result (option OutputFile)) : OutputFile :=
  match r with
  | Ok (Some out) => out
  | _ => mkOutputFile "" "" "" (mkFrame [] [])
  end.
Definition demo_out_gbif : OutputFile :=
  Eval vm_compute in saved_or_empty (main (demo_env gbif_header demo_records (Fin 3))).
Definition demo_out_dwc : OutputFile :=
  Eval vm_compute in saved_or_empty (main (demo_env dwc_header demo_records (Fin 3))).

(** Every row of the frame has one cell per column. *)
Definition well_formed (df : Frame) : Prop :=
  Forall (λ r, length r = length (columns df)) (rows df).

(** [df[name] = values] for a new name and values of the right length. *)
Definition with_column (df : Frame) (name : string) (values : list cell) : Frame :=
  mkFrame (columns df ++ [name]) (zip_with (λ r v, r ++ [v]) (rows df) values).

(** The points as a source sees them: the three coordinate columns. *)
Definition same_points (points df : Frame) : Prop :=
  DataFrame.len df = DataFrame.len points
  ∧ ∀ c, c ∈ ["time"; "lat"; "lon"] → DataFrame.get_column df c = DataFrame.get_column points c.

(** What a source yields on its own for the points: its values, [None] when
    the overlap check skips it, or the exception it raises. *)
Definition source_values (env : Env) (lat_bounds lon_bounds : Q * Q)
    (points : Frame) (source : Source) : result (option (list float64)) :=
  ds ← open_multifile_dataset (glob_nc env (folder source)) lat_bounds lon_bounds
         (needs_time source);
  match ds with
  | None => Ok None
  | Some ds =>
      vals ← (if is_gridded source
              then extract_gridded ds (variable source) points
              else _extract_track_data_with_kdtree ds (variable source) points);
      Ok (Some vals)
  end.

Definition processed (env : Env) (lat_bounds lon_bounds : Q * Q)
    (points : Frame) (source : Source) : bool :=
  match source_values env lat_bounds lon_bounds points source with
  | Ok (Some _) => true
  | _ => false
  end.

(** The name the script gives to a column of the occurrence file. *)
Definition coordinate_name (c : string) : string :=
  if String.eqb c "eventDate" then "time"
  else if String.eqb c "decimalLatitude" then "lat"
  else if String.eqb c "decimalLongitude" then "lon"
  else c.

(** The coordinate columns of the run, in the order of the file. *)
Definition coordinate_columns (f : OccurrenceFile) : list string :=
  map coordinate_name (filter (λ c, c ∈ required_columns) (header f)).

(** A world in which three of the four sources fail: the chlorophyll folder
    is empty, the temperature folder holds only files that cannot be opened,
    the salinity grid lies away from the points; the altimetry track is
    sound. *)
Definition far_salinity : Dataset :=
  Gridded (Some [Calendar.to_datetime 2021 1 1]) [-40; -41]%Q [100; 101]%Q
    [("sss_smap", [[[Fin 31; Fin 32]; [Fin 34; Fin 35]]])].

Definition faulty_glob (f : string) : list NcFile :=
  if String.eqb f sst_folder then [mkNcFile "a.nc" None None; mkNcFile "b.nc" None None]
  else if String.eqb f ssh_folder then [mkNcFile "ssha.nc" (Some demo_altimetry) None]
  else if String.eqb f sss_folder then [mkNcFile "sss.nc" (Some far_salinity) None]
  else [].

Definition faulty_env : Env :=
  mkEnv (Ok (mkOccurrenceFile gbif_header demo_records)) faulty_glob demo_rng (λ _, 0%Z).

Definition demo_points : Frame :=
  mkFrame ["lat"; "lon"; "time"; "presence"]
    [ [Float (Fin 10); Float (Fin 20); Datetime (Calendar.to_datetime 2021 3 1); Int 1];
      [Float (Fin 12); Float (Fin 25); Datetime (Calendar.to_datetime 2022 3 1); Int 1];
      [Float (Fin 11); Float (Fin 21); Datetime (Calendar.to_datetime 2020 3 1); Int 0] ].

(** A fresh download directory, and three servers: one that answers every
    request with an HTML page, one that always answers 503, one that sends
    a body too small to be a data file. *)
Definition empty_world : World := mkWorld ∅ [] 0 0.
Definition html_server : SstDownloader.Server :=
  λ _ _, Ok (mkResponse 200 "text/html; charset=UTF-8" 5120 true).
Definition unavailable_server : SstDownloader.Server :=
  λ _ _, Ok (mkResponse 503 "" 0 true).
Definition stub_server : SstDownloader.Server :=
  λ _ _, Ok (mkResponse 200 "application/x-netcdf" 512 true).

(** The answer is a transient failure: a network error, a broken body
    stream, or a status other than 200 and 404; not an HTML page. *)
Definition transient (a : result Response) : Prop :=
  match a with
  | Raise _ => True
  | Ok r =>
      SstDownloader.contains "text/html" (content_type r) = false
      ∧ (((status_code r =? 200)%Z = true ∧ stream_ok r = false)
         ∨ ((status_code r =? 200)%Z = false ∧ (status_code r =? 404)%Z = false))
  end.

(** Strictly monotonic axes. *)
Definition increasing (xs : list Q) : Prop :=
  ∀ i j x y, xs !! i = Some x → xs !! j = Some y → (i < j)%nat → (x < y)%Q.
Definition decreasing (xs : list Q) : Prop :=
  ∀ i j x y, xs !! i = Some x → xs !! j = Some y → (i < j)%nat → (y < x)%Q.
(** Checks of the same, label by label. *)
Fixpoint ascending (xs : list Q) : bool :=
  match xs with
  | [] => true
  | x :: r => match r with [] => true | y :: _ => Qltb x y && ascending r end
  end.
Fixpoint descending (xs : list Q) : bool :=
  match xs with
  | [] => true
  | x :: r => match r with [] => true | y :: _ => Qltb y x && descending r end
  end.

Definition strictly_monotonic (xs : list Q) : Prop :=
  xs ≠ [] ∧ (increasing xs ∨ decreasing xs).

(** Position [i] holds a label of [xs] nearest to [v]; among the labels at
    the same distance it holds the larger one. *)
Definition nearest_preferring_larger (xs : list Q) (v : Q) (i : nat) : Prop :=
  ∃ x, xs !! i = Some x
       ∧ ∀ j y, xs !! j = Some y →
           (Qabs (x - v) <= Qabs (y - v))%Q
           ∧ ((Qabs (x - v) == Qabs (y - v))%Q → (y <= x)%Q).

(** Position [i] holds a label of [xs] nearest to [v]; among the labels at
    the same distance it is the lower position (the selection the
    specification describes). *)
Definition nearest_preferring_lower_index (xs : list Q) (v : Q) (i : nat) : Prop :=
  ∃ x, xs !! i = Some x
       ∧ ∀ j y, xs !! j = Some y →
           (Qabs (x - v) <= Qabs (y - v))%Q
           ∧ ((Qabs (x - v) == Qabs (y - v))%Q → (i <= j)%nat).

(** The array of a gridded variable has one cell per triple of positions. *)
Definition grid_shape (taxis : list Z) (lat lon : list Q)
    (arr : list (list (list float64))) : Prop :=
  length arr = length taxis
  ∧ Forall (λ slab, length slab = length lat
                    ∧ Forall (λ row, length row = length lon) slab) arr.

(** A gridded dataset with strictly monotonic axes that holds [variable]. *)
Definition gridded_source (taxis : list Z) (lat lon : list Q)
    (vars : list (string * list (list (list float64)))) (variable : string)
    (arr : list (list (list float64))) : Prop :=
  strictly_monotonic (map inject_Z taxis)
  ∧ strictly_monotonic lat
  ∧ strictly_monotonic lon
  ∧ Xr.lookup_var vars variable = Ok arr
  ∧ grid_shape taxis lat lon arr.

(** A field with one time, one latitude and the longitudes 0 and 2, and a
    point at longitude 1, halfway between them. *)
Definition tie_time : list Z := [Calendar.to_datetime 2021 1 1].
Definition tie_lat : list Q := [0%Q].
Definition tie_lon : list Q := [0; 2]%Q.
Definition tie_arr : list (list (list float64)) := [[[Fin 10; Fin 20]]].
Definition tie_grid : Dataset :=
  Gridded (Some tie_time) tie_lat tie_lon [("sst", tie_arr)].
Definition tie_point : Frame :=
  mkFrame ["time"; "lat"; "lon"]
    [[Datetime (Calendar.to_datetime 2021 1 1); Float (Fin 0); Float (Fin 1)]].

(** The bounding box of a grid meets the bounding box of the points: on
    each of lat and lon, some label is at most the upper bound and some
    label is at least the lower bound. *)
Definition ranges_meet (axis : list Q) (bounds : Q * Q) : Prop :=
  (∃ x, x ∈ axis ∧ (x <= max2 bounds)%Q) ∧ (∃ y, y ∈ axis ∧ (min2 bounds <= y)%Q).
Definition boxes_overlap (lat lon : list Q) (lat_bounds lon_bounds : Q * Q) : Prop :=
  ranges_meet lat lat_bounds ∧ ranges_meet lon lon_bounds.

(** Every label of the axis lies on one side of both bounds. *)
Definition range_apart (axis : list Q) (bounds : Q * Q) : Prop :=
  (∀ x, x ∈ axis → (max2 bounds < x)%Q) ∨ (∀ x, x ∈ axis → (x < min2 bounds)%Q).

(** A 3 x 3 grid over latitudes and longitudes 0, 1, 2, with the latitude
    axis ascending or descending; the points span 0.5 to 1.5 on both. *)
Definition nine : list (list (list float64)) :=
  [[[Fin 1; Fin 2; Fin 3]; [Fin 4; Fin 5; Fin 6]; [Fin 7; Fin 8; Fin 9]]].
Definition grid_lat_ascending : Dataset :=
  Gridded (Some [Calendar.to_datetime 2021 1 1]) [0; 1; 2]%Q [0; 1; 2]%Q [("sss_smap", nine)].
Definition grid_lat_descending : Dataset :=
  Gridded (Some [Calendar.to_datetime 2021 1 1]) [2; 1; 0]%Q [0; 1; 2]%Q [("sss_smap", nine)].
Definition mid_bounds : Q * Q := (1 # 2, 3 # 2)%Q.
Definition narrow_bounds : Q * Q := (6 # 5, 7 # 5)%Q.

(** * Further specification-side definitions *)

(** [os.path.join(DATA_DIR, fname)] for the composite starting on [d]. *)
Definition save_path_of (d : Z) : string :=
  SstDownloader.DATA_DIR +:+ "/" +:+ SstDownloader.file_name_of d.

(** A server that delivers a full data file, and one whose first two
    answers fail before it delivers. *)
Definition good_server : SstDownloader.Server :=
  λ _ _, Ok (mkResponse 200 "application/x-netcdf" 50000 true).
Definition flaky_server : SstDownloader.Server :=
  λ n _, if (n <? 2)%nat then Raise RequestException
         else Ok (mkResponse 200 "application/x-netcdf" 50000 true).

(** An occurrence record the cleaning keeps: its date parses and lies in
    the configured range, and both coordinates are present. *)
Definition usable (r : OccRecord) : bool :=
  match eventDate r, decimalLatitude r, decimalLongitude r with
  | Some t, Fin _, Fin _ =>
      (Calendar.to_datetime 2020 1 1 <=? t)%Z && (t <=? Calendar.to_datetime 2025 6 10)%Z
  | _, _, _ => false
  end.

Definition time_of (r : OccRecord) : Z := default 0%Z (eventDate r).
Definition float_value (v : float64) : Q := match v with Fin q => q | NaN => 0%Q end.
Definition lat_of (r : OccRecord) : Q := float_value (decimalLatitude r).
Definition lon_of (r : OccRecord) : Q := float_value (decimalLongitude r).

(** The columns [read_csv] keeps, under their names in the file. *)
Definition file_columns (f : OccurrenceFile) : list string :=
  filter (λ c, c ∈ required_columns) (header f).

(** The presence table of the demonstration run. *)
Definition demo_presence : Frame :=
  Eval vm_compute in
    match load_presence (demo_env gbif_header demo_records (Fin 3)) with
    | Ok p => p
    | Raise _ => mkFrame [] []
    end.

(** The two cyclical features of a time cell: [sin] and [cos] of
    [2 * pi * dayofyear / 365]; a missing time gives a missing feature. *)
Definition day_sin_of (c : cell) : cell :=
  match c with
  | Datetime t => Sin2Pi (inject_Z (Calendar.dayofyear t) / 365)
  | _ => Float NaN
  end.
Definition day_cos_of (c : cell) : cell :=
  match c with
  | Datetime t => Cos2Pi (inject_Z (Calendar.dayofyear t) / 365)
  | _ => Float NaN
  end.

(** A world in which every folder holds one gridded file without a time
    coordinate, under a name that carries no date. *)
Definition undated_env : Env :=
  mkEnv (Ok (mkOccurrenceFile gbif_header demo_records))
    (λ _, [mkNcFile "composite.nc" (Some (demo_grid "chlor_a" (Fin 3))) None])
    demo_rng (λ _, 0%Z).

(** A label lies within the bounds of the presence points (inclusive). *)
Definition inside (bounds : Q * Q) (x : Q) : Prop :=
  (min2 bounds <= x)%Q ∧ (x <= max2 bounds)%Q.

(** The part of a variable that the position ranges [ilat] and [ilon]
    select. *)
Definition sliced (ilat ilon : nat * nat)
    (vars : list (string * list (list (list float64))))
    : list (string * list (list (list float64))) :=
  map (λ na, (na.1, map (λ slab, map (Index.islice ilon) (Index.islice ilat slab)) na.2)) vars.

(** * Properties *)

(** ** Comparisons and the result monad *)

Lemma Qltb_lt (x y : Q) : Qltb x y = true ↔ (x < y)%Q.
Proof. unfold Qltb. rewrite Qlt_alt. destruct (x ?= y)%Q; split; congruence. Qed.

Lemma Qltb_ge (x y : Q) : Qltb x y = false ↔ (y <= x)%Q.
Proof.
  rewrite <- not_true_iff_false, Qltb_lt. split; [apply Qnot_lt_le | apply Qle_not_lt].
Qed.

Lemma Qleb_le (x y : Q) : Qleb x y = true ↔ (x <= y)%Q.
Proof. unfold Qleb. rewrite Qle_alt. destruct (x ?= y)%Q; split; congruence. Qed.

Lemma Qleb_gt (x y : Q) : Qleb x y = false ↔ (y < x)%Q.
Proof.
  rewrite <- not_true_iff_false, Qleb_le. split; [apply Qnot_le_lt | apply Qlt_not_le].
Qed.

Lemma Qeqb_eq (x y : Q) : Qeqb x y = true ↔ (x == y)%Q.
Proof. unfold Qeqb. rewrite Qeq_alt. destruct (x ?= y)%Q; split; congruence. Qed.

Lemma Qeqb_neq (x y : Q) : Qeqb x y = false ↔ ¬ (x == y)%Q.
Proof. rewrite <- not_true_iff_false, Qeqb_eq. tauto. Qed.

Lemma mapR_length {A B : Type} (f : A → result B) (xs : list A) (ys : list B) :
  mapR f xs = Ok ys → length ys = length xs.
Proof.
  revert ys. induction xs as [|x r IH]; intros ys H; simpl in H.
  - by inversion H.
  - destruct (f x) as [y|e]; simpl in H; [|discriminate].
    destruct (mapR f r) as [ys'|e]; simpl in H; [|discriminate].
    inversion H; subst. simpl. f_equal. by apply IH.
Qed.

Lemma mapR_lookup {A B : Type} (f : A → result B) (xs : list A) (ys : list B) (i : nat) (x : A) :
  mapR f xs = Ok ys → xs !! i = Some x → ∃ y, ys !! i = Some y ∧ f x = Ok y.
Proof.
  revert ys i. induction xs as [|x0 r IH]; intros ys i H Hx; simpl in H.
  - by rewrite lookup_nil in Hx.
  - destruct (f x0) as [y0|e] eqn:E0; simpl in H; [|discriminate].
    destruct (mapR f r) as [ys'|e]; simpl in H; [|discriminate].
    inversion H; subst. destruct i as [|i]; simpl in *.
    + inversion Hx; subst. eauto.
    + by apply IH.
Qed.

Lemma mapR_total {A B : Type} (f : A → result B) (xs : list A) :
  (∀ x, x ∈ xs → ∃ y, f x = Ok y) → ∃ ys, mapR f xs = Ok ys.
Proof.
  induction xs as [|x r IH]; intros H; simpl.
  - eauto.
  - destruct (H x) as [y Hy]; [left|]. rewrite Hy. simpl.
    destruct IH as [ys Hys]; [intros; apply H; by right|]. rewrite Hys. simpl. eauto.
Qed.

Lemma mapR_ok_map {A B : Type} (f : A → result B) (g : A → B) (xs : list A) :
  (∀ x, x ∈ xs → f x = Ok (g x)) → mapR f xs = Ok (map g xs).
Proof.
  induction xs as [|x r IH]; intros H; simpl; [done|].
  rewrite H by left. simpl. rewrite IH; [done|]. intros; apply H; by right.
Qed.

(** ** The k-d tree query *)

Lemma scan_spec (data : list KDTree.point) (x : KDTree.point) (i : nat) (best : nat * Q) :
  let r := KDTree.scan data x i best in
  (r.2 <= best.2)%Q
  ∧ (∀ p, p ∈ data → (r.2 <= KDTree.dist2 p x)%Q)
  ∧ (r = best ∨ ∃ j q, data !! j = Some q ∧ r = ((i + j)%nat, KDTree.dist2 q x)).
Proof.
  revert i best. induction data as [|p rest IH]; intros i best; simpl.
  - split; [apply Qle_refl|]. split; [|by left]. intros p Hp. by apply elem_of_nil in Hp.
  - set (best' := if Qltb (KDTree.dist2 p x) best.2 then (i, KDTree.dist2 p x) else best).
    destruct (IH (S i) best') as (Hle & Hall & Hwho).
    assert (Hb : (best'.2 <= best.2)%Q ∧ (best'.2 <= KDTree.dist2 p x)%Q).
    { unfold best'. destruct (Qltb (KDTree.dist2 p x) best.2) eqn:E; simpl.
      - apply Qltb_lt in E. split; [by apply Qlt_le_weak | apply Qle_refl].
      - apply Qltb_ge in E. split; [apply Qle_refl | done]. }
    destruct Hb as [Hb1 Hb2].
    split; [by eapply Qle_trans|]. split.
    + intros q Hq. apply elem_of_cons in Hq as [->|Hq]; [by eapply Qle_trans | by apply Hall].
    + destruct Hwho as [Heq | (j & q & Hj & Heq)].
      * rewrite Heq. unfold best'. destruct (Qltb (KDTree.dist2 p x) best.2); [|by left].
        right. exists O, p. split; [done|]. by rewrite Nat.add_0_r.
      * right. exists (S j), q. split; [done|]. rewrite Heq. f_equal. lia.
Qed.

(** [query] on a non-empty tree returns the position of a data point that
    no other data point beats. *)
Lemma query_nearest (data : list KDTree.point) (x : KDTree.point) :
  data ≠ [] →
  ∃ q, data !! KDTree.query data x = Some q
       ∧ ∀ p, p ∈ data → (KDTree.dist2 q x <= KDTree.dist2 p x)%Q.
Proof.
  destruct data as [|p0 rest]; [done|]. intros _. unfold KDTree.query.
  destruct (scan_spec rest x 1 (O, KDTree.dist2 p0 x)) as (Hle & Hall & Hwho).
  simpl in Hle. destruct Hwho as [Heq | (j & q & Hj & Heq)].
  - rewrite Heq in *. simpl in *. exists p0. split; [done|].
    intros p Hp. apply elem_of_cons in Hp as [->|Hp]; [apply Qle_refl | by apply Hall].
  - rewrite Heq in *. simpl in *. exists q. split; [done|].
    intros p Hp. apply elem_of_cons in Hp as [->|Hp]; [done | by apply Hall].
Qed.

Lemma zip3_length {A B C : Type} (a : list A) (b : list B) (c : list C) :
  length b = length a → length c = length a → length (Xr.zip3 a b c) = length a.
Proof.
  revert b c. induction a as [|x a IH]; intros [|y b] [|z c]; simpl; try done.
  intros Hb Hc. f_equal. apply IH; lia.
Qed.

Lemma zip3_length_min {A B C : Type} (a : list A) (b : list B) (c : list C) n :
  length a = n → length b = n → length c = n → length (Xr.zip3 a b c) = n.
Proof. intros <- Hb Hc. by apply zip3_length. Qed.

Lemma zip3_lookup {A B C : Type} (a : list A) (b : list B) (c : list C) (i : nat) (p : A * B * C) :
  Xr.zip3 a b c !! i = Some p ↔
  a !! i = Some p.1.1 ∧ b !! i = Some p.1.2 ∧ c !! i = Some p.2.
Proof.
  revert b c i. induction a as [|x a IH]; intros [|y b] [|z c] i; simpl;
    try (split; [intros H; by rewrite lookup_nil in H | intros (H1 & H2 & H3);
         rewrite ?lookup_nil in *; done]).
  destruct i as [|i]; simpl.
  - destruct p as [[p1 p2] p3]. simpl. split.
    + intros H. by inversion H.
    + intros (H1 & H2 & H3). by inversion H1; inversion H2; inversion H3.
  - apply IH.
Qed.

Lemma get_column_length (df : Frame) (name : string) (cs : list cell) :
  DataFrame.get_column df name = Ok cs → length cs = DataFrame.len df.
Proof.
  unfold DataFrame.get_column, DataFrame.len.
  destruct (DataFrame.index_of name (columns df)); [|discriminate].
  intros H. inversion H. by rewrite length_map.
Qed.

Lemma floats_length (df : Frame) (name : string) (xs : list Q) :
  DataFrame.floats df name = Ok xs → length xs = DataFrame.len df.
Proof.
  unfold DataFrame.floats. destruct (DataFrame.get_column df name) as [cs|] eqn:E; [|discriminate].
  simpl. intros H. apply mapR_length in H. rewrite H. by eapply get_column_length.
Qed.

Lemma datetimes_length (df : Frame) (name : string) (xs : list Z) :
  DataFrame.datetimes df name = Ok xs → length xs = DataFrame.len df.
Proof.
  unfold DataFrame.datetimes. destruct (DataFrame.get_column df name) as [cs|] eqn:E; [|discriminate].
  simpl. intros H. apply mapR_length in H. rewrite H. by eapply get_column_length.
Qed.

Lemma vstack3T_ok (a b c : list Q) :
  length b = length a → length c = length a →
  Np.vstack3T a b c = Ok (Xr.zip3 a b c).
Proof.
  intros Hb Hc. unfold Np.vstack3T.
  rewrite (proj2 (Nat.eqb_eq _ _)) by lia. rewrite (proj2 (Nat.eqb_eq _ _)) by lia. done.
Qed.

(** The track path, step by step: under the two well-formedness conditions
    it returns, for each point, the stored value at the position the tree
    reports. *)
Lemma extract_track_eq time lat lon vars variable values df lt la lo :
  track_samples time lat lon vars variable values →
  point_columns df lt la lo →
  let sat_points := Xr.zip3 (map seconds time) lat lon in
  let lookup_points := Xr.zip3 (map seconds lt) la lo in
  ∃ vals,
    _extract_track_data_with_kdtree (Track time lat lon vars) variable df = Ok vals
    ∧ length vals = DataFrame.len df
    ∧ ∀ p x, lookup_points !! p = Some x →
        ∃ v, vals !! p = Some v ∧ values !! KDTree.query sat_points x = Some v.
Proof.
  intros (Hne & Hlat & Hlon & Hvar & Hval) (Ht & Ha & Ho) sat_points lookup_points.
  pose proof (datetimes_length _ _ _ Ht) as Lt.
  pose proof (floats_length _ _ _ Ha) as La.
  pose proof (floats_length _ _ _ Ho) as Lo.
  assert (Lsat : length sat_points = length time).
  { unfold sat_points. rewrite zip3_length; rewrite ?length_map; done. }
  assert (Hq : ∀ x, ∃ v, values !! KDTree.query sat_points x = Some v).
  { intros x. destruct (query_nearest sat_points x) as (q & Hq & _).
    - intros E. rewrite E in Lsat. destruct time; [done | discriminate].
    - apply lookup_lt_Some in Hq. apply lookup_lt_is_Some_2. rewrite Hval, <- Lsat. exact Hq. }
  unfold _extract_track_data_with_kdtree.
  rewrite vstack3T_ok by (rewrite ?length_map; done). simpl.
  rewrite Ht, Ha, Ho. simpl.
  rewrite vstack3T_ok by (rewrite ?length_map; lia). simpl.
  rewrite Hvar. simpl. fold sat_points lookup_points.
  destruct (mapR_total (λ i, match values !! i with Some v => Ok v | None => Raise IndexError end)
              (map (KDTree.query sat_points) lookup_points)) as [vals Hvals].
  { intros i Hi. apply list_elem_of_fmap in Hi as (x & -> & _).
    destruct (Hq x) as [v Hv]. rewrite Hv. eauto. }
  exists vals. split; [done|]. split.
  - apply mapR_length in Hvals. rewrite Hvals, length_map.
    etrans; [apply zip3_length|]; rewrite ?length_map; lia.
  - intros p x Hp.
    destruct (mapR_lookup _ _ _ p (KDTree.query sat_points x) Hvals) as (v & Hv & Hr).
    { by rewrite list_lookup_fmap, Hp. }
    exists v. split; [done|]. destruct (values !! _); by inversion Hr.
Qed.

(** ** Track sources (C2, C10) *)





(** The time axis counts whole seconds: from the point at 100 s the sample
    at 100.9 s is at distance 0 and wins over the sample half a degree
    away.  Counted in nanoseconds, or in fractions of a second, it would
    lose. *)
Example track_time_in_whole_seconds :
  _extract_track_data_with_kdtree fine_track "ssha" fine_point = Ok [Fin 1]
  ∧ nearest_sample fine_track_time fine_track_lat fine_track_lon 100000000000 0 0 0
  ∧ ¬ nearest_sample fine_track_time fine_track_lat fine_track_lon 100000000000 0 0 1.
Proof.
  split; [reflexivity|]. split.
  - exists 100900000000%Z, 0%Q, 0%Q. repeat (split; [reflexivity|]).
    intros j tj aj oj Htj Haj Hoj.
    destruct j as [|[|[|j]]]; cbn in Htj, Haj, Hoj; try discriminate;
      inversion Htj; inversion Haj; inversion Hoj; subst; by vm_compute.
  - intros (ti & ai & oi & Hti & Hai & Hoi & Hmin).
    cbn in Hti, Hai, Hoi. inversion Hti; inversion Hai; inversion Hoi; subst.
    specialize (Hmin 0%nat 100900000000%Z 0%Q 0%Q eq_refl eq_refl eq_refl).
    vm_compute in Hmin. by apply Hmin.
Qed.

(** No unit scaling: the sample 5 degrees away wins over the sample 10
    seconds away. *)
Example track_seconds_and_degrees_unscaled :
  _extract_track_data_with_kdtree demo_track "ssha" demo_point = Ok [Fin 2].
Proof. reflexivity. Qed.

(** C10: for a non-empty track source the lookup returns a value for every
    point, whatever its distance to the track, and every returned value is
    the stored value of some track sample; a returned NaN is a stored NaN,
    and a track without NaN yields no NaN. *)
Theorem track_lookup_attaches_stored_value time lat lon vars variable values df lt la lo :
  track_samples time lat lon vars variable values →
  point_columns df lt la lo →
  ∃ vals,
    _extract_track_data_with_kdtree (Track time lat lon vars) variable df = Ok vals
    ∧ length vals = DataFrame.len df
    ∧ (∀ p v, vals !! p = Some v → ∃ i, values !! i = Some v)
    ∧ (∀ p, vals !! p = Some NaN → NaN ∈ values)
    ∧ (Forall (λ v, isna v = false) values → Forall (λ v, isna v = false) vals).
Proof.
  intros Hs Hp.
  destruct (extract_track_eq _ _ _ _ _ _ _ _ _ _ Hs Hp) as (vals & Hok & Hlen & Hpt).
  destruct Hp as (Ht & Ha & Ho).
  pose proof (datetimes_length _ _ _ Ht) as Lt.
  pose proof (floats_length _ _ _ Ha) as La.
  pose proof (floats_length _ _ _ Ho) as Lo.
  assert (Hsrc : ∀ p v, vals !! p = Some v → ∃ i, values !! i = Some v).
  { intros p v Hv.
    assert (Hlt : p < length (Xr.zip3 (map seconds lt) la lo)).
    { rewrite zip3_length; rewrite ?length_map; try lia.
      apply lookup_lt_Some in Hv. lia. }
    apply lookup_lt_is_Some_2 in Hlt as [x Hx].
    destruct (Hpt p x Hx) as (v' & Hv' & Hq).
    rewrite Hv in Hv'. inversion Hv'; subst. eauto. }
  exists vals. repeat (split; [done|]). split.
  - intros p Hnan. destruct (Hsrc p NaN Hnan) as [i Hi].
    apply list_elem_of_lookup. eauto.
  - intros Hall. apply Forall_lookup. intros p v Hv.
    destruct (Hsrc p v Hv) as [i Hi].
    by eapply (proj1 (Forall_lookup _ _) Hall).
Qed.

Lemma track_lookup_attaches_stored_value_witness :
  ∃ vals,
    _extract_track_data_with_kdtree demo_track "ssha" demo_point = Ok vals
    ∧ length vals = DataFrame.len demo_point
    ∧ (∀ p v, vals !! p = Some v → ∃ i, demo_track_values !! i = Some v)
    ∧ (∀ p, vals !! p = Some NaN → NaN ∈ demo_track_values)
    ∧ (Forall (λ v, isna v = false) demo_track_values → Forall (λ v, isna v = false) vals).
Proof.
  apply (track_lookup_attaches_stored_value demo_track_time demo_track_lat demo_track_lon
           [("ssha", demo_track_values)] "ssha" demo_track_values demo_point
           [110 * 10 ^ 9]%Z [0%Q] [0%Q]).
  - repeat split; [discriminate | reflexivity ..].
  - repeat split; reflexivity.
Defined.

(** ** The pseudo-absence sampler (C4) *)

Lemma frac_range (q : Q) : (0 <= Np.frac q)%Q ∧ (Np.frac q < 1)%Q.
Proof.
  unfold Np.frac. pose proof (Qfloor_le q) as H1. pose proof (Qlt_floor q) as H2.
  rewrite inject_Z_plus in H2. change (inject_Z 1) with 1%Q in H2. split; lra.
Qed.

Lemma uniform_length rs offset low high size :
  length (Np.uniform rs offset low high size) = size.
Proof. unfold Np.uniform. by rewrite length_map, length_seq. Qed.

Lemma uniform_range rs offset low high size v :
  (low <= high)%Q → v ∈ Np.uniform rs offset low high size →
  (low <= v)%Q ∧ (v <= high)%Q.
Proof.
  intros Hle Hv. unfold Np.uniform in Hv.
  apply list_elem_of_fmap in Hv as (i & -> & _).
  destruct (frac_range (random_sample rs i)) as [H0 H1].
  split; nra.
Qed.

Lemma min_spec (x : Q) (r : list Q) :
  Np.min_ x r ∈ x :: r ∧ ∀ y, y ∈ x :: r → (Np.min_ x r <= y)%Q.
Proof.
  unfold Np.min_. revert x. induction r as [|z r IH]; intros x; simpl.
  - split; [left|]. intros y Hy. apply list_elem_of_singleton in Hy as ->. apply Qle_refl.
  - destruct (Qltb z x) eqn:E.
    + apply Qltb_lt in E. destruct (IH z) as [Hin Hmin]. split.
      * right. exact Hin.
      * intros y Hy. apply elem_of_cons in Hy as [->|Hy]; [|by apply Hmin].
        eapply Qle_trans; [apply Hmin; left | by apply Qlt_le_weak].
    + apply Qltb_ge in E. destruct (IH x) as [Hin Hmin]. split.
      * apply elem_of_cons in Hin as [->|Hin]; [left | right; by right].
      * intros y Hy. apply elem_of_cons in Hy as [->|Hy]; [apply Hmin; left|].
        apply elem_of_cons in Hy as [->|Hy]; [|apply Hmin; by right].
        eapply Qle_trans; [apply Hmin; left | done].
Qed.

Lemma max_spec (x : Q) (r : list Q) :
  Np.max_ x r ∈ x :: r ∧ ∀ y, y ∈ x :: r → (y <= Np.max_ x r)%Q.
Proof.
  unfold Np.max_. revert x. induction r as [|z r IH]; intros x; simpl.
  - split; [left|]. intros y Hy. apply list_elem_of_singleton in Hy as ->. apply Qle_refl.
  - destruct (Qltb x z) eqn:E.
    + apply Qltb_lt in E. destruct (IH z) as [Hin Hmax]. split.
      * right. exact Hin.
      * intros y Hy. apply elem_of_cons in Hy as [->|Hy]; [|by apply Hmax].
        eapply Qle_trans; [by apply Qlt_le_weak | apply Hmax; left].
    + apply Qltb_ge in E. destruct (IH x) as [Hin Hmax]. split.
      * apply elem_of_cons in Hin as [->|Hin]; [left | right; by right].
      * intros y Hy. apply elem_of_cons in Hy as [->|Hy]; [apply Hmax; left|].
        apply elem_of_cons in Hy as [->|Hy]; [|apply Hmax; by right].
        eapply Qle_trans; [done | apply Hmax; left].
Qed.

Lemma uniform_within rs offset (x : Q) (r : list Q) size v :
  v ∈ Np.uniform rs offset (Np.min_ x r) (Np.max_ x r) size → within (x :: r) v.
Proof.
  intros Hv. destruct (min_spec x r) as [Hmin1 Hmin2]. destruct (max_spec x r) as [Hmax1 Hmax2].
  apply uniform_range in Hv as [H1 H2]; [|by apply Hmin2].
  split; eauto.
Qed.

Lemma randint_range rs low high size :
  (low < high)%Z →
  ∃ ts, Np.randint rs low high size = Ok ts ∧ length ts = size
        ∧ ∀ t, t ∈ ts → (low <= t < high)%Z.
Proof.
  intros Hlt. unfold Np.randint. rewrite (proj2 (Z.ltb_lt _ _) Hlt).
  eexists. split; [done|]. split; [by rewrite length_map, length_seq|].
  intros t Ht. apply list_elem_of_fmap in Ht as (i & -> & _).
  pose proof (Z.mod_pos_bound (random_integer rs i) (high - low)). lia.
Qed.

Lemma randint_constant (u : nat → Q) low high size s :
  (low <= s < high)%Z →
  Np.randint (mkRandomState u (λ _, (s - low)%Z)) low high size = Ok (replicate size s).
Proof.
  intros Hs. unfold Np.randint. rewrite (proj2 (Z.ltb_lt _ _)) by lia. f_equal. simpl.
  rewrite Z.mod_small by lia. replace (low + (s - low))%Z with s by lia.
  generalize 0%nat. induction size as [|n IH]; intros k; simpl; [done|]. by rewrite IH.
Qed.

(** The sampler on a non-empty presence table, spelled out. *)
Lemma generate_pseudo_absence_eq env presence lat0 lats lon0 lons :
  DataFrame.floats presence "lat" = Ok (lat0 :: lats) →
  DataFrame.floats presence "lon" = Ok (lon0 :: lons) →
  generate_pseudo_absence env presence =
    (p ← draw_pseudo_points (rng env) (timestamp env start_date_str)
           (timestamp env end_date_str) lat0 lats lon0 lons (DataFrame.len presence);
     Ok (pseudo_frame p)).
Proof.
  intros Hlat Hlon. unfold generate_pseudo_absence.
  pose proof (floats_length _ _ _ Hlat) as L. simpl in L.
  rewrite (proj2 (Nat.ltb_lt _ _)) by lia. rewrite Hlat, Hlon. done.
Qed.

Lemma pseudo_frame_rows ts las los n row :
  length ts = n → length las = n → length los = n →
  row ∈ rows (pseudo_frame (ts, las, los)) →
  ∃ t a o, t ∈ ts ∧ a ∈ las ∧ o ∈ los ∧ row = [Datetime t; Float (Fin a); Float (Fin o)].
Proof.
  intros Lt La Lo Hrow. unfold pseudo_frame in Hrow. simpl in Hrow.
  apply list_elem_of_fmap in Hrow as ([[t a] o] & -> & Hin).
  apply list_elem_of_lookup in Hin as [i Hi]. apply zip3_lookup in Hi as (H1 & H2 & H3).
  simpl in *. exists t, a, o. repeat split; try done; apply list_elem_of_lookup; eauto.
Qed.

(** What the sampler returns on a non-empty presence table. *)
Lemma generate_pseudo_absence_spec env presence lats lons :
  DataFrame.floats presence "lat" = Ok lats →
  DataFrame.floats presence "lon" = Ok lons →
  (0 < DataFrame.len presence)%nat →
  (timestamp env start_date_str < timestamp env end_date_str)%Z →
  ∃ pseudo,
    generate_pseudo_absence env presence = Ok pseudo
    ∧ columns pseudo = ["time"; "lat"; "lon"]
    ∧ DataFrame.len pseudo = (2 * DataFrame.len presence)%nat
    ∧ ∀ row, row ∈ rows pseudo →
        ∃ s, (timestamp env start_date_str <= s < timestamp env end_date_str)%Z
             ∧ pseudo_row lats lons s row.
Proof.
  intros Hlat Hlon Hpos Hts.
  pose proof (floats_length _ _ _ Hlat) as Llat.
  pose proof (floats_length _ _ _ Hlon) as Llon.
  destruct lats as [|lat0 lats]; [simpl in Llat; lia|].
  destruct lons as [|lon0 lons]; [simpl in Llon; lia|].
  rewrite (generate_pseudo_absence_eq _ _ _ _ _ _ Hlat Hlon).
  unfold draw_pseudo_points.
  destruct (randint_range (rng env) _ _ (DataFrame.len presence * 2) Hts) as (ts & -> & Lts & Hrange).
  simpl. eexists. split; [reflexivity|]. split; [reflexivity|].
  set (n := (DataFrame.len presence * 2)%nat) in *.
  split.
  - unfold DataFrame.len, pseudo_frame. simpl. rewrite length_map.
    rewrite zip3_length; rewrite ?length_map, ?uniform_length;
      unfold n, DataFrame.len in *; lia.
  - intros row Hrow.
    apply (pseudo_frame_rows _ _ _ n) in Hrow
      as (t & a & o & Ht & Ha & Ho & ->); rewrite ?length_map, ?uniform_length; try done.
    apply list_elem_of_fmap in Ht as (s & -> & Hs).
    exists s. split; [by apply Hrange|].
    exists a, o. split; [done|]. split; by eapply uniform_within.
Qed.

(** The sampler on a non-empty presence table, point by point. *)
Lemma generate_pseudo_absence_rows env presence lat0 lats lon0 lons pseudo k :
  DataFrame.floats presence "lat" = Ok (lat0 :: lats) →
  DataFrame.floats presence "lon" = Ok (lon0 :: lons) →
  generate_pseudo_absence env presence = Ok pseudo →
  (k < 2 * DataFrame.len presence)%nat →
  rows pseudo !! k =
    Some (sampled_row (rng env) (timestamp env start_date_str) (timestamp env end_date_str)
            (Np.min_ lat0 lats) (Np.max_ lat0 lats) (Np.min_ lon0 lons) (Np.max_ lon0 lons)
            (2 * DataFrame.len presence) k).
Proof.
  intros Hlat Hlon Hgen Hk.
  rewrite (generate_pseudo_absence_eq _ _ _ _ _ _ Hlat Hlon) in Hgen.
  unfold draw_pseudo_points, Np.randint in Hgen.
  destruct (timestamp env start_date_str <? timestamp env end_date_str)%Z;
    cbn [mbind result_bind] in Hgen; [|discriminate].
  inversion Hgen; subst pseudo. clear Hgen.
  unfold pseudo_frame. cbn [rows fst snd].
  replace (DataFrame.len presence * 2)%nat with (2 * DataFrame.len presence)%nat by lia.
  set (n := (2 * DataFrame.len presence)%nat) in *.
  rewrite list_lookup_fmap.
  assert (Hz : Xr.zip3
                 (map (λ s, (s * Calendar.ns_per_second)%Z)
                    (map (λ i, (timestamp env start_date_str
                                + random_integer (rng env) i
                                  mod (timestamp env end_date_str
                                       - timestamp env start_date_str))%Z) (seq 0 n)))
                 (Np.uniform (rng env) 0 (Np.min_ lat0 lats) (Np.max_ lat0 lats) n)
                 (Np.uniform (rng env) n (Np.min_ lon0 lons) (Np.max_ lon0 lons) n) !! k
               = Some (((timestamp env start_date_str
                         + integer_draw (rng env)
                             (timestamp env end_date_str - timestamp env start_date_str) k)
                        * 10 ^ 9)%Z,
                       (Np.min_ lat0 lats
                        + (Np.max_ lat0 lats - Np.min_ lat0 lats) * uniform_draw (rng env) k)%Q,
                       (Np.min_ lon0 lons
                        + (Np.max_ lon0 lons - Np.min_ lon0 lons)
                          * uniform_draw (rng env) (n + k))%Q)).
  { apply zip3_lookup. cbn [fst snd]. unfold Np.uniform.
    rewrite !list_lookup_fmap, !lookup_seq_lt by done. done. }
  rewrite Hz. done.
Qed.

Lemma bounding_min_max (x : Q) (r : list Q) : bounding (x :: r) (Np.min_ x r) (Np.max_ x r).
Proof.
  destruct (min_spec x r) as [Hmin1 Hmin2]. destruct (max_spec x r) as [Hmax1 Hmax2].
  split; [done|]. split; [done|]. intros y Hy. split; [by apply Hmin2 | by apply Hmax2].
Qed.

Lemma uniform_draw_range rs i : (0 <= uniform_draw rs i)%Q ∧ (uniform_draw rs i < 1)%Q.
Proof. apply frac_range. Qed.

(** C4, amended: from N > 0 observed points the sampler makes exactly 2N
    points.  Latitudes and longitudes are drawn uniformly and independently
    in the bounding box of the observed points: the latitude of the point
    [k] is the affine image [lo + (hi - lo) * u] in the box of the uniform
    draw [k] of the generator, its longitude that of the draw [2N + k], each
    coordinate of each point having a draw of [[0, 1)] of its own; so every
    point lies in the box.  The timestamp of the point [k] is a whole number
    of seconds, [t0] plus the integer draw [k] read in the [t1 - t0] seconds
    of the range: a second [s] with [t0 <= s < t1].  Every such [s] is the
    timestamp of all points for some outcome of the generator, so [t0] and
    [t1 - 1] are attainable and [t1] is not. *)
Theorem pseudo_absence_points env presence lats lons :
  DataFrame.floats presence "lat" = Ok lats →
  DataFrame.floats presence "lon" = Ok lons →
  (0 < DataFrame.len presence)%nat →
  (timestamp env start_date_str < timestamp env end_date_str)%Z →
  (∃ pseudo lat_lo lat_hi lon_lo lon_hi,
     generate_pseudo_absence env presence = Ok pseudo
     ∧ DataFrame.len pseudo = (2 * DataFrame.len presence)%nat
     ∧ bounding lats lat_lo lat_hi
     ∧ bounding lons lon_lo lon_hi
     ∧ (∀ k, (k < 2 * DataFrame.len presence)%nat →
          rows pseudo !! k =
            Some (sampled_row (rng env)
                    (timestamp env start_date_str) (timestamp env end_date_str)
                    lat_lo lat_hi lon_lo lon_hi (2 * DataFrame.len presence) k))
     ∧ (∀ i, (0 <= uniform_draw (rng env) i)%Q ∧ (uniform_draw (rng env) i < 1)%Q)
     ∧ ∀ row, row ∈ rows pseudo →
         ∃ s, (timestamp env start_date_str <= s < timestamp env end_date_str)%Z
              ∧ pseudo_row lats lons s row)
  ∧ (∀ s, (timestamp env start_date_str <= s < timestamp env end_date_str)%Z →
       ∃ rs pseudo,
         generate_pseudo_absence (with_rng env rs) presence = Ok pseudo
         ∧ DataFrame.len pseudo = (2 * DataFrame.len presence)%nat
         ∧ ∀ row, row ∈ rows pseudo → pseudo_row lats lons s row).
Proof.
  intros Hlat Hlon Hpos Hts. split.
  - destruct (generate_pseudo_absence_spec env presence lats lons) as (pseudo & H1 & _ & H2 & H3);
      eauto.
    pose proof (floats_length _ _ _ Hlat) as Llat.
    pose proof (floats_length _ _ _ Hlon) as Llon.
    destruct lats as [|lat0 lats]; [simpl in Llat; lia|].
    destruct lons as [|lon0 lons]; [simpl in Llon; lia|].
    exists pseudo, (Np.min_ lat0 lats), (Np.max_ lat0 lats),
      (Np.min_ lon0 lons), (Np.max_ lon0 lons).
    split; [done|]. split; [done|].
    split; [apply bounding_min_max|]. split; [apply bounding_min_max|].
    split; [|split; [apply uniform_draw_range | done]].
    intros k Hk. by apply generate_pseudo_absence_rows.
  - intros s Hs.
    set (rs := mkRandomState (random_sample (rng env))
                 (λ _, (s - timestamp env start_date_str)%Z)).
    exists rs.
    destruct (generate_pseudo_absence_spec (with_rng env rs) presence lats lons)
      as (pseudo & H1 & _ & H2 & H3); try done.
    exists pseudo. split; [done|]. split; [done|].
    intros row Hrow. destruct (H3 row Hrow) as (s' & _ & Hrow').
    (* the integer draws are constant: every timestamp is [s] *)
    pose proof (floats_length _ _ _ Hlat) as Llat.
    pose proof (floats_length _ _ _ Hlon) as Llon.
    destruct lats as [|lat0 lats]; [simpl in Llat; lia|].
    destruct lons as [|lon0 lons]; [simpl in Llon; lia|].
    rewrite (generate_pseudo_absence_eq _ _ _ _ _ _ Hlat Hlon) in H1.
    unfold draw_pseudo_points in H1. simpl in H1.
    change (timestamp (with_rng env rs) ?d) with (timestamp env d) in H1.
    unfold rs in H1 at 3. rewrite randint_constant in H1 by done.
    simpl in H1. inversion H1; subst pseudo. clear H1.
    apply (pseudo_frame_rows _ _ _ (DataFrame.len presence * 2)) in Hrow
      as (t & a & o & Ht & Ha & Ho & ->);
      rewrite ?length_map, ?uniform_length, ?length_replicate; try done.
    apply list_elem_of_fmap in Ht as (s0 & -> & Hs0).
    apply elem_of_replicate in Hs0 as [-> _].
    destruct Hrow' as (a' & o' & Heq & Ha' & Ho'). inversion Heq; subst.
    exists a', o'. split; [|done]. do 2 f_equal.
Qed.

Lemma pseudo_absence_points_witness :
  (∃ pseudo lat_lo lat_hi lon_lo lon_hi,
     generate_pseudo_absence (utc_env demo_rng) two_presence = Ok pseudo
     ∧ DataFrame.len pseudo = (2 * DataFrame.len two_presence)%nat
     ∧ bounding [10; 12]%Q lat_lo lat_hi
     ∧ bounding [25; 20]%Q lon_lo lon_hi
     ∧ (∀ k, (k < 2 * DataFrame.len two_presence)%nat →
          rows pseudo !! k =
            Some (sampled_row (rng (utc_env demo_rng))
                    (timestamp (utc_env demo_rng) start_date_str)
                    (timestamp (utc_env demo_rng) end_date_str)
                    lat_lo lat_hi lon_lo lon_hi (2 * DataFrame.len two_presence) k))
     ∧ (∀ i, (0 <= uniform_draw (rng (utc_env demo_rng)) i)%Q
             ∧ (uniform_draw (rng (utc_env demo_rng)) i < 1)%Q)
     ∧ ∀ row, row ∈ rows pseudo →
         ∃ s, (timestamp (utc_env demo_rng) start_date_str <= s
               < timestamp (utc_env demo_rng) end_date_str)%Z
              ∧ pseudo_row [10; 12]%Q [25; 20]%Q s row)
  ∧ (∀ s, (timestamp (utc_env demo_rng) start_date_str <= s
           < timestamp (utc_env demo_rng) end_date_str)%Z →
       ∃ rs pseudo,
         generate_pseudo_absence (with_rng (utc_env demo_rng) rs) two_presence = Ok pseudo
         ∧ DataFrame.len pseudo = (2 * DataFrame.len two_presence)%nat
         ∧ ∀ row, row ∈ rows pseudo → pseudo_row [10; 12]%Q [25; 20]%Q s row).
Proof.
  apply (pseudo_absence_points (utc_env demo_rng) two_presence [10; 12]%Q [25; 20]%Q).
  - reflexivity.
  - reflexivity.
  - vm_compute. lia.
  - vm_compute. reflexivity.
Defined.

(** C4 as stated has the end of the time range attainable.  It is not: with
    one observed point and the UTC time zone, no outcome of the generator
    gives a pseudo-absence point the timestamp of [end_date_str]. *)
Lemma pseudo_absence_end_not_attainable :
  ¬ ∃ rs pseudo row,
      generate_pseudo_absence (utc_env rs) one_presence = Ok pseudo
      ∧ row ∈ rows pseudo
      ∧ DataFrame.at_ 0 row = Datetime (timestamp (utc_env rs) end_date_str * 10 ^ 9).
Proof.
  intros (rs & pseudo & row & Hgen & Hrow & Hat).
  destruct (generate_pseudo_absence_spec (utc_env rs) one_presence [10%Q] [20%Q])
    as (pseudo' & Hgen' & _ & _ & Hrows); try reflexivity.
  { vm_compute. lia. }
  rewrite Hgen in Hgen'. inversion Hgen'; subst pseudo'.
  destruct (Hrows row Hrow) as (s & Hs & a & o & -> & _).
  unfold DataFrame.at_ in Hat. simpl in Hat. inversion Hat. lia.
Qed.

(** ** The run as a whole *)

Lemma mapR_Forall2 {A B : Type} (f : A → result B) (xs : list A) (ys : list B) :
  mapR f xs = Ok ys → Forall2 (λ x y, f x = Ok y) xs ys.
Proof.
  revert ys. induction xs as [|x r IH]; intros ys H; simpl in H.
  - inversion H. constructor.
  - destruct (f x) as [y|e] eqn:E; simpl in H; [|discriminate].
    destruct (mapR f r) as [ys'|e]; simpl in H; [|discriminate].
    inversion H; subst. constructor; [done | by apply IH].
Qed.

(** A run that saves a file went through every step. *)
Lemma main_saved env out :
  main env = Ok (Some out) →
  ∃ presence pseudo final,
    load_presence env = Ok presence
    ∧ generate_pseudo_absence env presence = Ok pseudo
    ∧ joined env presence (combine presence pseudo) = Ok final
    ∧ save (DataFrame.dropna final) = Ok (Some out).
Proof.
  unfold main. intros H.
  destruct (load_presence env) as [presence|] eqn:E1; simpl in H; [|discriminate].
  destruct (generate_pseudo_absence env presence) as [pseudo|] eqn:E2; simpl in H; [|discriminate].
  destruct (0 <? DataFrame.len (combine presence pseudo))%nat; [|discriminate].
  destruct (joined env presence (combine presence pseudo)) as [final|] eqn:E3;
    simpl in H; [|discriminate].
  eauto 10.
Qed.

Lemma save_saved df out :
  save df = Ok (Some out) →
  ∃ cols idx,
    presence_last (columns df) = Ok cols
    ∧ Forall2 (λ c i, DataFrame.index_of c (columns df) = Some i) cols idx
    ∧ out = mkOutputFile out_dir "model_training_dataset.csv.gz" "gzip"
              (mkFrame cols (map (λ r, map (λ i, DataFrame.at_ i r) idx) (rows df)))
    ∧ rows df ≠ [].
Proof.
  unfold save. intros H.
  destruct (DataFrame.empty df) eqn:Ee; simpl in H; [discriminate|].
  destruct (presence_last (columns df)) as [cols|] eqn:Ec; simpl in H; [|discriminate].
  unfold DataFrame.select in H.
  destruct (mapR _ cols) as [idx|] eqn:Ei; simpl in H; [|discriminate].
  inversion H; subst out. exists cols, idx. split; [done|]. split.
  - apply mapR_Forall2 in Ei. eapply Forall2_impl; [exact Ei|].
    intros c i Hc. simpl in Hc. destruct (DataFrame.index_of c (columns df)); by inversion Hc.
  - split; [done|]. unfold DataFrame.empty in Ee.
    destruct (columns df), (rows df); done.
Qed.


(** ** Rows with a missing value (C5) *)



(** ** No usable occurrence (C7) *)

Lemma combine_len presence pseudo :
  DataFrame.len (combine presence pseudo) = (DataFrame.len presence + DataFrame.len pseudo)%nat.
Proof.
  unfold combine, DataFrame.concat, DataFrame.reindex, DataFrame.len. simpl.
  rewrite length_app, !length_map. unfold DataFrame.set_scalar.
  destruct (DataFrame.index_of "presence" (columns presence)),
           (DataFrame.index_of "presence" (columns pseudo)); simpl;
    by rewrite !length_map.
Qed.

(** C7, amended: when no occurrence record survives the cleaning, the
    sampler makes a pseudo-absence table without rows, and the run ends
    without an exception and without a saved file. *)
Theorem zero_rows_no_output env presence :
  load_presence env = Ok presence →
  DataFrame.len presence = 0%nat →
  generate_pseudo_absence env presence = Ok (mkFrame ["time"; "lat"; "lon"] [])
  ∧ main env = Ok None.
Proof.
  intros Hload Hzero.
  assert (Hgen : generate_pseudo_absence env presence = Ok (mkFrame ["time"; "lat"; "lon"] [])).
  { unfold generate_pseudo_absence. by rewrite Hzero. }
  split; [done|]. unfold main. rewrite Hload. simpl. rewrite Hgen. simpl.
  by rewrite combine_len, Hzero.
Qed.

Lemma zero_rows_no_output_witness :
  generate_pseudo_absence (demo_env gbif_header [] (Fin 3))
    (mkFrame ["lat"; "lon"; "time"] []) = Ok (mkFrame ["time"; "lat"; "lon"] [])
  ∧ main (demo_env gbif_header [] (Fin 3)) = Ok None.
Proof.
  apply (zero_rows_no_output (demo_env gbif_header [] (Fin 3)) (mkFrame ["lat"; "lon"; "time"] [])).
  - vm_compute. reflexivity.
  - reflexivity.
Defined.

(** A failure to read the occurrence file escapes the run. *)
Lemma read_failure_is_fatal env e :
  occurrence env = Raise e → main env = Raise e.
Proof. intros H. unfold main, load_presence. by rewrite H. Qed.

(** No file is saved either when every joined row has a missing cell. *)
Lemma all_rows_dropped_no_output env presence pseudo final :
  load_presence env = Ok presence →
  generate_pseudo_absence env presence = Ok pseudo →
  joined env presence (combine presence pseudo) = Ok final →
  rows (DataFrame.dropna final) = [] →
  main env = Ok None.
Proof.
  intros H1 H2 H3 H4. unfold main. rewrite H1. simpl. rewrite H2. simpl.
  destruct (0 <? _)%nat; [|done]. rewrite H3. simpl. unfold save, DataFrame.empty.
  rewrite H4. by destruct (columns _).
Qed.

(** C7 as stated makes the empty occurrence table the only run without
    output.  Here two occurrence records survive the cleaning, the
    chlorophyll grids hold NaN everywhere, every joined row is dropped and
    no file is saved. *)
Lemma no_output_with_usable_occurrences :
  ¬ ∀ env presence,
      load_presence env = Ok presence → main env = Ok None →
      DataFrame.len presence = 0%nat.
Proof.
  intros H.
  specialize (H (demo_env gbif_header demo_records NaN)
                (mkFrame ["lat"; "lon"; "time"]
                   [[Float (Fin 10); Float (Fin 20); Datetime 1614556800000000000];
                    [Float (Fin 12); Float (Fin 25); Datetime 1646092800000000000]])).
  discriminate H; vm_compute; reflexivity.
Qed.

Example missing_occurrence_file_aborts rs :
  main (utc_env rs) = Raise FileNotFoundError.
Proof. reflexivity. Qed.

(** ** Columns of a frame *)

Lemma index_of_Some name cols i :
  DataFrame.index_of name cols = Some i →
  cols !! i = Some name ∧ (i < length cols)%nat.
Proof.
  revert i. induction cols as [|c r IH]; intros i H; simpl in H; [discriminate|].
  destruct (String.eqb_spec c name) as [->|Hne].
  - inversion H. simpl. split; [done | lia].
  - destruct (DataFrame.index_of name r) as [j|]; [|discriminate].
    inversion H. destruct (IH j eq_refl). simpl. split; [done | lia].
Qed.

Lemma index_of_None name cols :
  DataFrame.index_of name cols = None ↔ name ∉ cols.
Proof.
  induction cols as [|c r IH]; simpl.
  - split; [intros _; apply not_elem_of_nil | done].
  - destruct (String.eqb_spec c name) as [->|Hne].
    + split; [discriminate | intros H; exfalso; apply H; left].
    + rewrite not_elem_of_cons. destruct (DataFrame.index_of name r); simpl.
      * split; [discriminate|]. intros [_ H]. by apply IH in H.
      * split; [|done]. intros _. split; [done | by apply IH].
Qed.

Lemma index_of_app_l name cols extra i :
  DataFrame.index_of name cols = Some i →
  DataFrame.index_of name (cols ++ extra) = Some i.
Proof.
  revert i. induction cols as [|c r IH]; intros i H; simpl in *; [discriminate|].
  destruct (String.eqb c name); [done|].
  destruct (DataFrame.index_of name r) as [j|]; [|discriminate].
  by rewrite (IH j eq_refl).
Qed.

Lemma index_of_app_r name cols extra :
  name ∉ cols →
  DataFrame.index_of name (cols ++ extra) = (λ i, length cols + i)%nat <$> DataFrame.index_of name extra.
Proof.
  induction cols as [|c r IH]; intros H; simpl.
  - by destruct (DataFrame.index_of name extra).
  - apply not_elem_of_cons in H as [H1 H2].
    destruct (String.eqb_spec c name) as [->|Hne]; [done|].
    rewrite IH by done. by destruct (DataFrame.index_of name extra).
Qed.

Lemma index_of_fresh name cols :
  name ∉ cols → DataFrame.index_of name (cols ++ [name]) = Some (length cols).
Proof.
  intros H. rewrite index_of_app_r by done. simpl. rewrite String.eqb_refl. simpl.
  f_equal. lia.
Qed.

Lemma set_column_fresh df name values :
  name ∉ columns df → length values = DataFrame.len df →
  DataFrame.set_column df name values = Ok (with_column df name values).
Proof.
  intros Hfresh Hlen. unfold DataFrame.set_column.
  rewrite (proj2 (Nat.eqb_eq _ _) Hlen). simpl.
  by rewrite (proj2 (index_of_None _ _) Hfresh).
Qed.

Lemma with_column_len df name values :
  length values = DataFrame.len df → DataFrame.len (with_column df name values) = DataFrame.len df.
Proof.
  intros H. unfold DataFrame.len, with_column in *. simpl. rewrite length_zip_with. lia.
Qed.

Lemma with_column_well_formed df name values :
  well_formed df → well_formed (with_column df name values).
Proof.
  unfold well_formed, with_column. simpl. intros H.
  apply Forall_lookup. intros i r Hr.
  apply lookup_zip_with_Some in Hr as (r0 & v & -> & Hr0 & Hv).
  rewrite !length_app. simpl. f_equal.
  by eapply (proj1 (Forall_lookup _ _) H).
Qed.

Lemma with_column_old df name values c :
  well_formed df → length values = DataFrame.len df → c ∈ columns df →
  DataFrame.get_column (with_column df name values) c = DataFrame.get_column df c.
Proof.
  intros Hwf Hlen Hc. unfold DataFrame.get_column.
  destruct (DataFrame.index_of c (columns df)) as [i|] eqn:Ei;
    [|by apply index_of_None in Ei].
  simpl. rewrite (index_of_app_l _ _ _ _ Ei). f_equal.
  apply index_of_Some in Ei as [_ Hi].
  apply list_eq. intros k. rewrite !list_lookup_fmap. unfold with_column. simpl.
  rewrite lookup_zip_with.
  destruct (rows df !! k) as [r|] eqn:Er; simpl.
  - assert (is_Some (values !! k)) as [v Hv].
    { apply lookup_lt_is_Some_2. apply lookup_lt_Some in Er. unfold DataFrame.len in Hlen. lia. }
    rewrite Hv. simpl. f_equal. unfold DataFrame.at_. apply app_nth1.
    rewrite (proj1 (Forall_lookup _ _) Hwf k r Er). done.
  - done.
Qed.

Lemma with_column_new df name values :
  well_formed df → length values = DataFrame.len df → name ∉ columns df →
  DataFrame.get_column (with_column df name values) name = Ok values.
Proof.
  intros Hwf Hlen Hfresh. unfold DataFrame.get_column. simpl.
  rewrite (index_of_fresh _ _ Hfresh). f_equal.
  apply list_eq. intros k. rewrite list_lookup_fmap. rewrite lookup_zip_with.
  destruct (rows df !! k) as [r|] eqn:Er; simpl.
  - assert (is_Some (values !! k)) as [v Hv].
    { apply lookup_lt_is_Some_2. apply lookup_lt_Some in Er. unfold DataFrame.len in Hlen. lia. }
    rewrite Hv. simpl. f_equal. unfold DataFrame.at_.
    rewrite <- (proj1 (Forall_lookup _ _) Hwf k r Er).
    rewrite app_nth2 by lia. by rewrite Nat.sub_diag.
  - symmetry. apply lookup_ge_None. apply lookup_ge_None in Er.
    unfold DataFrame.len in Hlen. lia.
Qed.

(** ** The loop over the sources (C6) *)

Lemma extract_gridded_length ds variable df vals :
  extract_gridded ds variable df = Ok vals → length vals = DataFrame.len df.
Proof.
  unfold extract_gridded. intros H.
  destruct (DataFrame.floats df "lat") as [lats|] eqn:Ea; simpl in H; [|discriminate].
  destruct (DataFrame.floats df "lon") as [lons|] eqn:Eo; simpl in H; [|discriminate].
  destruct (DataFrame.datetimes df "time") as [times|] eqn:Et; simpl in H; [|discriminate].
  unfold Xr.sel_nearest in H. destruct ds as [[taxis|] lat lon vars|]; try discriminate.
  destruct (Xr.lookup_var vars variable) as [arr|]; simpl in H; [|discriminate].
  destruct (mapR (Index.sel_nearest lat) lats) as [ilat|] eqn:E1; simpl in H; [|discriminate].
  destruct (mapR (Index.sel_nearest lon) lons) as [ilon|] eqn:E2; simpl in H; [|discriminate].
  destruct (mapR _ times) as [itime|] eqn:E3; simpl in H; [|discriminate].
  apply mapR_length in H, E1, E2, E3. rewrite H.
  apply floats_length in Ea, Eo. apply datetimes_length in Et.
  apply zip3_length_min; congruence.
Qed.

Lemma extract_track_length ds variable df vals :
  _extract_track_data_with_kdtree ds variable df = Ok vals → length vals = DataFrame.len df.
Proof.
  unfold _extract_track_data_with_kdtree. intros H.
  destruct ds as [|time lat lon vars]; [discriminate|].
  destruct (Np.vstack3T (map seconds time) lat lon) as [sat|]; simpl in H; [|discriminate].
  destruct (DataFrame.datetimes df "time") as [lt|] eqn:Et; simpl in H; [|discriminate].
  destruct (DataFrame.floats df "lat") as [la|] eqn:Ea; simpl in H; [|discriminate].
  destruct (DataFrame.floats df "lon") as [lo|] eqn:Eo; simpl in H; [|discriminate].
  destruct (Np.vstack3T (map seconds lt) la lo) as [pts|] eqn:Ev; simpl in H; [|discriminate].
  destruct (Xr.lookup_var vars variable) as [values|]; simpl in H; [|discriminate].
  apply mapR_length in H. rewrite H, length_map.
  unfold Np.vstack3T in Ev.
  destruct ((length (map seconds lt) =? length la)%nat && (length la =? length lo)%nat) eqn:El;
    [|discriminate].
  inversion Ev; subst pts. apply andb_true_iff in El as [L1 L2].
  apply Nat.eqb_eq in L1, L2. apply datetimes_length in Et.
  apply zip3_length_min; rewrite ?length_map in *; congruence.
Qed.

Lemma source_values_same_points env lat_bounds lon_bounds points df source :
  same_points points df →
  source_values env lat_bounds lon_bounds df source
  = source_values env lat_bounds lon_bounds points source.
Proof.
  intros [_ Hcols]. unfold source_values.
  destruct (open_multifile_dataset _ _ _ _) as [[ds|]|]; simpl; try done.
  assert (Ht : DataFrame.datetimes df "time" = DataFrame.datetimes points "time").
  { unfold DataFrame.datetimes. rewrite Hcols; [done | by repeat constructor]. }
  assert (Ha : DataFrame.floats df "lat" = DataFrame.floats points "lat").
  { unfold DataFrame.floats. rewrite Hcols; [done | by repeat constructor]. }
  assert (Ho : DataFrame.floats df "lon" = DataFrame.floats points "lon").
  { unfold DataFrame.floats. rewrite Hcols; [done | by repeat constructor]. }
  destruct (is_gridded source).
  - unfold extract_gridded. by rewrite Ht, Ha, Ho.
  - unfold _extract_track_data_with_kdtree. destruct ds; [done|]. by rewrite Ht, Ha, Ho.
Qed.

Lemma source_values_length env lat_bounds lon_bounds points source vals :
  source_values env lat_bounds lon_bounds points source = Ok (Some vals) →
  length vals = DataFrame.len points.
Proof.
  unfold source_values.
  destruct (open_multifile_dataset _ _ _ _) as [[ds|]|]; simpl; try discriminate.
  destruct (is_gridded source).
  - destruct (extract_gridded ds _ points) as [v|] eqn:E; simpl; [|discriminate].
    intros H; inversion H; subst. by eapply extract_gridded_length.
  - destruct (_extract_track_data_with_kdtree ds _ points) as [v|] eqn:E; simpl; [|discriminate].
    intros H; inversion H; subst. by eapply extract_track_length.
Qed.

(** The body of the [try] in terms of what the source yields on its own. *)
Lemma process_source_eq env lat_bounds lon_bounds df name source :
  process_source env lat_bounds lon_bounds df name source =
  (o ← source_values env lat_bounds lon_bounds df source;
   match o with
   | None => Ok df
   | Some vals => DataFrame.set_column df name (map Float vals)
   end).
Proof.
  unfold process_source, source_values.
  destruct (open_multifile_dataset _ _ _ _) as [[ds|]|]; simpl; try done.
  destruct (is_gridded source).
  - by destruct (extract_gridded _ _ _).
  - by destruct (_extract_track_data_with_kdtree _ _ _).
Qed.

Lemma same_points_with_column points df name values :
  well_formed df → length values = DataFrame.len df →
  (∀ c, c ∈ ["time"; "lat"; "lon"] → c ∈ columns df) →
  same_points points df → same_points points (with_column df name values).
Proof.
  intros Hwf Hlen Hcoords [Hl Hc]. split.
  - by rewrite with_column_len.
  - intros c Hin. rewrite with_column_old; auto.
Qed.

(** One turn of the loop, by cases on what the source yields on its own. *)
Lemma process_or_skip_cases env lat_bounds lon_bounds points df name source :
  same_points points df → name ∉ columns df →
  process_or_skip env lat_bounds lon_bounds df (name, source) =
    match source_values env lat_bounds lon_bounds points source with
    | Ok (Some vals) => with_column df name (map Float vals)
    | _ => df
    end.
Proof.
  intros Hsame Hfresh. unfold process_or_skip. simpl.
  rewrite process_source_eq, (source_values_same_points _ _ _ points df) by done.
  destruct (source_values env lat_bounds lon_bounds points source) as [[vals|]|] eqn:E;
    simpl; try done.
  rewrite set_column_fresh; [done | done |].
  rewrite length_map. apply source_values_length in E. destruct Hsame as [Hl _]. congruence.
Qed.

Lemma extract_all_spec env lat_bounds lon_bounds points sources df :
  well_formed df → same_points points df →
  (∀ c, c ∈ ["time"; "lat"; "lon"] → c ∈ columns df) →
  NoDup (map fst sources) →
  (∀ ns, ns ∈ sources → ns.1 ∉ columns df) →
  let final := extract_all env lat_bounds lon_bounds sources df in
  well_formed final
  ∧ same_points points final
  ∧ columns final =
      columns df ++ map fst (filter (λ ns, processed env lat_bounds lon_bounds points ns.2 = true)
                               sources)
  ∧ (∀ c, c ∈ columns df → DataFrame.get_column final c = DataFrame.get_column df c)
  ∧ (∀ name source vals,
       (name, source) ∈ sources →
       source_values env lat_bounds lon_bounds points source = Ok (Some vals) →
       DataFrame.get_column final name = Ok (map Float vals)).
Proof.
  revert df. induction sources as [|[n s] rest IH]; intros df Hwf Hsame Hcoords Hnodup Hfresh; cbv zeta.
  - unfold extract_all. cbn [fold_left]. split; [done|]. split; [done|]. rewrite ?filter_nil. simpl. rewrite ?app_nil_r.
    split; [done|]. split; [done|]. intros name source vals Hin. by apply elem_of_nil in Hin.
  - unfold extract_all in *. cbn [fold_left].
    cbn [map fst] in Hnodup. apply NoDup_cons in Hnodup as [Hn Hnodup].
    assert (Hnf : n ∉ columns df) by (apply (Hfresh (n, s)); left).
    rewrite (process_or_skip_cases _ _ _ points) by done.
    rewrite filter_cons. cbn [snd].
    assert (Hp : processed env lat_bounds lon_bounds points s
                 = match source_values env lat_bounds lon_bounds points s with
                   | Ok (Some _) => true
                   | _ => false
                   end) by done.
    destruct (source_values env lat_bounds lon_bounds points s) as [[vals|]|] eqn:E.
    + (* the source is processed: its column is appended *)
      assert (Hlen : length (map Float vals) = DataFrame.len df).
      { rewrite length_map. apply source_values_length in E. destruct Hsame. congruence. }
      destruct (IH (with_column df n (map Float vals))) as (W & S & C & O & V).
      * by apply with_column_well_formed.
      * by apply same_points_with_column.
      * intros c Hc. simpl. apply elem_of_app. left. by apply Hcoords.
      * done.
      * intros ns Hns. simpl. rewrite elem_of_app, list_elem_of_singleton.
        intros [Hold | Heq]; [apply (Hfresh ns); [by right | done]|].
        apply Hn. rewrite <- Heq. apply list_elem_of_fmap. by exists ns.
      * rewrite decide_True by (rewrite Hp; done). cbn [map fst].
        split; [done|]. split; [done|]. split; [|split].
        -- rewrite C. simpl. by rewrite <- app_assoc.
        -- intros c Hc. rewrite O by (simpl; apply elem_of_app; by left).
           by apply with_column_old.
        -- intros name source vals' Hin Hvals.
           apply elem_of_cons in Hin as [Heq | Hin]; [|by eapply V].
           inversion Heq; subst. rewrite E in Hvals. inversion Hvals; subst.
           rewrite O by (simpl; apply elem_of_app; right; by left).
           by apply with_column_new.
    + (* skipped by the overlap check *)
      destruct (IH df) as (W & S & C & O & V); try done.
      { intros ns Hns. apply Hfresh. by right. }
      rewrite decide_False by (rewrite Hp; done).
      split; [done|]. split; [done|]. split; [done|]. split; [done|].
      intros name source vals' Hin Hvals.
      apply elem_of_cons in Hin as [Heq | Hin]; [|by eapply V].
      inversion Heq; subst. congruence.
    + (* the exception is caught *)
      destruct (IH df) as (W & S & C & O & V); try done.
      { intros ns Hns. apply Hfresh. by right. }
      rewrite decide_False by (rewrite Hp; done).
      split; [done|]. split; [done|]. split; [done|]. split; [done|].
      intros name source vals' Hin Hvals.
      apply elem_of_cons in Hin as [Heq | Hin]; [|by eapply V].
      inversion Heq; subst. congruence.
Qed.

Lemma same_points_refl points : same_points points points.
Proof. by split. Qed.

(** C6: whatever a source does (it yields values, it is skipped by the
    overlap check, or loading or indexing it raises), the loop goes on to
    the end: the points and their columns are kept as they were; a source
    that yields values gets its column, with exactly the values it yields
    on its own; a source that is skipped or raises gets no column. *)
Theorem source_failure_skips_only_that_source env lat_bounds lon_bounds points sources :
  well_formed points →
  (∀ c, c ∈ ["time"; "lat"; "lon"] → c ∈ columns points) →
  NoDup (map fst sources) →
  (∀ ns, ns ∈ sources → ns.1 ∉ columns points) →
  let final := extract_all env lat_bounds lon_bounds sources points in
  DataFrame.len final = DataFrame.len points
  ∧ (∀ c, c ∈ columns points → DataFrame.get_column final c = DataFrame.get_column points c)
  ∧ (∀ name source,
       (name, source) ∈ sources →
       match source_values env lat_bounds lon_bounds points source with
       | Ok (Some vals) => DataFrame.get_column final name = Ok (map Float vals)
       | Ok None | Raise _ => name ∉ columns final
       end).
Proof.
  intros Hwf Hcoords Hnodup Hfresh final.
  destruct (extract_all_spec env lat_bounds lon_bounds points sources points)
    as (W & [L _] & C & O & V); try done; try apply same_points_refl.
  fold final in W, L, C, O, V.
  split; [done|]. split; [done|].
  intros name source Hin.
  assert (Hskip : processed env lat_bounds lon_bounds points source = false → name ∉ columns final).
  { intros Hp. rewrite C. intros Hc. apply elem_of_app in Hc as [Hc | Hc].
    - by apply (Hfresh (name, source)).
    - apply list_elem_of_fmap in Hc as ([n' s'] & Hn & Hf). simpl in Hn. subst n'.
      apply list_elem_of_filter in Hf as [Hp' Hin']. simpl in Hp'.
      assert (s' = source) as ->; [|congruence].
      apply list_elem_of_lookup in Hin as [i Hi]. apply list_elem_of_lookup in Hin' as [j Hj].
      assert (i = j) as ->.
      { eapply NoDup_lookup; [exact Hnodup | |]; rewrite list_lookup_fmap.
        - by rewrite Hi.
        - by rewrite Hj. }
      congruence. }
  unfold processed in Hskip.
  destruct (source_values env lat_bounds lon_bounds points source) as [[vals|]|] eqn:E.
  - by eapply V.
  - by apply Hskip.
  - by apply Hskip.
Qed.

Lemma source_failure_skips_only_that_source_witness :
  let final := extract_all faulty_env (10, 12)%Q (20, 25)%Q data_sources demo_points in
  DataFrame.len final = DataFrame.len demo_points
  ∧ (∀ c, c ∈ columns demo_points →
       DataFrame.get_column final c = DataFrame.get_column demo_points c)
  ∧ (∀ name source,
       (name, source) ∈ data_sources →
       match source_values faulty_env (10, 12)%Q (20, 25)%Q demo_points source with
       | Ok (Some vals) => DataFrame.get_column final name = Ok (map Float vals)
       | Ok None | Raise _ => name ∉ columns final
       end).
Proof.
  apply (source_failure_skips_only_that_source faulty_env (10, 12)%Q (20, 25)%Q
           demo_points data_sources).
  - repeat constructor.
  - intros c Hc.
    repeat (apply elem_of_cons in Hc as [->|Hc]; [by repeat constructor|]).
    by apply elem_of_nil in Hc.
  - apply (bool_decide_unpack _). by vm_compute.
  - intros ns Hns.
    repeat (apply elem_of_cons in Hns as [->|Hns];
            [apply (bool_decide_unpack _); by vm_compute|]).
    by apply elem_of_nil in Hns.
Defined.

(** The three failures the loop meets in that world, and the table it
    ends with: only the altimetry column is added. *)
Example empty_directory_raises :
  source_values faulty_env (10, 12)%Q (20, 25)%Q demo_points
    (mkSource chl_folder "chlor_a" true true) = Raise FileNotFoundError.
Proof. reflexivity. Qed.

Example corrupt_files_raise :
  source_values faulty_env (10, 12)%Q (20, 25)%Q demo_points
    (mkSource sst_folder "sst" true true) = Raise ValueError.
Proof. reflexivity. Qed.

Example no_overlap_is_skipped :
  source_values faulty_env (10, 12)%Q (20, 25)%Q demo_points
    (mkSource sss_folder "sss_smap" true false) = Ok None.
Proof. reflexivity. Qed.

Example faulty_world_columns :
  columns (extract_all faulty_env (10, 12)%Q (20, 25)%Q data_sources demo_points)
  = ["lat"; "lon"; "time"; "presence"; "ssha"].
Proof. reflexivity. Qed.

(** ** The columns of the saved table (C9) *)

(** Membership of a given name in a list of given names. *)
Ltac in_list := by repeat constructor.
Ltac not_in_list :=
  let H := fresh in
  intros H; repeat (apply elem_of_cons in H as [H|H]; [discriminate|]);
  by apply elem_of_nil in H.

Lemma set_column_columns df name values df' :
  DataFrame.set_column df name values = Ok df' →
  columns df' = if decide (name ∈ columns df) then columns df else columns df ++ [name].
Proof.
  unfold DataFrame.set_column. destruct (negb _); [discriminate|].
  destruct (DataFrame.index_of name (columns df)) as [i|] eqn:E; intros H; inversion H; simpl.
  - apply index_of_Some in E as [E _]. rewrite decide_True; [done|].
    apply list_elem_of_lookup. eauto.
  - apply index_of_None in E. by rewrite decide_False.
Qed.

Lemma rename_columns df :
  columns (DataFrame.rename df
             [("eventDate", "time"); ("decimalLatitude", "lat"); ("decimalLongitude", "lon")])
  = map coordinate_name (columns df).
Proof.
  unfold DataFrame.rename. cbn -[String.eqb]. apply map_ext. intros c. unfold coordinate_name.
  rewrite (String.eqb_sym "eventDate" c), (String.eqb_sym "decimalLatitude" c),
    (String.eqb_sym "decimalLongitude" c).
  destruct (c =? "eventDate")%string; [done|].
  destruct (c =? "decimalLatitude")%string; [done|].
  by destruct (c =? "decimalLongitude")%string.
Qed.

Lemma load_presence_columns env presence :
  load_presence env = Ok presence →
  ∃ f, occurrence env = Ok f
       ∧ columns presence = coordinate_columns f
       ∧ ∀ c, c ∈ required_columns → c ∈ header f.
Proof.
  unfold load_presence. intros H.
  destruct (occurrence env) as [f|]; simpl in H; [|discriminate].
  exists f. split; [done|].
  unfold read_csv in H.
  destruct (forallb _ required_columns) eqn:Eall; simpl in H; [|discriminate].
  set (df0 := DataFrame.rename _ _) in H.
  destruct (to_datetime_coerce df0) as [df1|] eqn:E1; simpl in H; [|discriminate].
  destruct (DataFrame.index_of "time" _) as [i|]; [|discriminate].
  inversion H; subst presence. simpl.
  assert (C1 : columns df1 = columns df0).
  { unfold to_datetime_coerce in E1.
    destruct (DataFrame.get_column df0 "time") as [cs|] eqn:Eg; simpl in E1; [|discriminate].
    apply set_column_columns in E1. rewrite decide_True in E1; [done|].
    unfold DataFrame.get_column in Eg.
    destruct (DataFrame.index_of "time" (columns df0)) as [j|] eqn:Ej; [|discriminate].
    apply index_of_Some in Ej as [Ej _]. apply list_elem_of_lookup. eauto. }
  split.
  - rewrite C1. unfold df0. by rewrite rename_columns.
  - intros c Hc. rewrite forallb_forall in Eall. apply list_elem_of_In in Hc.
    apply Eall in Hc. by apply bool_decide_eq_true in Hc.
Qed.

Lemma coordinate_columns_spec f :
  (∀ c, c ∈ required_columns → c ∈ header f) →
  (∀ c, c ∈ ["time"; "lat"; "lon"] → c ∈ coordinate_columns f)
  ∧ (∀ c, c ∈ coordinate_columns f → c ∈ ["time"; "lat"; "lon"]).
Proof.
  intros Hreq. unfold coordinate_columns. split.
  - assert (Hin : ∀ c, c ∈ required_columns →
                       coordinate_name c ∈ map coordinate_name
                         (filter (λ c, c ∈ required_columns) (header f))).
    { intros c Hc. apply list_elem_of_fmap. exists c. split; [done|].
      apply list_elem_of_filter. split; [done | by apply Hreq]. }
    intros c Hc. unfold required_columns in Hin.
    apply elem_of_cons in Hc as [->|Hc]; [apply (Hin "eventDate"); in_list|].
    apply elem_of_cons in Hc as [->|Hc]; [apply (Hin "decimalLatitude"); in_list|].
    apply list_elem_of_singleton in Hc as ->. apply (Hin "decimalLongitude"); in_list.
  - intros c Hc. apply list_elem_of_fmap in Hc as (c0 & -> & Hc0).
    apply list_elem_of_filter in Hc0 as [Hc0 _]. unfold required_columns in Hc0.
    apply elem_of_cons in Hc0 as [->|Hc0]; [in_list|].
    apply elem_of_cons in Hc0 as [->|Hc0]; [in_list|].
    apply list_elem_of_singleton in Hc0 as ->. in_list.
Qed.

Lemma generate_pseudo_absence_columns env presence pseudo :
  generate_pseudo_absence env presence = Ok pseudo →
  columns pseudo = ["time"; "lat"; "lon"].
Proof.
  unfold generate_pseudo_absence. destruct (0 <? _)%nat; [|by intros H; inversion H].
  destruct (DataFrame.floats presence "lat") as [[|lat0 lats]|]; simpl; try discriminate;
  destruct (DataFrame.floats presence "lon") as [[|lon0 lons]|]; simpl; try discriminate.
  destruct (draw_pseudo_points _ _ _ _ _ _ _ _) as [p|]; simpl; [|discriminate].
  by intros H; inversion H.
Qed.

Lemma set_scalar_columns df name v :
  name ∉ columns df → columns (DataFrame.set_scalar df name v) = columns df ++ [name].
Proof.
  intros H. unfold DataFrame.set_scalar. by rewrite (proj2 (index_of_None _ _) H).
Qed.

Lemma combine_columns presence pseudo :
  (∀ c, c ∈ ["time"; "lat"; "lon"] → c ∈ columns presence) →
  (∀ c, c ∈ columns presence → c ∈ ["time"; "lat"; "lon"]) →
  columns pseudo = ["time"; "lat"; "lon"] →
  columns (combine presence pseudo) = columns presence ++ ["presence"].
Proof.
  intros Hin Hout Hp. unfold combine, DataFrame.concat. simpl.
  assert (Hfresh : "presence" ∉ columns presence).
  { intros H. apply Hout in H. revert H. not_in_list. }
  rewrite (set_scalar_columns presence) by done.
  rewrite (set_scalar_columns pseudo) by (rewrite Hp; not_in_list).
  rewrite Hp. simpl.
  assert (Hfound : ∀ c, c ∈ ["time"; "lat"; "lon"; "presence"] →
            DataFrame.index_of c (columns presence ++ ["presence"]) ≠ None).
  { intros c Hc Hnone. apply index_of_None in Hnone. apply Hnone.
    apply elem_of_app.
    apply elem_of_cons in Hc as [->|Hc]; [left; apply Hin; in_list|].
    apply elem_of_cons in Hc as [->|Hc]; [left; apply Hin; in_list|].
    apply elem_of_cons in Hc as [->|Hc]; [left; apply Hin; in_list|].
    apply list_elem_of_singleton in Hc as ->. right. in_list. }
  rewrite !filter_cons, filter_nil.
  rewrite !decide_False; [by rewrite app_nil_r | apply Hfound; in_list ..].
Qed.

Lemma process_or_skip_columns env lat_bounds lon_bounds df n s :
  n ∉ columns df →
  columns (process_or_skip env lat_bounds lon_bounds df (n, s)) = columns df
  ∨ columns (process_or_skip env lat_bounds lon_bounds df (n, s)) = columns df ++ [n].
Proof.
  intros Hfresh. unfold process_or_skip. simpl. rewrite process_source_eq.
  destruct (source_values _ _ _ _ _) as [[vals|]|]; simpl; try by left.
  destruct (DataFrame.set_column df n (map Float vals)) as [df'|] eqn:E; [|by left].
  apply set_column_columns in E. rewrite decide_False in E by done. by right.
Qed.

Lemma extract_all_columns env lat_bounds lon_bounds sources df :
  NoDup (map fst sources) →
  (∀ n, n ∈ map fst sources → n ∉ columns df) →
  ∃ kept, kept `sublist_of` map fst sources
          ∧ columns (extract_all env lat_bounds lon_bounds sources df) = columns df ++ kept.
Proof.
  revert df. induction sources as [|[n s] rest IH]; intros df Hnodup Hfresh.
  - exists []. split; [done|]. unfold extract_all. simpl. by rewrite app_nil_r.
  - cbn [map fst] in *. apply NoDup_cons in Hnodup as [Hn Hnodup].
    unfold extract_all in *. cbn [fold_left].
    destruct (process_or_skip_columns env lat_bounds lon_bounds df n s) as [E|E];
      [apply Hfresh; left | |].
    + destruct (IH (process_or_skip env lat_bounds lon_bounds df (n, s))) as (kept & Hsub & Hcols).
      * done.
      * intros m Hm. rewrite E. apply Hfresh. by right.
      * exists kept. split; [by apply sublist_cons|]. by rewrite Hcols, E.
    + destruct (IH (process_or_skip env lat_bounds lon_bounds df (n, s))) as (kept & Hsub & Hcols).
      * done.
      * intros m Hm. rewrite E. rewrite elem_of_app, list_elem_of_singleton.
        intros [H | ->]; [|done]. revert H. apply Hfresh. by right.
      * exists (n :: kept). split; [by apply sublist_skip|].
        by rewrite Hcols, E, <- app_assoc.
Qed.

Lemma add_day_features_columns df df' :
  add_day_features df = Ok df' →
  (∀ c, c ∈ ["day_of_year"; "day_sin"; "day_cos"] → c ∉ columns df) →
  columns df' = columns df ++ ["day_sin"; "day_cos"].
Proof.
  unfold add_day_features. intros H Hfresh.
  destruct (DataFrame.get_column df "time") as [times|]; simpl in H; [|discriminate].
  destruct (DataFrame.set_column df "day_of_year" _) as [df1|] eqn:E1; simpl in H; [|discriminate].
  destruct (DataFrame.get_column df1 "day_of_year") as [doy|]; simpl in H; [|discriminate].
  destruct (DataFrame.set_column df1 "day_sin" _) as [df2|] eqn:E2; simpl in H; [|discriminate].
  destruct (DataFrame.set_column df2 "day_cos" _) as [df3|] eqn:E3; simpl in H; [|discriminate].
  apply set_column_columns in E1, E2, E3.
  rewrite decide_False in E1 by (apply Hfresh; in_list).
  rewrite decide_False in E2.
  2:{ rewrite E1, elem_of_app. intros [H1|H1]; [by apply (Hfresh "day_sin"); [in_list|]|].
      revert H1. not_in_list. }
  rewrite decide_False in E3.
  2:{ rewrite E2, E1, !elem_of_app. intros [[H1|H1]|H1]; [by apply (Hfresh "day_cos"); [in_list|]| |];
      revert H1; not_in_list. }
  unfold DataFrame.drop in H.
  destruct (DataFrame.index_of "day_of_year" (columns df3)) as [i|] eqn:Ei; [|discriminate].
  inversion H; subst df'. simpl.
  rewrite E3, E2, E1, <- !app_assoc in Ei |- *. simpl in Ei |- *.
  rewrite (index_of_app_r "day_of_year" (columns df)) in Ei by (apply Hfresh; in_list).
  simpl in Ei. inversion Ei; subst i.
  rewrite Nat.add_0_r. clear.
  induction (columns df) as [|c r IH]; simpl; [done|]. by rewrite IH.
Qed.

Lemma presence_last_columns base rest cols :
  "presence" ∉ base →
  presence_last (base ++ "presence" :: rest) = Ok cols →
  cols = base ++ rest ++ ["presence"].
Proof.
  intros Hfresh. unfold presence_last.
  rewrite index_of_app_r by done. simpl. intros H. inversion H.
  rewrite Nat.add_0_r.
  assert (Hdel : delete (length base) (base ++ "presence" :: rest) = base ++ rest).
  { clear. induction base as [|c r IH]; simpl; [done|]. by rewrite IH. }
  by rewrite Hdel, <- app_assoc.
Qed.

Lemma sublist_full {A : Type} (l1 l2 : list A) :
  l1 `sublist_of` l2 → (length l2 ≤ length l1)%nat → l1 = l2.
Proof.
  induction 1 as [|x l1 l2 Hs IH|x l1 l2 Hs IH]; simpl; intros Hlen.
  - done.
  - f_equal. apply IH. lia.
  - apply sublist_length in Hs. lia.
Qed.

Lemma data_sources_names :
  map fst data_sources = ["chlor_a"; "sst"; "ssha"; "sss"].
Proof. reflexivity. Qed.

(** The columns of a saved table: the coordinate columns in the order of
    the occurrence file, the columns of the sources that were processed, in
    the order of [data_sources], the two day-of-year features, [presence]. *)
Lemma main_columns env out :
  main env = Ok (Some out) →
  ∃ f kept,
    occurrence env = Ok f
    ∧ kept `sublist_of` map fst data_sources
    ∧ columns (table out) = coordinate_columns f ++ kept ++ ["day_sin"; "day_cos"; "presence"]
    ∧ (∀ c, c ∈ coordinate_columns f → c ∈ ["time"; "lat"; "lon"])
    ∧ directory out = out_dir
    ∧ file_name out = "model_training_dataset.csv.gz"
    ∧ compression out = "gzip".
Proof.
  intros H. destruct (main_saved env out H) as (presence & pseudo & final & H1 & H2 & H3 & H4).
  destruct (load_presence_columns _ _ H1) as (f & Hf & Hcols & Hreq).
  destruct (coordinate_columns_spec f Hreq) as [Hin Hout].
  pose proof (generate_pseudo_absence_columns _ _ _ H2) as Hp.
  pose proof (combine_columns presence pseudo) as Hc.
  rewrite Hcols in Hc. specialize (Hc Hin Hout Hp).
  unfold joined in H3.
  destruct (DataFrame.floats presence "lat") as [[|lat0 lats]|];
    cbn [mbind result_bind] in H3; try discriminate;
  destruct (DataFrame.floats presence "lon") as [[|lon0 lons]|];
    cbn [mbind result_bind] in H3; try discriminate.
  set (lab := (Np.min_ lat0 lats, Np.max_ lat0 lats)) in H3.
  set (lob := (Np.min_ lon0 lons, Np.max_ lon0 lons)) in H3.
  destruct (extract_all_columns env lab lob data_sources (combine presence pseudo))
    as (kept & Hsub & Hext).
  { rewrite data_sources_names. apply (bool_decide_unpack _). by vm_compute. }
  { intros n Hn. rewrite Hc, elem_of_app. rewrite data_sources_names in Hn.
    intros [Hn'|Hn']; [apply Hout in Hn'|];
      repeat (apply elem_of_cons in Hn as [->|Hn]; [revert Hn'; not_in_list|]);
      by apply elem_of_nil in Hn. }
  assert (Hkept : ∀ c, c ∈ kept → c ∈ ["chlor_a"; "sst"; "ssha"; "sss"]).
  { intros c Hc'. rewrite <- data_sources_names. by eapply elem_of_sublist. }
  apply add_day_features_columns in H3.
  2:{ intros c Hc'. rewrite Hext, Hc, !elem_of_app.
      intros [[Hn'|Hn']|Hn']; [apply Hout in Hn'| |apply Hkept in Hn'];
        repeat (apply elem_of_cons in Hc' as [->|Hc']; [revert Hn'; not_in_list|]);
        by apply elem_of_nil in Hc'. }
  destruct (save_saved _ _ H4) as (cols & idx & Hlast & _ & -> & _).
  change (columns (DataFrame.dropna final)) with (columns final) in Hlast.
  rewrite H3, Hext, Hc, <- !app_assoc in Hlast. simpl in Hlast.
  apply presence_last_columns in Hlast.
  2:{ intros Hn'. apply Hout in Hn'. revert Hn'. not_in_list. }
  exists f, kept. simpl. repeat (split; [done|]). split; [|done].
  by rewrite Hlast, <- !app_assoc.
Qed.

(** C9, amended: a run that saves a table with all four source columns
    writes [model_training_dataset.csv.gz], gzip-compressed, and its columns
    are the three coordinate columns in the order in which the occurrence
    file lists them, then chlor_a, sst, ssha, sss, day_sin, day_cos and
    presence; the coordinates read time, lat, lon when the file lists
    eventDate, decimalLatitude, decimalLongitude in that order. *)
Theorem saved_columns env out :
  main env = Ok (Some out) →
  (∀ name, name ∈ map fst data_sources → name ∈ columns (table out)) →
  ∃ f,
    occurrence env = Ok f
    ∧ file_name out = "model_training_dataset.csv.gz"
    ∧ compression out = "gzip"
    ∧ columns (table out) =
        coordinate_columns f
        ++ ["chlor_a"; "sst"; "ssha"; "sss"; "day_sin"; "day_cos"; "presence"]
    ∧ (filter (λ c, c ∈ required_columns) (header f) = required_columns →
       columns (table out) =
         ["time"; "lat"; "lon"; "chlor_a"; "sst"; "ssha"; "sss"; "day_sin"; "day_cos";
          "presence"]).
Proof.
  intros Hmain Hall.
  destruct (main_columns env out Hmain) as (f & kept & Hf & Hsub & Hcols & Hout & _ & Hname & Hgz).
  assert (Hkept : kept = map fst data_sources).
  { apply sublist_full; [done|].
    apply submseteq_length, NoDup_submseteq.
    - rewrite data_sources_names. apply (bool_decide_unpack _). by vm_compute.
    - intros name Hname'. specialize (Hall name Hname').
      rewrite Hcols, !elem_of_app in Hall. rewrite data_sources_names in Hname'.
      destruct Hall as [Hn'|[Hn'|Hn']]; [apply Hout in Hn'|done|];
        repeat (apply elem_of_cons in Hname' as [->|Hname']; [revert Hn'; not_in_list|]);
        by apply elem_of_nil in Hname'. }
  rewrite Hkept, data_sources_names in Hcols.
  exists f. split; [done|]. split; [done|]. split; [done|]. split; [done|].
  intros Horder. rewrite Hcols. unfold coordinate_columns. by rewrite Horder.
Qed.

Lemma saved_columns_witness :
  ∃ f,
    occurrence (demo_env dwc_header demo_records (Fin 3)) = Ok f
    ∧ file_name demo_out_dwc = "model_training_dataset.csv.gz"
    ∧ compression demo_out_dwc = "gzip"
    ∧ columns (table demo_out_dwc) =
        coordinate_columns f
        ++ ["chlor_a"; "sst"; "ssha"; "sss"; "day_sin"; "day_cos"; "presence"]
    ∧ (filter (λ c, c ∈ required_columns) (header f) = required_columns →
       columns (table demo_out_dwc) =
         ["time"; "lat"; "lon"; "chlor_a"; "sst"; "ssha"; "sss"; "day_sin"; "day_cos";
          "presence"]).
Proof.
  apply (saved_columns (demo_env dwc_header demo_records (Fin 3)) demo_out_dwc).
  - vm_compute. reflexivity.
  - intros name Hname. vm_compute in Hname. vm_compute.
    repeat (apply elem_of_cons in Hname as [->|Hname]; [by repeat constructor|]).
    by apply elem_of_nil in Hname.
Defined.

(** C9 as stated puts time, lat, lon first whatever the occurrence file.
    With the columns in the order of a GBIF download (latitude and
    longitude before the event date) and all four sources processed, the
    saved table starts with lat, lon, time. *)
Lemma saved_columns_follow_the_file :
  main (demo_env gbif_header demo_records (Fin 3)) = Ok (Some demo_out_gbif)
  ∧ (∀ name, name ∈ ["chlor_a"; "sst"; "ssha"; "sss"] → name ∈ columns (table demo_out_gbif))
  ∧ columns (table demo_out_gbif) =
      ["lat"; "lon"; "time"; "chlor_a"; "sst"; "ssha"; "sss"; "day_sin"; "day_cos"; "presence"]
  ∧ columns (table demo_out_gbif) ≠
      ["time"; "lat"; "lon"; "chlor_a"; "sst"; "ssha"; "sss"; "day_sin"; "day_cos"; "presence"].
Proof.
  split; [by vm_compute|]. split; [|split; [by vm_compute | by vm_compute]].
  intros name Hname. vm_compute.
  repeat (apply elem_of_cons in Hname as [->|Hname]; [by repeat constructor|]).
  by apply elem_of_nil in Hname.
Qed.

Lemma combine_well_formed presence pseudo : well_formed (combine presence pseudo).
Proof.
  unfold well_formed, combine, DataFrame.concat, DataFrame.reindex. simpl.
  apply Forall_app. split; apply Forall_forall; intros r Hr;
    apply list_elem_of_fmap in Hr as (r0 & -> & _); by rewrite length_map.
Qed.

(** The points the run hands to the loop meet the conditions under which
    the loop was specified: rows of one cell per column, the three
    coordinate columns, and no column named like a source. *)
Lemma main_points_ready env presence pseudo :
  load_presence env = Ok presence →
  generate_pseudo_absence env presence = Ok pseudo →
  well_formed (combine presence pseudo)
  ∧ (∀ c, c ∈ ["time"; "lat"; "lon"] → c ∈ columns (combine presence pseudo))
  ∧ NoDup (map fst data_sources)
  ∧ (∀ ns, ns ∈ data_sources → ns.1 ∉ columns (combine presence pseudo)).
Proof.
  intros H1 H2.
  destruct (load_presence_columns _ _ H1) as (f & Hf & Hcols & Hreq).
  destruct (coordinate_columns_spec f Hreq) as [Hin Hout].
  pose proof (generate_pseudo_absence_columns _ _ _ H2) as Hp.
  pose proof (combine_columns presence pseudo) as Hc.
  rewrite Hcols in Hc. specialize (Hc Hin Hout Hp).
  split; [apply combine_well_formed|]. split; [|split].
  - intros c Hc'. rewrite Hc. apply elem_of_app. left. by apply Hin.
  - apply (bool_decide_unpack _). by vm_compute.
  - intros [n s] Hns. rewrite Hc, elem_of_app. cbn [fst].
    assert (Hname : n ∈ ["chlor_a"; "sst"; "ssha"; "sss"]).
    { rewrite <- data_sources_names. apply list_elem_of_fmap. by exists (n, s). }
    intros [Hn'|Hn']; [apply Hout in Hn'|];
      repeat (apply elem_of_cons in Hname as [->|Hname]; [revert Hn'; not_in_list|]);
      by apply elem_of_nil in Hname.
Qed.

(** ** Nearest label of a monotonic index *)

Lemma Qabs_cases (x : Q) :
  ((0 <= x)%Q ∧ (Qabs x == x)%Q) ∨ ((x < 0)%Q ∧ (Qabs x == - x)%Q).
Proof.
  destruct (Qlt_le_dec x 0) as [H|H].
  - right. split; [done|]. apply Qabs_neg. lra.
  - left. split; [done|]. by apply Qabs_pos.
Qed.

(** Replace every absolute value by a variable constrained by its sign
    case, then decide by linear arithmetic. *)
Ltac qabs :=
  repeat match goal with
         | |- context [Qabs ?t] =>
             let a := fresh "a" in
             let H := fresh "Ha" in
             pose proof (Qabs_cases t) as H;
             generalize dependent (Qabs t); intros a H
         | H0 : context [Qabs ?t] |- _ =>
             let a := fresh "a" in
             let H := fresh "Ha" in
             pose proof (Qabs_cases t) as H;
             generalize dependent (Qabs t); intros a H
         end;
  repeat match goal with
         | H : (_ ∧ _) ∨ (_ ∧ _) |- _ => destruct H as [[? ?]|[? ?]]
         end;
  lra.

Lemma increasing_tail x xs : increasing (x :: xs) → increasing xs.
Proof. intros H i j a b Hi Hj Hij. apply (H (S i) (S j)); simpl; try done. lia. Qed.

Lemma decreasing_tail x xs : decreasing (x :: xs) → decreasing xs.
Proof. intros H i j a b Hi Hj Hij. apply (H (S i) (S j)); simpl; try done. lia. Qed.

Lemma increasing_monotonic xs : increasing xs → Index.is_monotonic_increasing xs = true.
Proof.
  induction xs as [|x [|y r] IH]; intros H; try done.
  change (Qleb x y && Index.is_monotonic_increasing (y :: r) = true).
  rewrite IH by (exact (increasing_tail x _ H)). rewrite andb_true_r.
  apply Qleb_le, Qlt_le_weak. apply (H 0%nat 1%nat); [done | done | lia].
Qed.

Lemma decreasing_monotonic xs : decreasing xs → Index.is_monotonic_decreasing xs = true.
Proof.
  induction xs as [|x [|y r] IH]; intros H; try done.
  change (Qleb y x && Index.is_monotonic_decreasing (y :: r) = true).
  rewrite IH by (exact (decreasing_tail x _ H)). rewrite andb_true_r.
  apply Qleb_le, Qlt_le_weak. apply (H 0%nat 1%nat); [done | done | lia].
Qed.

Lemma decreasing_not_increasing x y r :
  decreasing (x :: y :: r) → Index.is_monotonic_increasing (x :: y :: r) = false.
Proof.
  intros H. change (Qleb x y && Index.is_monotonic_increasing (y :: r) = false).
  apply andb_false_iff. left. apply Qleb_gt. apply (H 0%nat 1%nat); [done | done | lia].
Qed.

Lemma distinct_unique xs :
  (∀ i j x y, xs !! i = Some x → xs !! j = Some y → (i < j)%nat → ¬ (x == y)%Q) →
  Index.is_unique xs = true.
Proof.
  induction xs as [|x r IH]; intros H; [done|]. simpl.
  apply andb_true_iff. split.
  - apply forallb_forall. intros y Hy. apply list_elem_of_In, list_elem_of_lookup in Hy as [j Hj].
    apply negb_true_iff, Qeqb_neq. by apply (H 0%nat (S j)); [| |lia].
  - apply IH. intros i j a b Hi Hj Hij. apply (H (S i) (S j)); simpl; try done. lia.
Qed.

Lemma monotonic_unique xs : increasing xs ∨ decreasing xs → Index.is_unique xs = true.
Proof.
  intros [H|H]; apply distinct_unique; intros i j x y Hi Hj Hij Heq;
    specialize (H i j x y Hi Hj Hij); lra.
Qed.

(** The exact lookup: a position that holds a label equal to [v], or [-1]
    when no label is equal to [v]. *)
Lemma get_indexer_exact_spec xs v :
  (Index.get_indexer_exact xs v = (-1)%Z ∧ ∀ i x, xs !! i = Some x → ¬ (x == v)%Q)
  ∨ (∃ e x, Index.get_indexer_exact xs v = Z.of_nat e ∧ xs !! e = Some x ∧ (x == v)%Q).
Proof.
  induction xs as [|x r IH]; simpl.
  - left. split; [done|]. intros i x H. by rewrite lookup_nil in H.
  - destruct (Qeqb x v) eqn:E.
    + right. exists 0%nat, x. apply Qeqb_eq in E. done.
    + apply Qeqb_neq in E. destruct IH as [[-> Hno]|(e & y & -> & Hy & Heq)].
      * left. split; [done|]. intros [|i] a Ha; simpl in Ha; [by inversion Ha; subst|by eapply Hno].
      * right. exists (S e), y. rewrite (proj2 (Z.eqb_neq _ _)) by lia.
        split; [lia | done].
Qed.

(** [searchsorted]: the labels before the returned position pass the test,
    the label at it does not. *)
Lemma searchsorted_left_spec xs v :
  let k := Index.searchsorted xs v Index.Left in
  (k ≤ length xs)%nat
  ∧ (∀ i x, xs !! i = Some x → (i < k)%nat → (x < v)%Q)
  ∧ (∀ x, xs !! k = Some x → (v <= x)%Q).
Proof.
  induction xs as [|x r IH]; simpl.
  - split; [lia|]. split; intros; by simplify_list_eq.
  - destruct (Qltb x v) eqn:E.
    + apply Qltb_lt in E. destruct IH as (H1 & H2 & H3). split; [lia|]. split.
      * intros [|i] a Ha Hi; simpl in Ha; [by inversion Ha; subst|]. apply (H2 i); [done | lia].
      * intros a Ha. simpl in Ha. by apply H3.
    + apply Qltb_ge in E. split; [lia|]. split; [intros; lia|].
      intros a Ha. simpl in Ha. by inversion Ha; subst.
Qed.

Lemma searchsorted_right_spec xs v :
  let k := Index.searchsorted xs v Index.Right in
  (k ≤ length xs)%nat
  ∧ (∀ i x, xs !! i = Some x → (i < k)%nat → (x <= v)%Q)
  ∧ (∀ x, xs !! k = Some x → (v < x)%Q).
Proof.
  induction xs as [|x r IH]; simpl.
  - split; [lia|]. split; intros; by simplify_list_eq.
  - destruct (Qleb x v) eqn:E.
    + apply Qleb_le in E. destruct IH as (H1 & H2 & H3). split; [lia|]. split.
      * intros [|i] a Ha Hi; simpl in Ha; [by inversion Ha; subst|]. apply (H2 i); [done | lia].
      * intros a Ha. simpl in Ha. by apply H3.
    + apply Qleb_gt in E. split; [lia|]. split; [intros; lia|].
      intros a Ha. simpl in Ha. by inversion Ha; subst.
Qed.

(** On an increasing index without a label equal to [v], both sides of
    [searchsorted] give the same cut: smaller labels before it, larger
    labels from it on. *)
Lemma cut_increasing ys v :
  increasing ys →
  (∀ i y, ys !! i = Some y → ¬ (y == v)%Q) →
  let k := Index.searchsorted ys v Index.Left in
  Index.searchsorted ys v Index.Right = k
  ∧ (k ≤ length ys)%nat
  ∧ (∀ i y, ys !! i = Some y → (i < k)%nat → (y < v)%Q)
  ∧ (∀ i y, ys !! i = Some y → (k ≤ i)%nat → (v < y)%Q).
Proof.
  intros Hinc Hno k.
  destruct (searchsorted_left_spec ys v) as (L1 & L2 & L3).
  destruct (searchsorted_right_spec ys v) as (R1 & R2 & R3).
  fold k in L1, L2, L3. set (k' := Index.searchsorted ys v Index.Right) in *.
  assert (Hafter : ∀ i y, ys !! i = Some y → (k ≤ i)%nat → (v < y)%Q).
  { intros i y Hy Hi.
    assert (is_Some (ys !! k)) as [yk Hk].
    { apply lookup_lt_is_Some_2. apply lookup_lt_Some in Hy. lia. }
    pose proof (L3 yk Hk) as Hge. pose proof (Hno k yk Hk) as Hne.
    destruct (decide (i = k)) as [->|Hik].
    - rewrite Hk in Hy. inversion Hy; subst. lra.
    - pose proof (Hinc k i yk y Hk Hy ltac:(lia)). lra. }
  split; [|done].
  destruct (Nat.lt_trichotomy k k') as [Hlt|[Heq|Hgt]]; [|done|].
  - assert (is_Some (ys !! k)) as [yk Hk] by (apply lookup_lt_is_Some_2; lia).
    pose proof (R2 k yk Hk Hlt). pose proof (Hafter k yk Hk ltac:(lia)). lra.
  - assert (is_Some (ys !! k')) as [yk Hk] by (apply lookup_lt_is_Some_2; lia).
    pose proof (L2 k' yk Hk Hgt). pose proof (R3 yk Hk). lra.
Qed.

Lemma rev_lookup (xs : list Q) i :
  (i < length xs)%nat → rev xs !! i = xs !! (length xs - S i)%nat.
Proof. intros H. rewrite rev_alt. by apply (reverse_lookup xs i). Qed.

Lemma rev_increasing xs : decreasing xs → increasing (rev xs).
Proof.
  intros Hdec i j x y Hi Hj Hij.
  pose proof (lookup_lt_Some _ _ _ Hi) as Li. pose proof (lookup_lt_Some _ _ _ Hj) as Lj.
  rewrite length_rev in Li, Lj.
  rewrite rev_lookup in Hi, Hj by done.
  apply (Hdec _ _ _ _ Hj Hi). lia.
Qed.

(** The two fill indexers on an increasing index. *)
Lemma fill_increasing xs v :
  increasing xs →
  Index.get_indexer_exact xs v = (-1)%Z →
  (∀ i x, xs !! i = Some x → ¬ (x == v)%Q) →
  ∃ k, (k ≤ length xs)%nat
       ∧ Index._get_fill_indexer_searchsorted xs v Index.Pad = Ok (Z.of_nat k - 1)%Z
       ∧ Index._get_fill_indexer_searchsorted xs v Index.Backfill
         = Ok (if (k =? length xs)%nat then (-1)%Z else Z.of_nat k)
       ∧ (∀ i x, xs !! i = Some x → (i < k)%nat → (x < v)%Q)
       ∧ (∀ i x, xs !! i = Some x → (k ≤ i)%nat → (v < x)%Q).
Proof.
  intros Hinc He Hno. destruct (cut_increasing xs v Hinc Hno) as (Hr & Hk & Hb & Ha).
  exists (Index.searchsorted xs v Index.Left). split; [done|].
  unfold Index._get_fill_indexer_searchsorted, Index._searchsorted_monotonic.
  rewrite He, (increasing_monotonic xs Hinc). simpl. by rewrite Hr.
Qed.

(** The two fill indexers on a decreasing index of two labels or more. *)
Lemma fill_decreasing xs v :
  decreasing xs →
  Index.is_monotonic_increasing xs = false →
  Index.get_indexer_exact xs v = (-1)%Z →
  (∀ i x, xs !! i = Some x → ¬ (x == v)%Q) →
  ∃ g, (g ≤ length xs)%nat
       ∧ Index._get_fill_indexer_searchsorted xs v Index.Pad = Ok (Z.of_nat g - 1)%Z
       ∧ Index._get_fill_indexer_searchsorted xs v Index.Backfill
         = Ok (if (g =? length xs)%nat then (-1)%Z else Z.of_nat g)
       ∧ (∀ i x, xs !! i = Some x → (i < g)%nat → (v < x)%Q)
       ∧ (∀ i x, xs !! i = Some x → (g ≤ i)%nat → (x < v)%Q).
Proof.
  intros Hdec Hni He Hno.
  assert (Hno' : ∀ i y, rev xs !! i = Some y → ¬ (y == v)%Q).
  { intros i y Hy. pose proof (lookup_lt_Some _ _ _ Hy) as Li. rewrite length_rev in Li.
    rewrite rev_lookup in Hy by done. by eapply Hno. }
  destruct (cut_increasing (rev xs) v (rev_increasing xs Hdec) Hno') as (Hr & Hk & Hb & Ha).
  set (p := Index.searchsorted (rev xs) v Index.Left) in *.
  rewrite length_rev in Hk.
  exists (length xs - p)%nat. split; [lia|].
  unfold Index._get_fill_indexer_searchsorted, Index._searchsorted_monotonic.
  rewrite He, Hni, (decreasing_monotonic xs Hdec). simpl. rewrite Hr. fold p.
  split; [done|]. split; [done|]. split.
  - intros i x Hx Hi. pose proof (lookup_lt_Some _ _ _ Hx) as Li.
    apply (Ha (length xs - S i)%nat); [|lia].
    rewrite rev_lookup by lia. rewrite <- Hx. f_equal. lia.
  - intros i x Hx Hi. pose proof (lookup_lt_Some _ _ _ Hx) as Li.
    apply (Hb (length xs - S i)%nat); [|lia].
    rewrite rev_lookup by lia. rewrite <- Hx. f_equal. lia.
Qed.

Lemma take_lookup xs i x :
  xs !! i = Some x → Index.take xs (Z.of_nat i) = x.
Proof.
  intros H. unfold Index.take. rewrite (proj2 (Z.ltb_ge _ _)) by lia.
  rewrite Nat2Z.id. by apply nth_lookup_Some.
Qed.

Lemma take_last xs x :
  xs !! (length xs - 1)%nat = Some x → Index.take xs (-1) = x.
Proof.
  intros H. unfold Index.take. simpl.
  replace (Z.to_nat (Z.of_nat (length xs) + -1)) with (length xs - 1)%nat by lia.
  by apply nth_lookup_Some.
Qed.

Lemma get_indexer_nearest_eq xs v l r :
  xs ≠ [] → Index.is_unique xs = true →
  Index._get_fill_indexer_searchsorted xs v Index.Pad = Ok l →
  Index._get_fill_indexer_searchsorted xs v Index.Backfill = Ok r →
  Index.get_indexer_nearest xs v =
    Ok (if (if Index.is_monotonic_increasing xs then Qltb else Qleb)
             (Index._difference_compat xs v l) (Index._difference_compat xs v r)
           || (r =? -1)%Z
        then l else r).
Proof.
  intros Hne Hu Hl Hr. unfold Index.get_indexer_nearest, Index._get_nearest_indexer.
  rewrite Hu. destruct xs as [|x0 rest]; [done|]. by rewrite Hl, Hr.
Qed.

Lemma sel_nearest_of_indexer xs v i :
  Index.get_indexer_nearest xs v = Ok (Z.of_nat i) → Index.sel_nearest xs v = Ok i.
Proof.
  intros H. unfold Index.sel_nearest. rewrite H. simpl.
  rewrite (proj2 (Z.ltb_ge _ _)) by lia. by rewrite Nat2Z.id.
Qed.

(** A label equal to the target is selected. *)
Lemma nearest_exact xs v e x :
  xs ≠ [] → Index.is_unique xs = true →
  Index.get_indexer_exact xs v = Z.of_nat e →
  xs !! e = Some x → (x == v)%Q →
  Index.sel_nearest xs v = Ok e ∧ nearest_preferring_larger xs v e.
Proof.
  intros Hne Hu He Hx Heq. split.
  - apply sel_nearest_of_indexer.
    rewrite (get_indexer_nearest_eq xs v (Z.of_nat e) (Z.of_nat e)); try done.
    + by destruct (_ || _).
    + unfold Index._get_fill_indexer_searchsorted. rewrite He.
      by rewrite (proj2 (Z.eqb_neq _ _)) by lia.
    + unfold Index._get_fill_indexer_searchsorted. rewrite He.
      by rewrite (proj2 (Z.eqb_neq _ _)) by lia.
  - exists x. split; [done|]. intros j y Hy. split.
    + qabs.
    + intros Htie. qabs.
Qed.

(** The selection on an increasing index. *)
Lemma nearest_increasing xs v :
  xs ≠ [] → increasing xs →
  ∃ i, Index.sel_nearest xs v = Ok i ∧ nearest_preferring_larger xs v i.
Proof.
  intros Hne Hinc.
  pose proof (monotonic_unique xs (or_introl Hinc)) as Hu.
  destruct (get_indexer_exact_spec xs v) as [[He Hno]|(e & x & He & Hx & Heq)];
    [|exists e; by eapply nearest_exact].
  destruct (fill_increasing xs v Hinc He Hno) as (k & Hk & Hpad & Hback & Hb & Ha).
  assert (Hn : (0 < length xs)%nat) by (destruct xs; [done | simpl; lia]).
  pose proof (get_indexer_nearest_eq xs v _ _ Hne Hu Hpad Hback) as Hsel.
  rewrite (increasing_monotonic xs Hinc) in Hsel.
  destruct (decide (k = length xs)) as [Hkn|Hkn].
  - (* every label is smaller: the last one is selected *)
    rewrite (proj2 (Nat.eqb_eq _ _) Hkn) in Hsel. simpl in Hsel. rewrite orb_true_r in Hsel.
    assert (is_Some (xs !! (k - 1)%nat)) as [x Hx] by (apply lookup_lt_is_Some_2; lia).
    exists (k - 1)%nat. split.
    + apply sel_nearest_of_indexer. rewrite Hsel. f_equal. lia.
    + exists x. split; [done|]. intros j y Hy.
      pose proof (lookup_lt_Some _ _ _ Hy) as Lj.
      pose proof (Hb _ _ Hx ltac:(lia)). pose proof (Hb _ _ Hy ltac:(lia)).
      assert (y <= x)%Q.
      { destruct (decide (j = (k - 1)%nat)) as [->|Hj].
        - rewrite Hx in Hy. inversion Hy; subst. lra.
        - apply Qlt_le_weak. apply (Hinc j (k - 1)%nat); try done. lia. }
      split; [qabs | done].
  - rewrite (proj2 (Nat.eqb_neq _ _) Hkn) in Hsel.
    rewrite (proj2 (Z.eqb_neq (Z.of_nat k) (-1)%Z)) in Hsel by lia.
    rewrite orb_false_r in Hsel.
    assert (is_Some (xs !! k)) as [xr Hxr] by (apply lookup_lt_is_Some_2; lia).
    pose proof (Ha _ _ Hxr ltac:(lia)) as Hxr_v.
    unfold Index._difference_compat in Hsel. rewrite (take_lookup _ _ _ Hxr) in Hsel.
    destruct (decide (k = 0%nat)) as [Hk0|Hk0].
    + (* every label is larger: the first one is selected *)
      subst k. change (Z.of_nat 0 - 1)%Z with (-1)%Z in Hsel.
      assert (is_Some (xs !! (length xs - 1)%nat)) as [xl Hxl] by (apply lookup_lt_is_Some_2; lia).
      rewrite (take_last _ _ Hxl) in Hsel.
      pose proof (Ha _ _ Hxl ltac:(lia)) as Hxl_v.
      assert (xr <= xl)%Q.
      { destruct (decide (length xs - 1 = 0)%nat) as [E0|E0].
        - rewrite E0 in Hxl. rewrite Hxr in Hxl. inversion Hxl; subst. lra.
        - apply Qlt_le_weak. apply (Hinc 0%nat (length xs - 1)%nat); try done. lia. }
      assert (Hcmp : Qltb (Qabs (xl - v)) (Qabs (xr - v)) = false) by (apply Qltb_ge; qabs).
      rewrite Hcmp in Hsel. exists 0%nat. split; [by apply sel_nearest_of_indexer|].
      exists xr. split; [done|]. intros j y Hy.
      pose proof (Ha _ _ Hy ltac:(lia)).
      assert (xr <= y)%Q.
      { destruct (decide (j = 0%nat)) as [->|Hj].
        - rewrite Hxr in Hy. inversion Hy; subst. lra.
        - apply Qlt_le_weak. apply (Hinc 0%nat j); try done. lia. }
      split; [qabs | intros Htie; qabs].
    + (* the target lies between two labels *)
      assert (is_Some (xs !! (k - 1)%nat)) as [xl Hxl] by (apply lookup_lt_is_Some_2; lia).
      pose proof (Hb _ _ Hxl ltac:(lia)) as Hxl_v.
      replace (Z.of_nat k - 1)%Z with (Z.of_nat (k - 1)) in Hsel by lia.
      rewrite (take_lookup _ _ _ Hxl) in Hsel.
      assert (Hside : ∀ j y, xs !! j = Some y →
                ((j < k)%nat ∧ (y <= xl)%Q) ∨ ((k ≤ j)%nat ∧ (xr <= y)%Q)).
      { intros j y Hy. destruct (decide (j < k)%nat) as [Hj|Hj].
        - left. split; [done|]. destruct (decide (j = (k - 1)%nat)) as [->|Hj'].
          + rewrite Hxl in Hy. inversion Hy; subst. lra.
          + apply Qlt_le_weak. apply (Hinc j (k - 1)%nat); try done. lia.
        - right. split; [lia|]. destruct (decide (j = k)) as [->|Hj'].
          + rewrite Hxr in Hy. inversion Hy; subst. lra.
          + apply Qlt_le_weak. apply (Hinc k j); try done. lia. }
      destruct (Qltb (Qabs (xl - v)) (Qabs (xr - v))) eqn:Hcmp.
      * apply Qltb_lt in Hcmp. exists (k - 1)%nat.
        split; [by apply sel_nearest_of_indexer|].
        exists xl. split; [done|]. intros j y Hy.
        destruct (Hside j y Hy) as [[_ Hle]|[_ Hle]]; (split; [qabs | intros Htie; qabs]).
      * apply Qltb_ge in Hcmp. exists k.
        split; [by apply sel_nearest_of_indexer|].
        exists xr. split; [done|]. intros j y Hy.
        destruct (Hside j y Hy) as [[_ Hle]|[_ Hle]]; (split; [qabs | intros Htie; qabs]).
Qed.

(** The selection on a decreasing index of two labels or more. *)
Lemma nearest_decreasing xs v :
  (2 ≤ length xs)%nat → decreasing xs →
  ∃ i, Index.sel_nearest xs v = Ok i ∧ nearest_preferring_larger xs v i.
Proof.
  intros Hn Hdec.
  assert (Hne : xs ≠ []) by (destruct xs; [simpl in Hn; lia | done]).
  pose proof (monotonic_unique xs (or_intror Hdec)) as Hu.
  assert (Hni : Index.is_monotonic_increasing xs = false).
  { destruct xs as [|a [|b r]]; try (simpl in Hn; lia). by apply decreasing_not_increasing. }
  destruct (get_indexer_exact_spec xs v) as [[He Hno]|(e & x & He & Hx & Heq)];
    [|exists e; by eapply nearest_exact].
  destruct (fill_decreasing xs v Hdec Hni He Hno) as (g & Hg & Hpad & Hback & Hb & Ha).
  pose proof (get_indexer_nearest_eq xs v _ _ Hne Hu Hpad Hback) as Hsel.
  rewrite Hni in Hsel.
  destruct (decide (g = length xs)) as [Hgn|Hgn].
  - (* every label is larger: the last one, the smallest, is selected *)
    rewrite (proj2 (Nat.eqb_eq _ _) Hgn) in Hsel. simpl in Hsel. rewrite orb_true_r in Hsel.
    assert (is_Some (xs !! (g - 1)%nat)) as [x Hx] by (apply lookup_lt_is_Some_2; lia).
    exists (g - 1)%nat. split.
    + apply sel_nearest_of_indexer. rewrite Hsel. f_equal. lia.
    + exists x. split; [done|]. intros j y Hy.
      pose proof (lookup_lt_Some _ _ _ Hy) as Lj.
      pose proof (Hb _ _ Hx ltac:(lia)). pose proof (Hb _ _ Hy ltac:(lia)).
      assert (x <= y)%Q.
      { destruct (decide (j = (g - 1)%nat)) as [->|Hj].
        - rewrite Hx in Hy. inversion Hy; subst. lra.
        - apply Qlt_le_weak. apply (Hdec j (g - 1)%nat); try done. lia. }
      split; [qabs | intros Htie; qabs].
  - rewrite (proj2 (Nat.eqb_neq _ _) Hgn) in Hsel.
    rewrite (proj2 (Z.eqb_neq (Z.of_nat g) (-1)%Z)) in Hsel by lia.
    rewrite orb_false_r in Hsel.
    assert (is_Some (xs !! g)) as [xr Hxr] by (apply lookup_lt_is_Some_2; lia).
    pose proof (Ha _ _ Hxr ltac:(lia)) as Hxr_v.
    unfold Index._difference_compat in Hsel. rewrite (take_lookup _ _ _ Hxr) in Hsel.
    destruct (decide (g = 0%nat)) as [Hg0|Hg0].
    + (* every label is smaller: the first one, the largest, is selected *)
      subst g. change (Z.of_nat 0 - 1)%Z with (-1)%Z in Hsel.
      assert (is_Some (xs !! (length xs - 1)%nat)) as [xl Hxl] by (apply lookup_lt_is_Some_2; lia).
      rewrite (take_last _ _ Hxl) in Hsel.
      pose proof (Ha _ _ Hxl ltac:(lia)) as Hxl_v.
      assert (xl < xr)%Q by (apply (Hdec 0%nat (length xs - 1)%nat); try done; lia).
      assert (Hcmp : Qleb (Qabs (xl - v)) (Qabs (xr - v)) = false) by (apply Qleb_gt; qabs).
      rewrite Hcmp in Hsel. exists 0%nat. split; [by apply sel_nearest_of_indexer|].
      exists xr. split; [done|]. intros j y Hy.
      pose proof (Ha _ _ Hy ltac:(lia)).
      assert (y <= xr)%Q.
      { destruct (decide (j = 0%nat)) as [->|Hj].
        - rewrite Hxr in Hy. inversion Hy; subst. lra.
        - apply Qlt_le_weak. apply (Hdec 0%nat j); try done. lia. }
      split; [qabs | done].
    + (* the target lies between two labels *)
      assert (is_Some (xs !! (g - 1)%nat)) as [xl Hxl] by (apply lookup_lt_is_Some_2; lia).
      pose proof (Hb _ _ Hxl ltac:(lia)) as Hxl_v.
      replace (Z.of_nat g - 1)%Z with (Z.of_nat (g - 1)) in Hsel by lia.
      rewrite (take_lookup _ _ _ Hxl) in Hsel.
      assert (Hside : ∀ j y, xs !! j = Some y →
                ((j < g)%nat ∧ (xl <= y)%Q) ∨ ((g ≤ j)%nat ∧ (y <= xr)%Q)).
      { intros j y Hy. destruct (decide (j < g)%nat) as [Hj|Hj].
        - left. split; [done|]. destruct (decide (j = (g - 1)%nat)) as [->|Hj'].
          + rewrite Hxl in Hy. inversion Hy; subst. lra.
          + apply Qlt_le_weak. apply (Hdec j (g - 1)%nat); try done. lia.
        - right. split; [lia|]. destruct (decide (j = g)) as [->|Hj'].
          + rewrite Hxr in Hy. inversion Hy; subst. lra.
          + apply Qlt_le_weak. apply (Hdec g j); try done. lia. }
      destruct (Qleb (Qabs (xl - v)) (Qabs (xr - v))) eqn:Hcmp.
      * apply Qleb_le in Hcmp. exists (g - 1)%nat.
        split; [by apply sel_nearest_of_indexer|].
        exists xl. split; [done|]. intros j y Hy.
        destruct (Hside j y Hy) as [[_ Hle]|[_ Hle]]; (split; [qabs | intros Htie; qabs]).
      * apply Qleb_gt in Hcmp. exists g.
        split; [by apply sel_nearest_of_indexer|].
        exists xr. split; [done|]. intros j y Hy.
        destruct (Hside j y Hy) as [[_ Hle]|[_ Hle]]; (split; [qabs | intros Htie; qabs]).
Qed.

(** [sel(..., method='nearest')] on a strictly monotonic axis: it returns a
    position, the label there is a nearest one, and of two nearest labels
    it is the larger. *)
Lemma sel_nearest_spec xs v :
  strictly_monotonic xs →
  ∃ i, Index.sel_nearest xs v = Ok i ∧ nearest_preferring_larger xs v i.
Proof.
  intros [Hne [Hinc|Hdec]]; [by apply nearest_increasing|].
  destruct (decide (2 ≤ length xs)%nat) as [Hn|Hn]; [by apply nearest_decreasing|].
  apply nearest_increasing; [done|].
  intros i j x y Hi Hj Hij. apply lookup_lt_Some in Hi, Hj. lia.
Qed.

(** ** Gridded sources (C1) *)

Lemma read_in_shape taxis lat lon arr i j k :
  grid_shape taxis lat lon arr →
  (i < length taxis)%nat → (j < length lat)%nat → (k < length lon)%nat →
  ∃ v, Xr.read arr i j k = Ok v.
Proof.
  intros [Hlen Hall] Hi Hj Hk. unfold Xr.read.
  assert (is_Some (arr !! i)) as [slab Hslab] by (apply lookup_lt_is_Some_2; lia).
  rewrite Hslab.
  destruct (proj1 (Forall_lookup _ _) Hall i slab Hslab) as [Hs Hrows].
  assert (is_Some (slab !! j)) as [row Hrow] by (apply lookup_lt_is_Some_2; lia).
  rewrite Hrow.
  pose proof (proj1 (Forall_lookup _ _) Hrows j row Hrow) as Hr. simpl in Hr.
  assert (is_Some (row !! k)) as [v Hv] by (apply lookup_lt_is_Some_2; lia).
  rewrite Hv. eauto.
Qed.

Lemma nearest_position_in_range xs v i :
  nearest_preferring_larger xs v i → (i < length xs)%nat.
Proof. intros (x & Hx & _). by eapply lookup_lt_Some. Qed.

Lemma mapR_sel_nearest xs targets :
  strictly_monotonic xs →
  ∃ idx, mapR (Index.sel_nearest xs) targets = Ok idx
         ∧ ∀ p v, targets !! p = Some v →
             ∃ i, idx !! p = Some i ∧ nearest_preferring_larger xs v i.
Proof.
  intros Hm.
  destruct (mapR_total (Index.sel_nearest xs) targets) as [idx Hidx].
  { intros v _. destruct (sel_nearest_spec xs v Hm) as (i & Hi & _). eauto. }
  exists idx. split; [done|]. intros p v Hv.
  destruct (mapR_lookup _ _ _ p v Hidx Hv) as (i & Hi & Hsel).
  destruct (sel_nearest_spec xs v Hm) as (i' & Hi' & Hnear).
  rewrite Hsel in Hi'. inversion Hi'; subst. eauto.
Qed.

(** C1, amended: on a gridded dataset with strictly monotonic axes, the
    value attached to a point is the value of the field at the triple of
    positions selected axis by axis (time, lat, lon), each the position of
    a label nearest to the point's coordinate; where two labels are equally
    near, the larger label is selected, which is the higher position on an
    ascending axis and the lower position on a descending one. *)
Theorem gridded_value_is_at_nearest_triple
    taxis lat lon vars variable arr df lt la lo :
  gridded_source taxis lat lon vars variable arr →
  point_columns df lt la lo →
  ∃ vals,
    extract_gridded (Gridded (Some taxis) lat lon vars) variable df = Ok vals
    ∧ length vals = DataFrame.len df
    ∧ ∀ p t a o, lt !! p = Some t → la !! p = Some a → lo !! p = Some o →
        ∃ i j k v,
          nearest_preferring_larger (map inject_Z taxis) (inject_Z t) i
          ∧ nearest_preferring_larger lat a j
          ∧ nearest_preferring_larger lon o k
          ∧ Xr.read arr i j k = Ok v
          ∧ vals !! p = Some v.
Proof.
  intros (Mt & Ma & Mo & Hvar & Hshape) (Ht & Ha & Ho).
  pose proof (datetimes_length _ _ _ Ht) as Lt.
  pose proof (floats_length _ _ _ Ha) as La.
  pose proof (floats_length _ _ _ Ho) as Lo.
  destruct (mapR_sel_nearest lat la Ma) as (ilat & Eilat & Hilat).
  destruct (mapR_sel_nearest lon lo Mo) as (ilon & Eilon & Hilon).
  destruct (mapR_sel_nearest (map inject_Z taxis) (map inject_Z lt) Mt) as (itime & Eitime & Hitime).
  assert (Eitime' : mapR (λ t, Index.sel_nearest (map inject_Z taxis) (inject_Z t)) lt = Ok itime).
  { clear -Eitime. revert itime Eitime. induction lt as [|t r IH]; intros itime H; [done|].
    simpl in *. destruct (Index.sel_nearest _ (inject_Z t)); simpl in *; [|done].
    destruct (mapR _ (map inject_Z r)) as [ys|] eqn:E; simpl in *; [|done].
    by rewrite (IH ys eq_refl). }
  pose proof (mapR_length _ _ _ Eilat) as Lilat.
  pose proof (mapR_length _ _ _ Eilon) as Lilon.
  pose proof (mapR_length _ _ _ Eitime') as Litime.
  assert (Hread : ∀ p t a o, lt !! p = Some t → la !! p = Some a → lo !! p = Some o →
            ∃ i j k v,
              Xr.zip3 itime ilat ilon !! p = Some (i, j, k)
              ∧ nearest_preferring_larger (map inject_Z taxis) (inject_Z t) i
              ∧ nearest_preferring_larger lat a j
              ∧ nearest_preferring_larger lon o k
              ∧ Xr.read arr i j k = Ok v).
  { intros p t a o Hpt Hpa Hpo.
    destruct (Hitime p (inject_Z t)) as (i & Hi & Ni); [by rewrite list_lookup_fmap, Hpt|].
    destruct (Hilat p a Hpa) as (j & Hj & Nj).
    destruct (Hilon p o Hpo) as (k & Hk & Nk).
    destruct (read_in_shape taxis lat lon arr i j k Hshape) as [v Hv].
    - apply nearest_position_in_range in Ni. by rewrite length_map in Ni.
    - by eapply nearest_position_in_range.
    - by eapply nearest_position_in_range.
    - exists i, j, k, v. split; [by apply zip3_lookup|]. done. }
  unfold extract_gridded. rewrite Ha, Ho, Ht. simpl.
  rewrite Hvar. simpl. rewrite Eilat, Eilon. simpl. rewrite Eitime'. simpl.
  destruct (mapR_total (λ i, Xr.read arr i.1.1 i.1.2 i.2) (Xr.zip3 itime ilat ilon))
    as [vals Hvals].
  { intros [[i j] k] Hin. apply list_elem_of_lookup in Hin as [p Hp].
    apply zip3_lookup in Hp as (Hi & Hj & Hk). simpl in *.
    assert (is_Some (lt !! p)) as [t Hpt].
    { apply lookup_lt_is_Some_2. apply lookup_lt_Some in Hi. lia. }
    assert (is_Some (la !! p)) as [a Hpa].
    { apply lookup_lt_is_Some_2. apply lookup_lt_Some in Hj. lia. }
    assert (is_Some (lo !! p)) as [o Hpo].
    { apply lookup_lt_is_Some_2. apply lookup_lt_Some in Hk. lia. }
    destruct (Hread p t a o Hpt Hpa Hpo) as (i' & j' & k' & v & Hz & _ & _ & _ & Hv).
    apply zip3_lookup in Hz as (Hi' & Hj' & Hk'). simpl in *.
    rewrite Hi in Hi'. rewrite Hj in Hj'. rewrite Hk in Hk'.
    inversion Hi'; inversion Hj'; inversion Hk'; subst. eauto. }
  exists vals. split; [done|]. split.
  - apply mapR_length in Hvals. rewrite Hvals. apply zip3_length_min; lia.
  - intros p t a o Hpt Hpa Hpo.
    destruct (Hread p t a o Hpt Hpa Hpo) as (i & j & k & v & Hz & Ni & Nj & Nk & Hv).
    destruct (mapR_lookup _ _ _ p _ Hvals Hz) as (v' & Hv' & Hr). simpl in Hr.
    rewrite Hv in Hr. inversion Hr; subst. exists i, j, k, v'. done.
Qed.

Lemma ascending_head x r :
  ascending (x :: r) = true → ∀ j y, r !! j = Some y → (x < y)%Q.
Proof.
  revert x. induction r as [|y0 r IH]; intros x H j y Hy; [by rewrite lookup_nil in Hy|].
  change (Qltb x y0 && ascending (y0 :: r) = true) in H.
  apply andb_true_iff in H as [H1 H2]. apply Qltb_lt in H1.
  destruct j as [|j]; simpl in Hy.
  - inversion Hy; subst. done.
  - pose proof (IH y0 H2 j y Hy). lra.
Qed.

Lemma ascending_increasing xs : ascending xs = true → increasing xs.
Proof.
  induction xs as [|x r IH]; intros H i j a b Hi Hj Hij; [by rewrite lookup_nil in Hi|].
  destruct j as [|j]; [lia|]. simpl in Hj. destruct i as [|i]; simpl in Hi.
  - inversion Hi; subst. by eapply ascending_head.
  - apply (IH ltac:(destruct r; [done|]; by apply andb_true_iff in H as [_ H]) i j); [done|done|lia].
Qed.

Lemma descending_head x r :
  descending (x :: r) = true → ∀ j y, r !! j = Some y → (y < x)%Q.
Proof.
  revert x. induction r as [|y0 r IH]; intros x H j y Hy; [by rewrite lookup_nil in Hy|].
  change (Qltb y0 x && descending (y0 :: r) = true) in H.
  apply andb_true_iff in H as [H1 H2]. apply Qltb_lt in H1.
  destruct j as [|j]; simpl in Hy.
  - inversion Hy; subst. done.
  - pose proof (IH y0 H2 j y Hy). lra.
Qed.

Lemma descending_decreasing xs : descending xs = true → decreasing xs.
Proof.
  induction xs as [|x r IH]; intros H i j a b Hi Hj Hij; [by rewrite lookup_nil in Hi|].
  destruct j as [|j]; [lia|]. simpl in Hj. destruct i as [|i]; simpl in Hi.
  - inversion Hi; subst. by eapply descending_head.
  - apply (IH ltac:(destruct r; [done|]; by apply andb_true_iff in H as [_ H]) i j); [done|done|lia].
Qed.

Lemma tie_grid_source :
  gridded_source tie_time tie_lat tie_lon [("sst", tie_arr)] "sst" tie_arr.
Proof.
  split; [|split; [|split; [|split]]].
  - split; [done|]. left. by apply ascending_increasing.
  - split; [done|]. left. by apply ascending_increasing.
  - split; [done|]. left. by apply ascending_increasing.
  - reflexivity.
  - split; [reflexivity|]. repeat constructor.
Qed.

Lemma gridded_value_is_at_nearest_triple_witness :
  ∃ vals,
    extract_gridded tie_grid "sst" tie_point = Ok vals
    ∧ length vals = DataFrame.len tie_point
    ∧ ∀ p t a o,
        [Calendar.to_datetime 2021 1 1] !! p = Some t → [0%Q] !! p = Some a →
        [1%Q] !! p = Some o →
        ∃ i j k v,
          nearest_preferring_larger (map inject_Z tie_time) (inject_Z t) i
          ∧ nearest_preferring_larger tie_lat a j
          ∧ nearest_preferring_larger tie_lon o k
          ∧ Xr.read tie_arr i j k = Ok v
          ∧ vals !! p = Some v.
Proof.
  apply (gridded_value_is_at_nearest_triple tie_time tie_lat tie_lon [("sst", tie_arr)]
           "sst" tie_arr tie_point [Calendar.to_datetime 2021 1 1] [0%Q] [1%Q]).
  - exact tie_grid_source.
  - repeat split; reflexivity.
Defined.

(** C1 as stated resolves a tie to the lower position.  On the ascending
    longitude axis 0, 2 the point at longitude 1 is halfway: the positions
    the claim designates hold the value 10, the value attached is 20, the
    one at the higher position. *)
Lemma tie_on_ascending_axis_takes_higher_index :
  extract_gridded tie_grid "sst" tie_point = Ok [Fin 20]
  ∧ (∀ i j k,
       nearest_preferring_lower_index (map inject_Z tie_time)
         (inject_Z (Calendar.to_datetime 2021 1 1)) i →
       nearest_preferring_lower_index tie_lat 0 j →
       nearest_preferring_lower_index tie_lon 1 k →
       Xr.read tie_arr i j k = Ok (Fin 10))
  ∧ Fin 20 ≠ Fin 10.
Proof.
  split; [reflexivity|]. split; [|discriminate].
  intros i j k (x & Hx & _) (y & Hy & _) (z & Hz & Hk).
  destruct i as [|i]; [|by destruct i].
  destruct j as [|j]; [|by destruct j].
  destruct k as [|[|k]]; [reflexivity | | by destruct k].
  simpl in Hz. inversion Hz; subst z.
  destruct (Hk 0%nat 0%Q eq_refl) as [_ Htie].
  assert (1 <= 0)%nat; [|lia]. apply Htie. reflexivity.
Qed.

(** The same tie on a descending axis goes to the lower position: in both
    cases it is the larger label that wins. *)
Example tie_on_descending_axis :
  Index.sel_nearest [2; 0]%Q 1 = Ok 0%nat ∧ Index.sel_nearest [0; 2]%Q 1 = Ok 1%nat.
Proof. split; reflexivity. Qed.

(** ** The overlap check (C3) *)

(** C3, on inputs where the code departs from it.  The grid and the points
    overlap in all three cases.  With the latitude axis ascending the crop
    is empty and the source is skipped; with the same axis descending it is
    kept, cropped to the one label inside the bounds; and it is skipped
    again, whatever the orientation, when the bounds of the points fall
    between two neighbouring labels. *)
Theorem overlapping_source_is_skipped :
  boxes_overlap [0; 1; 2]%Q [0; 1; 2]%Q mid_bounds mid_bounds
  ∧ crop grid_lat_ascending mid_bounds mid_bounds = Ok None
  ∧ crop grid_lat_descending mid_bounds mid_bounds
    = Ok (Some (Gridded (Some [Calendar.to_datetime 2021 1 1]) [1%Q] [1%Q]
                  [("sss_smap", [[[Fin 5]]])]))
  ∧ boxes_overlap [2; 1; 0]%Q [0; 1; 2]%Q narrow_bounds mid_bounds
  ∧ crop grid_lat_descending narrow_bounds mid_bounds = Ok None.
Proof.
  assert (H0 : (0%Q : Q) ∈ [0; 1; 2]%Q) by repeat constructor.
  assert (H2 : (2%Q : Q) ∈ [0; 1; 2]%Q) by repeat constructor.
  assert (H0' : (0%Q : Q) ∈ [2; 1; 0]%Q) by repeat constructor.
  assert (H2' : (2%Q : Q) ∈ [2; 1; 0]%Q) by repeat constructor.
  split; [|split; [reflexivity|split; [reflexivity|split; [|reflexivity]]]].
  - split; (split; [exists 0%Q | exists 2%Q]); (split; [done|]); by vm_compute.
  - split; (split; [exists 0%Q | exists 2%Q]); (split; [done|]); by vm_compute.
Qed.

(** The same through the loader and the loop: the salinity grid with an
    ascending latitude axis gets no column. *)
Example ascending_latitude_grid_gets_no_column :
  source_values
    (mkEnv (Raise FileNotFoundError)
       (λ _, [mkNcFile "sss.nc" (Some grid_lat_ascending) None]) zero_rng (λ _, 0%Z))
    mid_bounds mid_bounds demo_points (mkSource sss_folder "sss_smap" true false)
  = Ok None.
Proof. reflexivity. Qed.

(** ** The overlap check on sources that do not overlap the points *)

Lemma get_indexer_exact_none xs v :
  (∀ i x, xs !! i = Some x → ¬ (x == v)%Q) → Index.get_indexer_exact xs v = (-1)%Z.
Proof.
  induction xs as [|x r IH]; intros H; [done|]. simpl.
  rewrite (proj2 (Qeqb_neq x v)) by (by apply (H 0%nat)).
  rewrite IH; [done|]. intros i y Hy. by apply (H (S i)).
Qed.

Lemma searchsorted_all_greater xs v s :
  (∀ x, x ∈ xs → (v < x)%Q) → Index.searchsorted xs v s = 0%nat.
Proof.
  destruct xs as [|x r]; [done|]. intros H. simpl.
  assert (v < x)%Q by (apply H; left).
  rewrite (proj2 (Qltb_ge x v)) by lra. rewrite (proj2 (Qleb_gt x v)) by lra.
  by destruct s.
Qed.

Lemma searchsorted_all_less xs v s :
  (∀ x, x ∈ xs → (x < v)%Q) → Index.searchsorted xs v s = length xs.
Proof.
  induction xs as [|x r IH]; intros H; [done|]. simpl.
  assert (x < v)%Q by (apply H; left).
  rewrite (proj2 (Qltb_lt x v)) by lra. rewrite (proj2 (Qleb_le x v)) by lra.
  rewrite IH by (intros; apply H; by right). by destruct s.
Qed.

Lemma elem_of_rev (xs : list Q) x : x ∈ rev xs ↔ x ∈ xs.
Proof. rewrite !list_elem_of_In. symmetry. apply in_rev. Qed.

(** Both bounds of a slice fall on the same position when every label lies
    on one side of both. *)
Lemma slice_indexer_apart xs a b :
  Index.is_monotonic_increasing xs = true ∨ Index.is_monotonic_decreasing xs = true →
  (∀ x, x ∈ xs → (a < x)%Q ∧ (b < x)%Q) ∨ (∀ x, x ∈ xs → (x < a)%Q ∧ (x < b)%Q) →
  ∃ p, Index.slice_indexer xs a b = Ok (p, p).
Proof.
  intros Hmono Hside.
  assert (Hna : Index.get_indexer_exact xs a = (-1)%Z).
  { apply get_indexer_exact_none. intros i x Hx Heq.
    assert (Hin : x ∈ xs) by (apply list_elem_of_lookup; eauto).
    destruct Hside as [H|H]; destruct (H x Hin); lra. }
  assert (Hnb : Index.get_indexer_exact xs b = (-1)%Z).
  { apply get_indexer_exact_none. intros i x Hx Heq.
    assert (Hin : x ∈ xs) by (apply list_elem_of_lookup; eauto).
    destruct Hside as [H|H]; destruct (H x Hin); lra. }
  unfold Index.slice_indexer, Index.get_slice_bound, Index._searchsorted_monotonic.
  rewrite Hna, Hnb. simpl.
  destruct (Index.is_monotonic_increasing xs) eqn:Ei; simpl.
  - destruct Hside as [H|H].
    + rewrite !searchsorted_all_greater by (intros x0 Hx0; by destruct (H x0 Hx0)). eauto.
    + rewrite !searchsorted_all_less by (intros x0 Hx0; by destruct (H x0 Hx0)). eauto.
  - destruct Hmono as [Hm|Hm]; [done|]. rewrite Hm. simpl.
    destruct Hside as [H|H].
    + rewrite !searchsorted_all_greater
        by (intros x0 Hx0; apply (proj1 (elem_of_rev _ _)) in Hx0; by destruct (H x0 Hx0)).
      eauto.
    + rewrite !searchsorted_all_less
        by (intros x0 Hx0; apply (proj1 (elem_of_rev _ _)) in Hx0; by destruct (H x0 Hx0)).
      eauto.
Qed.

Lemma islice_empty {A : Type} p (a : list A) : Index.islice (p, p) a = [].
Proof. unfold Index.islice. simpl. by rewrite Nat.sub_diag. Qed.

Lemma monotonic_flags xs :
  strictly_monotonic xs →
  Index.is_monotonic_increasing xs = true ∨ Index.is_monotonic_decreasing xs = true.
Proof.
  intros [_ [H|H]]; [left; by apply increasing_monotonic | right; by apply decreasing_monotonic].
Qed.

(** On a strictly monotonic axis a label slice never raises. *)
Lemma get_loc_unique xs v e x :
  (∀ i j a b, xs !! i = Some a → xs !! j = Some b → (i < j)%nat → ¬ (a == b)%Q) →
  Index.get_indexer_exact xs v = Z.of_nat e → xs !! e = Some x → (x == v)%Q →
  ∃ stop, Index.get_loc xs v = Ok (e, stop).
Proof.
  intros Hdist He Hx Heq. unfold Index.get_loc. rewrite He.
  rewrite (proj2 (Z.eqb_neq _ _)) by lia. rewrite Nat2Z.id.
  set (stop := (e + Index.run_length (drop e xs) v)%nat).
  assert (Hrun : (1 ≤ Index.run_length (drop e xs) v)%nat).
  { rewrite (drop_S xs x e Hx). simpl. rewrite (proj2 (Qeqb_eq x v) Heq). lia. }
  rewrite get_indexer_exact_none; [eauto|].
  intros i y Hy Hyv. rewrite lookup_drop in Hy.
  apply (Hdist e (stop + i)%nat x y Hx Hy); [unfold stop; lia | lra].
Qed.

Lemma slice_indexer_total xs a b :
  strictly_monotonic xs → ∃ r, Index.slice_indexer xs a b = Ok r.
Proof.
  intros Hm.
  assert (Hdist : ∀ i j x y, xs !! i = Some x → xs !! j = Some y → (i < j)%nat → ¬ (x == y)%Q).
  { destruct Hm as [_ [H|H]]; intros i j x y Hi Hj Hij Heq;
      specialize (H i j x y Hi Hj Hij); lra. }
  assert (Hbound : ∀ v s, ∃ p, Index.get_slice_bound xs v s = Ok p).
  { intros v s. unfold Index.get_slice_bound.
    destruct (get_indexer_exact_spec xs v) as [[He _]|(e & x & He & Hx & Heq)].
    - rewrite He. simpl. unfold Index._searchsorted_monotonic.
      destruct (monotonic_flags xs Hm) as [->| H]; [eauto|].
      rewrite H. destruct (Index.is_monotonic_increasing xs); eauto.
    - rewrite He, (proj2 (Z.eqb_neq _ _)) by lia.
      destruct (get_loc_unique xs v e x Hdist He Hx Heq) as [stop ->]. simpl. eauto. }
  unfold Index.slice_indexer.
  destruct (Hbound a Index.Left) as [lo ->]. destruct (Hbound b Index.Right) as [hi ->].
  simpl. eauto.
Qed.

Lemma min2_max2 (b : Q * Q) :
  (min2 b <= b.1)%Q ∧ (min2 b <= b.2)%Q ∧ (b.1 <= max2 b)%Q ∧ (b.2 <= max2 b)%Q.
Proof.
  unfold min2, max2.
  destruct (Qltb b.2 b.1) eqn:E1; [apply Qltb_lt in E1 | apply Qltb_ge in E1];
    (destruct (Qltb b.1 b.2) eqn:E2; [apply Qltb_lt in E2 | apply Qltb_ge in E2]);
    repeat split; lra.
Qed.

(** The half of C3 that the code keeps: a grid with strictly monotonic axes
    whose latitudes, or longitudes, all lie on one side of the points'
    bounds is skipped, whatever the orientation of its axes, and the check
    does not raise. *)
Lemma apart_source_is_skipped t lat lon vars lat_bounds lon_bounds :
  strictly_monotonic lat → strictly_monotonic lon →
  range_apart lat lat_bounds ∨ range_apart lon lon_bounds →
  crop (Gridded t lat lon vars) lat_bounds lon_bounds = Ok None.
Proof.
  intros Mlat Mlon Hapart. unfold crop, Xr.sel_slices. cbn [fst snd].
  destruct (min2_max2 lat_bounds) as (A1 & A2 & A3 & A4).
  destruct (min2_max2 lon_bounds) as (B1 & B2 & B3 & B4).
  assert (Amm : (min2 lat_bounds <= max2 lat_bounds)%Q) by lra.
  assert (Bmm : (min2 lon_bounds <= max2 lon_bounds)%Q) by lra.
  destruct Hapart as [Ha|Ha].
  - destruct (slice_indexer_apart lat (max2 lat_bounds) (min2 lat_bounds)) as [p ->].
    { by apply monotonic_flags. }
    { destruct Ha as [H|H]; [left | right]; intros x Hx; specialize (H x Hx); split; lra. }
    destruct (slice_indexer_total lon (min2 lon_bounds) (max2 lon_bounds) Mlon) as [r ->].
    simpl. by rewrite islice_empty.
  - destruct (slice_indexer_total lat (max2 lat_bounds) (min2 lat_bounds) Mlat) as [r ->].
    destruct (slice_indexer_apart lon (min2 lon_bounds) (max2 lon_bounds)) as [p ->].
    { by apply monotonic_flags. }
    { destruct Ha as [H|H]; [left | right]; intros x Hx; specialize (H x Hx); split; lra. }
    simpl. rewrite islice_empty. simpl. by rewrite orb_true_r.
Qed.

(** ** The presence table (step 2) *)

Lemma at_fmap {A : Type} (f : A → cell) (l : list A) i x :
  l !! i = Some x → DataFrame.at_ i (map f l) = f x.
Proof.
  intros H. unfold DataFrame.at_. apply nth_lookup_Some.
  by rewrite list_lookup_fmap, H.
Qed.

Lemma required_cases c :
  c ∈ required_columns → c = "eventDate" ∨ c = "decimalLatitude" ∨ c = "decimalLongitude".
Proof.
  unfold required_columns. intros H.
  apply elem_of_cons in H as [->|H]; [by left|].
  apply elem_of_cons in H as [->|H]; [right; by left|].
  apply list_elem_of_singleton in H as ->. right; by right.
Qed.

Lemma file_columns_required f c : c ∈ file_columns f → c ∈ required_columns.
Proof. unfold file_columns. intros H. by apply list_elem_of_filter in H as [H _]. Qed.

(** The position of a coordinate column leads back to the column of the
    file it was renamed from. *)
Lemma renamed_position f name i :
  DataFrame.index_of name (map coordinate_name (file_columns f)) = Some i →
  ∃ c, file_columns f !! i = Some c ∧ c ∈ required_columns ∧ coordinate_name c = name.
Proof.
  intros H. apply index_of_Some in H as [H _]. rewrite list_lookup_fmap in H.
  destruct (file_columns f !! i) as [c|] eqn:E; [|discriminate].
  simpl in H. inversion H. exists c. split; [done|]. split; [|done].
  apply (file_columns_required f). apply list_elem_of_lookup. eauto.
Qed.

Lemma renamed_found f c :
  c ∈ required_columns → (∀ c, c ∈ required_columns → c ∈ header f) →
  ∃ i, DataFrame.index_of (coordinate_name c) (map coordinate_name (file_columns f)) = Some i.
Proof.
  intros Hc Hreq.
  destruct (DataFrame.index_of (coordinate_name c) (map coordinate_name (file_columns f)))
    as [i|] eqn:E; [eauto|].
  apply index_of_None in E. exfalso. apply E. apply list_elem_of_fmap. exists c.
  split; [done|]. unfold file_columns. apply list_elem_of_filter. split; [done | by apply Hreq].
Qed.

Lemma zip_with_insert_id (rows : list (list cell)) (g : list cell → cell) i :
  (∀ r, r ∈ rows → r !! i = Some (g r)) →
  zip_with (λ r v, <[i:=v]> r) rows (map g rows) = rows.
Proof.
  induction rows as [|r rest IH]; intros H; [done|]. simpl.
  rewrite list_insert_id by (apply H; left). f_equal. apply IH. intros; apply H; by right.
Qed.

(** A record passes [dropna] and the date filter exactly when it is usable. *)
Lemma row_kept_iff f rec i :
  (∀ c, c ∈ required_columns → c ∈ header f) →
  file_columns f !! i = Some "eventDate" →
  (forallb (λ c, negb (DataFrame.cell_isna c)) (map (raw_cell rec) (file_columns f)) = true
   ∧ in_date_range i (map (raw_cell rec) (file_columns f)) = true)
  ↔ usable rec = true.
Proof.
  intros Hreq Hi.
  assert (Hin : ∀ c, c ∈ required_columns → raw_cell rec c ∈ map (raw_cell rec) (file_columns f)).
  { intros c Hc. apply list_elem_of_fmap. exists c. split; [done|].
    unfold file_columns. apply list_elem_of_filter. split; [done | by apply Hreq]. }
  unfold in_date_range. rewrite (at_fmap _ _ _ _ Hi). rewrite forallb_forall.
  unfold usable, raw_cell at 2. cbn -[Calendar.to_datetime].
  split.
  - intros [Hall Hrange].
    pose proof (Hall _ (proj1 (list_elem_of_In _ _) (Hin "decimalLatitude" ltac:(by repeat constructor)))) as Ha.
    pose proof (Hall _ (proj1 (list_elem_of_In _ _) (Hin "decimalLongitude" ltac:(by repeat constructor)))) as Ho.
    unfold raw_cell in Ha, Ho. cbn in Ha, Ho.
    destruct (eventDate rec) as [t|]; [|done].
    destruct (decimalLatitude rec); [done|]. destruct (decimalLongitude rec); [done|]. done.
  - intros Hu.
    destruct (eventDate rec) as [t|] eqn:Et; [|done].
    destruct (decimalLatitude rec) eqn:Ea; [done|].
    destruct (decimalLongitude rec) eqn:Eo; [done|].
    split; [|done]. intros x Hx. apply list_elem_of_In, list_elem_of_fmap in Hx as (c & -> & Hc).
    apply (file_columns_required f), required_cases in Hc as [-> | [-> | ->]];
      unfold raw_cell; cbn; by rewrite ?Et, ?Ea, ?Eo.
Qed.

Lemma filter_filter_fmap {A B : Type} (row : A → B) (C R : B → Prop) (U : A → Prop)
    `{∀ x, Decision (C x)} `{∀ x, Decision (R x)} `{∀ x, Decision (U x)} (recs : list A) :
  (∀ rec, (C (row rec) ∧ R (row rec)) ↔ U rec) →
  filter R (filter C (map row recs)) = map row (filter U recs).
Proof.
  intros Hiff. induction recs as [|rec rest IH]; [done|].
  cbn [map]. rewrite (filter_cons C), (filter_cons U).
  destruct (decide (C (row rec))) as [Hc|Hc].
  - rewrite (filter_cons R). destruct (decide (R (row rec))) as [Hr|Hr].
    + rewrite decide_True by (by apply Hiff). cbn [map]. by rewrite IH.
    + rewrite decide_False by (intros Hu; apply Hiff in Hu; tauto). done.
  - rewrite decide_False by (intros Hu; apply Hiff in Hu; tauto). done.
Qed.

(** What [load_presence] returns when the file has the three columns: the
    kept columns under their new names, and one row per usable record, in
    the order of the file. *)
Lemma load_presence_eq env f :
  occurrence env = Ok f →
  (∀ c, c ∈ required_columns → c ∈ header f) →
  load_presence env =
    Ok (mkFrame (map coordinate_name (file_columns f))
          (map (λ r, map (raw_cell r) (file_columns f))
               (filter (λ r, usable r = true) (records f)))).
Proof.
  intros Hf Hreq. unfold load_presence. rewrite Hf. cbn [mbind result_bind].
  unfold read_csv.
  assert (Eall : forallb (λ c, bool_decide (c ∈ header f)) required_columns = true).
  { apply forallb_forall. intros c Hc. apply bool_decide_eq_true, Hreq.
    by apply list_elem_of_In. }
  rewrite Eall. cbn [mbind result_bind].
  fold (file_columns f).
  set (rows0 := map (λ r, map (raw_cell r) (file_columns f)) (records f)).
  set (df0 := DataFrame.rename _ _).
  assert (Hdf0 : df0 = mkFrame (map coordinate_name (file_columns f)) rows0).
  { pose proof (rename_columns (mkFrame (file_columns f) rows0)) as Hc. fold df0 in Hc.
    destruct df0 as [c0 r0] eqn:E0. simpl in Hc. subst c0. f_equal.
    unfold df0, DataFrame.rename in E0. by inversion E0. }
  destruct (renamed_found f "eventDate" ltac:(by repeat constructor) Hreq) as [i Hi].
  change (coordinate_name "eventDate") with "time" in Hi.
  destruct (renamed_position f "time" i Hi) as (c & Hci & Hcreq & Hcname).
  assert (c = "eventDate") as ->.
  { apply required_cases in Hcreq as [-> | [-> | ->]]; [done | discriminate Hcname ..]. }
  assert (Hcoerce : to_datetime_coerce df0 = Ok df0).
  { unfold to_datetime_coerce, DataFrame.get_column. rewrite Hdf0. cbn [columns rows].
    rewrite Hi. cbn [mbind result_bind]. unfold DataFrame.set_column, DataFrame.len.
    cbn [columns rows]. rewrite !length_map, Nat.eqb_refl. cbn [negb]. rewrite Hi.
    do 2 f_equal. rewrite map_map. apply zip_with_insert_id.
    intros r Hr. unfold rows0 in Hr. apply list_elem_of_fmap in Hr as (rec & -> & _).
    rewrite list_lookup_fmap, Hci. cbn [fmap option_fmap option_map].
    rewrite (at_fmap _ _ _ _ Hci). unfold raw_cell. cbn. by destruct (eventDate rec). }
  rewrite Hcoerce. cbn [mbind result_bind].
  change (columns (DataFrame.dropna df0)) with (columns df0).
  rewrite Hdf0. cbn [columns]. rewrite Hi.
  unfold DataFrame.where_, DataFrame.dropna. cbn [columns rows]. do 2 f_equal.
  unfold rows0. apply (filter_filter_fmap (λ r, map (raw_cell r) (file_columns f))).
  intros rec. by apply row_kept_iff.
Qed.

Lemma load_presence_frame env presence :
  load_presence env = Ok presence →
  ∃ f, occurrence env = Ok f
       ∧ (∀ c, c ∈ required_columns → c ∈ header f)
       ∧ presence =
           mkFrame (map coordinate_name (file_columns f))
             (map (λ r, map (raw_cell r) (file_columns f))
                  (filter (λ r, usable r = true) (records f))).
Proof.
  intros H. destruct (load_presence_columns _ _ H) as (f & Hf & _ & Hreq).
  exists f. split; [done|]. split; [done|].
  rewrite (load_presence_eq env f Hf Hreq) in H. by inversion H.
Qed.

(** A coordinate column of the presence table holds, record by record, the
    cell of the file column it was renamed from. *)
Lemma presence_column f c (recs : list OccRecord) :
  c ∈ required_columns → (∀ c, c ∈ required_columns → c ∈ header f) →
  DataFrame.get_column
    (mkFrame (map coordinate_name (file_columns f))
       (map (λ r, map (raw_cell r) (file_columns f)) recs)) (coordinate_name c)
  = Ok (map (λ r, raw_cell r c) recs).
Proof.
  intros Hc Hreq. unfold DataFrame.get_column. cbn [columns rows].
  destruct (renamed_found f c Hc Hreq) as [i Hi]. rewrite Hi.
  destruct (renamed_position f _ i Hi) as (c' & Hci & Hc' & Hname).
  assert (c' = c) as ->.
  { apply required_cases in Hc as [-> | [-> | ->]];
      apply required_cases in Hc' as [-> | [-> | ->]]; done || discriminate Hname. }
  f_equal. rewrite map_map. apply map_ext. intros r. by apply at_fmap.
Qed.

Lemma mapR_fmap_ok {A B C : Type} (f : B → result C) (g : A → B) (h : A → C) (xs : list A) :
  (∀ x, x ∈ xs → f (g x) = Ok (h x)) → mapR f (map g xs) = Ok (map h xs).
Proof.
  induction xs as [|x r IH]; intros H; [done|]. cbn [map mapR].
  rewrite (H x) by left. cbn [mbind result_bind].
  rewrite IH by (intros; apply H; by right). done.
Qed.

(** The whole of step 2, read on the records of the file. *)
Lemma load_presence_spec env presence :
  load_presence env = Ok presence →
  ∃ f, occurrence env = Ok f
       ∧ columns presence = map coordinate_name (file_columns f)
       ∧ rows presence =
           map (λ r, map (raw_cell r) (file_columns f))
             (filter (λ r, usable r = true) (records f))
       ∧ DataFrame.datetimes presence "time"
         = Ok (map time_of (filter (λ r, usable r = true) (records f)))
       ∧ DataFrame.floats presence "lat"
         = Ok (map lat_of (filter (λ r, usable r = true) (records f)))
       ∧ DataFrame.floats presence "lon"
         = Ok (map lon_of (filter (λ r, usable r = true) (records f))).
Proof.
  intros H. apply load_presence_frame in H as (f & Hf & Hreq & ->).
  exists f. split; [done|]. split; [done|]. split; [done|].
  assert (Hu : ∀ r, r ∈ filter (λ r, usable r = true) (records f) → usable r = true).
  { intros r Hr. by apply list_elem_of_filter in Hr as [Hr _]. }
  unfold DataFrame.datetimes, DataFrame.floats.
  change "time" with (coordinate_name "eventDate").
  change "lat" with (coordinate_name "decimalLatitude").
  change "lon" with (coordinate_name "decimalLongitude").
  rewrite !presence_column by (done || in_list). cbn [mbind result_bind].
  assert (Hu' : ∀ r, r ∈ filter (λ r, usable r = true) (records f) →
                 ∃ t a o, eventDate r = Some t ∧ decimalLatitude r = Fin a
                          ∧ decimalLongitude r = Fin o).
  { intros r Hr. apply Hu in Hr. unfold usable in Hr.
    destruct (eventDate r) as [t|]; [|done].
    destruct (decimalLatitude r) as [|a]; [done|].
    destruct (decimalLongitude r) as [|o]; [done|]. by exists t, a, o. }
  split; [|split]; apply mapR_fmap_ok; intros r Hr;
    destruct (Hu' r Hr) as (t & a & o & Et & Ea & Eo);
    unfold raw_cell, time_of, lat_of, lon_of; cbn; by rewrite ?Et, ?Ea, ?Eo.
Qed.

(** X1: the presence table of step 2 has one row per usable record of the
    occurrence file, in the order of the file: a record whose date parses
    and lies within the configured range and whose two coordinates are
    present.  Its columns are the three kept columns of the file under
    their new names, and its time, lat and lon columns hold the records'
    values. *)
Theorem presence_rows_are_the_usable_records env presence :
  load_presence env = Ok presence →
  ∃ f, occurrence env = Ok f
       ∧ columns presence = map coordinate_name (file_columns f)
       ∧ rows presence =
           map (λ r, map (raw_cell r) (file_columns f))
             (filter (λ r, usable r = true) (records f))
       ∧ DataFrame.datetimes presence "time"
         = Ok (map time_of (filter (λ r, usable r = true) (records f)))
       ∧ DataFrame.floats presence "lat"
         = Ok (map lat_of (filter (λ r, usable r = true) (records f)))
       ∧ DataFrame.floats presence "lon"
         = Ok (map lon_of (filter (λ r, usable r = true) (records f))).
Proof. apply load_presence_spec. Qed.

Lemma presence_rows_are_the_usable_records_witness :
  ∃ f, occurrence (demo_env gbif_header demo_records (Fin 3)) = Ok f
       ∧ columns demo_presence = map coordinate_name (file_columns f)
       ∧ rows demo_presence =
           map (λ r, map (raw_cell r) (file_columns f))
             (filter (λ r, usable r = true) (records f))
       ∧ DataFrame.datetimes demo_presence "time"
         = Ok (map time_of (filter (λ r, usable r = true) (records f)))
       ∧ DataFrame.floats demo_presence "lat"
         = Ok (map lat_of (filter (λ r, usable r = true) (records f)))
       ∧ DataFrame.floats demo_presence "lon"
         = Ok (map lon_of (filter (λ r, usable r = true) (records f))).
Proof.
  apply (presence_rows_are_the_usable_records (demo_env gbif_header demo_records (Fin 3))).
  vm_compute. reflexivity.
Defined.

(** ** The day features (step 7) *)

Lemma index_of_found name cols :
  name ∈ cols → ∃ i, DataFrame.index_of name cols = Some i.
Proof.
  intros H. destruct (DataFrame.index_of name cols) as [i|] eqn:E; [eauto|].
  by apply index_of_None in E.
Qed.

Lemma with_column_computed cols rs name (g : list cell → cell) :
  with_column (mkFrame cols rs) name (map g rs)
  = mkFrame (cols ++ [name]) (map (λ r, r ++ [g r]) rs).
Proof.
  unfold with_column. cbn [columns rows]. f_equal.
  induction rs as [|r rest IH]; [done|]. cbn. by rewrite IH.
Qed.

Lemma at_last (r : list cell) x n : length r = n → DataFrame.at_ n (r ++ [x]) = x.
Proof.
  intros <-. unfold DataFrame.at_. apply nth_lookup_Some.
  rewrite lookup_app_r by lia. by rewrite Nat.sub_diag.
Qed.

Lemma at_old (r : list cell) x i : (i < length r)%nat → DataFrame.at_ i (r ++ [x]) = DataFrame.at_ i r.
Proof. intros H. unfold DataFrame.at_. by rewrite app_nth1. Qed.

Lemma add_day_features_eq df i :
  well_formed df →
  DataFrame.index_of "time" (columns df) = Some i →
  (∀ c, c ∈ ["day_of_year"; "day_sin"; "day_cos"] → c ∉ columns df) →
  add_day_features df =
    Ok (mkFrame (columns df ++ ["day_sin"; "day_cos"])
          (map (λ r, r ++ [day_sin_of (DataFrame.at_ i r); day_cos_of (DataFrame.at_ i r)])
               (rows df))).
Proof.
  intros Hwf Hi Hfresh. destruct df as [cols rs]. cbn [columns rows] in *.
  unfold well_formed in Hwf. cbn [columns rows] in Hwf.
  unfold add_day_features, DataFrame.get_column. cbn [columns rows]. rewrite Hi.
  cbn [mbind result_bind].
  set (doy := λ c, match c with Datetime t => Int (Calendar.dayofyear t) | _ => Float NaN end).
  set (gs := λ c, match c with Int d => Sin2Pi (inject_Z d / 365) | _ => Float NaN end).
  set (gc := λ c, match c with Int d => Cos2Pi (inject_Z d / 365) | _ => Float NaN end).
  rewrite (map_map (DataFrame.at_ i) doy).
  rewrite set_column_fresh; cbn [columns rows];
    [| apply Hfresh; in_list | unfold DataFrame.len; cbn [rows]; by rewrite length_map].
  cbn [mbind result_bind].
  rewrite (with_column_computed cols rs "day_of_year" (λ r, doy (DataFrame.at_ i r))).
  cbn [columns rows].
  rewrite index_of_fresh by (apply Hfresh; in_list).
  cbn [mbind result_bind]. rewrite !map_map.
  set (df1 := mkFrame (cols ++ ["day_of_year"]) _).
  assert (Hdoy : ∀ (g : cell → cell),
            map (λ r, g (DataFrame.at_ (length cols) (r ++ [doy (DataFrame.at_ i r)]))) rs
            = map (λ r, g (doy (DataFrame.at_ i r))) rs).
  { intros g. apply Forall_fmap_ext. eapply Forall_impl; [exact Hwf|].
    intros r Hr. cbn beta. by rewrite at_last. }
  rewrite (Hdoy gs), (Hdoy gc).
  assert (Hn1 : "day_sin" ∉ columns df1).
  { cbn [df1 columns]. rewrite elem_of_app. intros [H|H]; [by apply (Hfresh "day_sin"); [in_list|]|].
    revert H. not_in_list. }
  rewrite set_column_fresh;
    [| exact Hn1 | unfold DataFrame.len; cbn [df1 rows]; by rewrite !length_map].
  cbn [mbind result_bind].
  assert (Hw2 : with_column df1 "day_sin" (map (λ r, gs (doy (DataFrame.at_ i r))) rs)
                = mkFrame ((cols ++ ["day_of_year"]) ++ ["day_sin"])
                    (map (λ r, (r ++ [doy (DataFrame.at_ i r)]) ++ [gs (doy (DataFrame.at_ i r))]) rs)).
  { unfold with_column. cbn [df1 columns rows]. f_equal.
    clear. induction rs as [|r rest IH]; [done|]. cbn [map zip_with]. by rewrite IH. }
  rewrite Hw2. clear Hw2.
  set (df2 := mkFrame ((cols ++ ["day_of_year"]) ++ ["day_sin"]) _).
  assert (Hn2 : "day_cos" ∉ columns df2).
  { cbn [df2 columns]. rewrite !elem_of_app. intros [[H|H]|H];
      [by apply (Hfresh "day_cos"); [in_list|] | revert H; not_in_list | revert H; not_in_list]. }
  rewrite set_column_fresh;
    [| exact Hn2 | unfold DataFrame.len; cbn [df2 rows]; by rewrite !length_map].
  cbn [mbind result_bind].
  unfold DataFrame.drop, with_column. cbn [df2 columns rows].
  rewrite (index_of_app_l _ _ _ (length cols));
    [| apply index_of_app_l, index_of_fresh; apply Hfresh; in_list ].
  f_equal. f_equal.
  - rewrite <- !app_assoc. cbn [app]. by rewrite delete_middle.
  - clear -Hwf. induction rs as [|r rest IH]; [done|].
    apply Forall_cons in Hwf as [Hr Hrest]. cbn [map zip_with]. rewrite IH by done.
    f_equal. rewrite <- !app_assoc. cbn [app]. rewrite <- Hr, delete_middle.
    cbn. f_equal. unfold doy, gs, gc, day_sin_of, day_cos_of.
    by destruct (DataFrame.at_ i r).
Qed.

(** X2: step 7 appends exactly two columns, [day_sin] and [day_cos], in
    that order, and changes nothing else: every row keeps its cells and
    gains the sine and the cosine of [2 * pi * dayofyear / 365] of its own
    time; the helper column [day_of_year] does not remain. *)
Theorem day_features_are_appended df :
  well_formed df →
  "time" ∈ columns df →
  (∀ c, c ∈ ["day_of_year"; "day_sin"; "day_cos"] → c ∉ columns df) →
  ∃ i, DataFrame.index_of "time" (columns df) = Some i
       ∧ add_day_features df =
           Ok (mkFrame (columns df ++ ["day_sin"; "day_cos"])
                 (map (λ r, r ++ [day_sin_of (DataFrame.at_ i r);
                                  day_cos_of (DataFrame.at_ i r)]) (rows df))).
Proof.
  intros Hwf Htime Hfresh. destruct (index_of_found _ _ Htime) as [i Hi].
  exists i. split; [done|]. by apply add_day_features_eq.
Qed.

Lemma day_features_are_appended_witness :
  ∃ i, DataFrame.index_of "time" (columns tie_point) = Some i
       ∧ add_day_features tie_point =
           Ok (mkFrame (columns tie_point ++ ["day_sin"; "day_cos"])
                 (map (λ r, r ++ [day_sin_of (DataFrame.at_ i r);
                                  day_cos_of (DataFrame.at_ i r)]) (rows tie_point))).
Proof.
  apply (day_features_are_appended tie_point).
  - repeat constructor.
  - repeat constructor.
  - intros c Hc Hin. vm_compute in Hin.
    repeat (apply elem_of_cons in Hc as [->|Hc];
            [repeat (apply elem_of_cons in Hin as [Hin|Hin]; [discriminate Hin|]);
             by apply elem_of_nil in Hin|]).
    by apply elem_of_nil in Hc.
Defined.

(** ** Saving (step 8) *)

Lemma mapR_of_Forall2 {A B : Type} (f : A → result B) (xs : list A) (ys : list B) :
  Forall2 (λ x y, f x = Ok y) xs ys → mapR f xs = Ok ys.
Proof.
  induction 1 as [|x y xs ys Hxy _ IH]; [done|].
  cbn [mapR]. rewrite Hxy. cbn [mbind result_bind]. by rewrite IH.
Qed.

Lemma index_of_lookup cols j c :
  NoDup cols → cols !! j = Some c → DataFrame.index_of c cols = Some j.
Proof.
  intros Hnd Hj.
  destruct (index_of_found c cols) as [i Hi]; [apply list_elem_of_lookup; eauto|].
  rewrite Hi. f_equal. apply index_of_Some in Hi as [Hi _].
  by eapply NoDup_lookup.
Qed.

Lemma positions_of_columns cols :
  NoDup cols →
  Forall2 (λ c j, match DataFrame.index_of c cols with
                  | Some i => Ok i
                  | None => Raise KeyError
                  end = Ok j) cols (seq 0 (length cols)).
Proof.
  intros Hnd. apply Forall2_same_length_lookup_2; [by rewrite length_seq|].
  intros j c j' Hc Hj'. apply lookup_seq in Hj' as [-> _]. cbn [Nat.add].
  by rewrite (index_of_lookup cols j c).
Qed.

Lemma cells_by_position (r : list cell) :
  map (λ j, DataFrame.at_ j r) (seq 0 (length r)) = r.
Proof.
  apply list_eq. intros j. rewrite list_lookup_fmap.
  destruct (decide (j < length r)%nat) as [Hj|Hj].
  - rewrite lookup_seq_lt by done. cbn. unfold DataFrame.at_.
    destruct (lookup_lt_is_Some_2 r j Hj) as [x Hx]. rewrite Hx. f_equal.
    by apply nth_lookup_Some.
  - rewrite lookup_seq_ge by lia. cbn. symmetry. apply lookup_ge_None. lia.
Qed.

Lemma map_delete_comm {A B : Type} (f : A → B) (l : list A) i :
  map f (delete i l) = delete i (map f l).
Proof.
  revert i. induction l as [|x l IH]; intros [|i]; cbn; try done. by rewrite IH.
Qed.

Lemma save_eq df i :
  well_formed df → NoDup (columns df) →
  DataFrame.index_of "presence" (columns df) = Some i →
  rows df ≠ [] →
  save df =
    Ok (Some (mkOutputFile out_dir "model_training_dataset.csv.gz" "gzip"
                (mkFrame (delete i (columns df) ++ ["presence"])
                   (map (λ r, delete i r ++ [DataFrame.at_ i r]) (rows df))))).
Proof.
  intros Hwf Hnd Hi Hrows. destruct df as [cols rs]. cbn [columns rows] in *.
  unfold well_formed in Hwf. cbn [columns rows] in Hwf.
  pose proof (index_of_Some _ _ _ Hi) as [Hci Hlt].
  unfold save, DataFrame.empty. cbn [columns rows].
  destruct cols as [|c0 cols']; [cbn in Hlt; lia|].
  destruct rs as [|r0 rs']; [done|]. cbn [negb].
  set (cols := c0 :: cols') in *. set (rs := r0 :: rs') in *.
  unfold presence_last. rewrite Hi. cbn [mbind result_bind].
  unfold DataFrame.select. cbn [columns rows].
  rewrite (mapR_of_Forall2 _ _ (delete i (seq 0 (length cols)) ++ [i])).
  2:{ apply Forall2_app.
      - apply Forall2_delete. by apply positions_of_columns.
      - constructor; [by rewrite Hi | constructor]. }
  cbn [mbind result_bind]. do 4 f_equal.
  apply Forall_fmap_ext. eapply Forall_impl; [exact Hwf|].
  intros r Hr. cbn beta. rewrite map_app, map_delete_comm, <- Hr, cells_by_position. done.
Qed.

(** X3: step 8 moves the [presence] column to the end and leaves the
    other columns in their order; every row is moved the same way, so each
    value stays under its column.  The file is written gzip-compressed as
    [model_training_dataset.csv.gz] in the output directory whenever the
    table has a row. *)
Theorem presence_is_moved_last df :
  well_formed df → NoDup (columns df) →
  "presence" ∈ columns df →
  rows df ≠ [] →
  ∃ i, columns df !! i = Some "presence"
       ∧ save df =
           Ok (Some (mkOutputFile out_dir "model_training_dataset.csv.gz" "gzip"
                       (mkFrame (delete i (columns df) ++ ["presence"])
                          (map (λ r, delete i r ++ [DataFrame.at_ i r]) (rows df))))).
Proof.
  intros Hwf Hnd Hin Hrows. destruct (index_of_found _ _ Hin) as [i Hi].
  exists i. split; [by apply index_of_Some in Hi as [Hi _] | by apply save_eq].
Qed.

Lemma presence_is_moved_last_witness :
  ∃ i, columns (mkFrame ["presence"; "lat"] [[Int 1; Float (Fin 2)]]) !! i = Some "presence"
       ∧ save (mkFrame ["presence"; "lat"] [[Int 1; Float (Fin 2)]]) =
           Ok (Some (mkOutputFile out_dir "model_training_dataset.csv.gz" "gzip"
                       (mkFrame (delete i ["presence"; "lat"] ++ ["presence"])
                          (map (λ r, delete i r ++ [DataFrame.at_ i r])
                               [[Int 1; Float (Fin 2)]])))).
Proof.
  apply (presence_is_moved_last (mkFrame ["presence"; "lat"] [[Int 1; Float (Fin 2)]])).
  - repeat constructor.
  - apply (bool_decide_unpack _). by vm_compute.
  - repeat constructor.
  - discriminate.
Defined.

(** ** An occurrence file that cannot be used *)




(** ** All points (step 4) *)

Lemma at_insert_ne (r : list cell) i j v :
  i ≠ j → DataFrame.at_ j (<[i:=v]> r) = DataFrame.at_ j r.
Proof.
  intros Hij. unfold DataFrame.at_.
  destruct (r !! j) as [x|] eqn:E.
  - rewrite (nth_lookup_Some _ _ _ x E). apply nth_lookup_Some.
    by rewrite list_lookup_insert_ne.
  - apply lookup_ge_None in E. rewrite !nth_overflow; [done | lia |].
    rewrite length_insert. lia.
Qed.

Lemma at_insert_eq (r : list cell) i v :
  (i < length r)%nat → DataFrame.at_ i (<[i:=v]> r) = v.
Proof.
  intros Hi. unfold DataFrame.at_. apply nth_lookup_Some.
  by apply list_lookup_insert_eq.
Qed.

Lemma get_column_set_scalar_other df name v c :
  well_formed df → c ≠ name →
  DataFrame.get_column (DataFrame.set_scalar df name v) c = DataFrame.get_column df c.
Proof.
  intros Hwf Hne. unfold DataFrame.set_scalar, DataFrame.get_column.
  destruct (DataFrame.index_of name (columns df)) as [i|] eqn:Ei; cbn [columns rows].
  - destruct (DataFrame.index_of c (columns df)) as [j|] eqn:Ej; [|done].
    f_equal. rewrite map_map. apply map_ext. intros r. apply at_insert_ne.
    intros ->. apply index_of_Some in Ei as [Ei _]. apply index_of_Some in Ej as [Ej _].
    congruence.
  - destruct (DataFrame.index_of c (columns df)) as [j|] eqn:Ej.
    + rewrite (index_of_app_l _ _ _ j Ej). f_equal. rewrite map_map.
      apply Forall_fmap_ext. eapply Forall_impl; [exact Hwf|].
      intros r Hr. cbn beta. apply at_old. rewrite Hr. by apply index_of_Some in Ej as [_ Ej].
    + apply index_of_None in Ej. rewrite index_of_app_r by done. cbn.
      destruct (String.eqb name c) eqn:E; [|done].
      apply String.eqb_eq in E. congruence.
Qed.

Lemma get_column_set_scalar_same df name v :
  well_formed df →
  DataFrame.get_column (DataFrame.set_scalar df name v) name
  = Ok (replicate (DataFrame.len df) v).
Proof.
  intros Hwf. unfold DataFrame.set_scalar, DataFrame.get_column, DataFrame.len.
  unfold well_formed in Hwf.
  destruct (DataFrame.index_of name (columns df)) as [i|] eqn:Ei; cbn [columns rows].
  - rewrite Ei. f_equal. rewrite map_map. apply index_of_Some in Ei as [_ Ei].
    induction Hwf as [|r rest Hr _ IH]; [done|]. cbn [map length replicate].
    rewrite IH. f_equal. apply at_insert_eq. by rewrite Hr.
  - apply index_of_None in Ei. rewrite index_of_fresh by done. f_equal. rewrite map_map.
    induction Hwf as [|r rest Hr _ IH]; [done|]. cbn [map length replicate].
    rewrite IH. f_equal. by apply at_last.
Qed.

(** [pd.concat] aligns the two frames by column name. *)
Lemma get_column_concat a b c ca cb :
  DataFrame.get_column a c = Ok ca → DataFrame.get_column b c = Ok cb →
  DataFrame.get_column (DataFrame.concat a b) c = Ok (ca ++ cb).
Proof.
  unfold DataFrame.get_column. intros Ha Hb.
  destruct (DataFrame.index_of c (columns a)) as [i|] eqn:Ei; [|discriminate].
  destruct (DataFrame.index_of c (columns b)) as [j|] eqn:Ej; [|discriminate].
  inversion Ha; inversion Hb. unfold DataFrame.concat. cbn [columns rows].
  set (cols := columns a ++ _).
  assert (Hi : DataFrame.index_of c cols = Some i) by by apply index_of_app_l.
  rewrite Hi. f_equal. rewrite map_app. apply index_of_Some in Hi as [Hi _].
  unfold DataFrame.reindex. rewrite !map_map.
  f_equal; apply map_ext; intros r; rewrite (at_fmap _ _ _ _ Hi); [by rewrite Ei | by rewrite Ej].
Qed.

Lemma set_scalar_well_formed df name v :
  well_formed df → well_formed (DataFrame.set_scalar df name v).
Proof.
  unfold well_formed, DataFrame.set_scalar. intros Hwf.
  destruct (DataFrame.index_of name (columns df)); cbn [columns rows];
    apply Forall_fmap; (eapply Forall_impl; [exact Hwf|]); intros r Hr; cbn.
  - by rewrite length_insert.
  - rewrite !length_app, Hr. done.
Qed.

(** X5: step 4 puts the presence rows first and the pseudo-absence rows
    after them, and aligns the two tables by column name: a column the two
    share holds the values of the presence table followed by those of the
    pseudo-absence table, whatever the order of the columns in each.  The
    [presence] column is 1 on every presence row and 0 on every
    pseudo-absence row. *)
Theorem combined_points_keep_values_and_labels presence pseudo :
  well_formed presence → well_formed pseudo →
  (∀ c cp cq, c ≠ "presence" →
     DataFrame.get_column presence c = Ok cp →
     DataFrame.get_column pseudo c = Ok cq →
     DataFrame.get_column (combine presence pseudo) c = Ok (cp ++ cq))
  ∧ DataFrame.get_column (combine presence pseudo) "presence"
    = Ok (replicate (DataFrame.len presence) (Int 1)
          ++ replicate (DataFrame.len pseudo) (Int 0)).
Proof.
  intros Hp Hq. unfold combine. split.
  - intros c cp cq Hne Hcp Hcq. apply get_column_concat;
      by rewrite get_column_set_scalar_other.
  - apply get_column_concat; by apply get_column_set_scalar_same.
Qed.

Lemma combined_points_keep_values_and_labels_witness :
  (∀ c cp cq, c ≠ "presence" →
     DataFrame.get_column demo_presence c = Ok cp →
     DataFrame.get_column one_presence c = Ok cq →
     DataFrame.get_column (combine demo_presence one_presence) c = Ok (cp ++ cq))
  ∧ DataFrame.get_column (combine demo_presence one_presence) "presence"
    = Ok (replicate (DataFrame.len demo_presence) (Int 1)
          ++ replicate (DataFrame.len one_presence) (Int 0)).
Proof.
  apply (combined_points_keep_values_and_labels demo_presence one_presence);
    repeat constructor.
Defined.

(** ** Loading a source (step 5) *)

Lemma filter_valid_idemp (files : list NcFile) :
  filter (λ f, is_Some (content f)) (filter (λ f, is_Some (content f)) files)
  = filter (λ f, is_Some (content f)) files.
Proof.
  induction files as [|f r IH]; [done|].
  rewrite filter_cons. destruct (decide (is_Some (content f))) as [H|H]; [|done].
  rewrite filter_cons, decide_True by done. by rewrite IH.
Qed.

Lemma filter_valid_none (files : list NcFile) :
  Forall (λ f, content f = None) files → filter (λ f, is_Some (content f)) files = [].
Proof.
  induction 1 as [|f l Hf _ IH]; [done|].
  rewrite filter_cons, decide_False; [done|]. rewrite Hf. by intros [? ?].
Qed.

(** X6: a file of the folder that cannot be opened plays no part in
    loading the source: the result is that of the folder without it.  An
    empty folder raises [FileNotFoundError]; a folder in which no file
    opens raises [ValueError]. *)
Theorem corrupt_files_are_left_out files lat_bounds lon_bounds needs_time_coord :
  open_multifile_dataset [] lat_bounds lon_bounds needs_time_coord = Raise FileNotFoundError
  ∧ (files ≠ [] → Forall (λ f, content f = None) files →
     open_multifile_dataset files lat_bounds lon_bounds needs_time_coord = Raise ValueError)
  ∧ (Exists (λ f, is_Some (content f)) files →
     open_multifile_dataset files lat_bounds lon_bounds needs_time_coord
     = open_multifile_dataset (filter (λ f, is_Some (content f)) files)
         lat_bounds lon_bounds needs_time_coord).
Proof.
  split; [done|]. split.
  - intros Hne Hall. unfold open_multifile_dataset.
    destruct files as [|f0 r]; [done|].
    by rewrite (filter_valid_none _ Hall).
  - intros Hex. unfold open_multifile_dataset. rewrite filter_valid_idemp.
    assert (Hv : filter (λ f, is_Some (content f)) files ≠ []).
    { apply Exists_exists in Hex as (f & Hin & Hf). intros Hnil.
      assert (f ∈ filter (λ f, is_Some (content f)) files) as Hm
        by by apply list_elem_of_filter.
      rewrite Hnil in Hm. by apply elem_of_nil in Hm. }
    destruct files as [|f0 r]; [done|].
    by destruct (filter (λ f, is_Some (content f)) (f0 :: r)).
Qed.

Lemma build_time_gridded t lat lon vars files :
  ∃ t', _build_time_coordinate_from_filenames (Gridded t lat lon vars) files
        = Gridded t' lat lon vars.
Proof.
  unfold _build_time_coordinate_from_filenames.
  destruct (mapR _ files) as [times|]; [|eauto].
  unfold Xr.assign_time. destruct (negb _); eauto.
Qed.

Lemma open_mfdataset_files files ds :
  Xr.open_mfdataset (omap content (filter (λ f, is_Some (content f)) files)) = Ok ds →
  files ≠ [] ∧ filter (λ f, is_Some (content f)) files ≠ [].
Proof.
  intros H. split; intros Hnil; by rewrite Hnil in H.
Qed.

Lemma open_multifile_dataset_eq files ds lat_bounds lon_bounds needs_time_coord :
  Xr.open_mfdataset (omap content (filter (λ f, is_Some (content f)) files)) = Ok ds →
  open_multifile_dataset files lat_bounds lon_bounds needs_time_coord
  = crop (if needs_time_coord
          then _build_time_coordinate_from_filenames ds
                 (filter (λ f, is_Some (content f)) files)
          else ds) lat_bounds lon_bounds.
Proof.
  intros H. destruct (open_mfdataset_files _ _ H) as [H1 H2].
  unfold open_multifile_dataset. destruct files as [|f0 r]; [done|].
  destruct (filter _ (f0 :: r)) as [|v0 vr]; [done|]. by rewrite H.
Qed.

(** X7: a gridded source whose latitudes, or longitudes, all lie on one
    side of the bounds of the presence points is skipped: it adds no
    column, the table is left as it was, and nothing is raised, whatever
    the orientation of its axes. *)
Theorem distant_source_leaves_the_table env lat_bounds lon_bounds df name source
    t lat lon vars :
  Xr.open_mfdataset
    (omap content (filter (λ f, is_Some (content f)) (glob_nc env (folder source))))
  = Ok (Gridded t lat lon vars) →
  strictly_monotonic lat → strictly_monotonic lon →
  range_apart lat lat_bounds ∨ range_apart lon lon_bounds →
  open_multifile_dataset (glob_nc env (folder source)) lat_bounds lon_bounds
    (needs_time source) = Ok None
  ∧ process_source env lat_bounds lon_bounds df name source = Ok df.
Proof.
  intros Hopen Hlat Hlon Hapart.
  assert (Hnone : open_multifile_dataset (glob_nc env (folder source)) lat_bounds lon_bounds
                    (needs_time source) = Ok None).
  { rewrite (open_multifile_dataset_eq _ _ _ _ _ Hopen).
    destruct (needs_time source).
    - destruct (build_time_gridded t lat lon vars
                  (filter (λ f, is_Some (content f)) (glob_nc env (folder source))))
        as [t' ->].
      by apply apart_source_is_skipped.
    - by apply apart_source_is_skipped. }
  split; [done|]. unfold process_source. by rewrite Hnone.
Qed.

Lemma all_below (axis : list Q) (b : Q) :
  forallb (λ x, Qltb x b) axis = true → ∀ x, x ∈ axis → (x < b)%Q.
Proof.
  intros H x Hx. rewrite forallb_forall in H. apply Qltb_lt, H. by apply list_elem_of_In.
Qed.

Lemma distant_source_leaves_the_table_witness :
  open_multifile_dataset
    (glob_nc (demo_env gbif_header demo_records (Fin 3))
       (folder (mkSource chl_folder "chlor_a" true true))) (20, 30)%Q (20, 25)%Q
    (needs_time (mkSource chl_folder "chlor_a" true true)) = Ok None
  ∧ process_source (demo_env gbif_header demo_records (Fin 3)) (20, 30)%Q (20, 25)%Q
      demo_points "chlor_a" (mkSource chl_folder "chlor_a" true true) = Ok demo_points.
Proof.
  eapply (distant_source_leaves_the_table (demo_env gbif_header demo_records (Fin 3))
            (20, 30)%Q (20, 25)%Q demo_points "chlor_a"
            (mkSource chl_folder "chlor_a" true true) None [14; 11; 9]%Q [19; 22; 26]%Q).
  - vm_compute. reflexivity.
  - split; [done|]. right. by apply descending_decreasing.
  - split; [done|]. left. by apply ascending_increasing.
  - left. right. by apply all_below.
Defined.

Lemma mapR_raise {A B : Type} (f : A → result B) (xs : list A) x e :
  x ∈ xs → f x = Raise e → ∃ e', mapR f xs = Raise e'.
Proof.
  intros Hx Hf. induction xs as [|y r IH]; [by apply elem_of_nil in Hx|].
  cbn [mapR]. apply elem_of_cons in Hx as [<-|Hx].
  - rewrite Hf. cbn. eauto.
  - destruct (f y); cbn; [|eauto]. destruct (IH Hx) as [e' ->]. cbn. eauto.
Qed.

Lemma build_time_fails ds files :
  (∃ f, f ∈ files ∧ start_date f = None) ∨ length files ≠ Xr.time_size ds →
  _build_time_coordinate_from_filenames ds files = ds.
Proof.
  intros H. unfold _build_time_coordinate_from_filenames.
  destruct (mapR _ files) as [times|] eqn:E; [|done].
  destruct H as [(f & Hin & Hf)|Hlen].
  - destruct (mapR_raise (λ f, match start_date f with
                               | Some t => Ok t
                               | None => Raise ValueError
                               end) files f ValueError Hin) as [e' He'];
      [by rewrite Hf | congruence].
  - apply mapR_length in E. unfold Xr.assign_time.
    destruct (length times =? Xr.time_size ds)%nat eqn:En; [|done].
    apply Nat.eqb_eq in En. lia.
Qed.

Lemma crop_keeps_time t lat lon vars lat_bounds lon_bounds ds :
  crop (Gridded t lat lon vars) lat_bounds lon_bounds = Ok (Some ds) →
  ∃ lat' lon' vars', ds = Gridded t lat' lon' vars'.
Proof.
  unfold crop, Xr.sel_slices. intros H.
  destruct (Index.slice_indexer lat _ _) as [ilat|e1]; cbn [mbind result_bind] in H.
  - destruct (Index.slice_indexer lon _ _) as [ilon|e2]; cbn [mbind result_bind] in H.
    + destruct (_ || _); [discriminate|]. inversion H. eauto.
    + destruct e2; inversion H; eauto.
  - destruct e1; inversion H; eauto.
Qed.

Lemma extract_gridded_needs_time lat lon vars variable df :
  ∃ e, extract_gridded (Gridded None lat lon vars) variable df = Raise e.
Proof.
  unfold extract_gridded.
  destruct (DataFrame.floats df "lat"); cbn [mbind result_bind]; [|eauto].
  destruct (DataFrame.floats df "lon"); cbn [mbind result_bind]; [|eauto].
  destruct (DataFrame.datetimes df "time"); cbn [mbind result_bind]; eauto.
Qed.

(** X8: a gridded source needs a time axis.  When its files carry no time
    coordinate and their names do not supply one (the source is not marked
    as needing one, a name yields no date, or the dates are not one per
    time step), the extraction fails inside the [try] and the source is
    skipped: the table is left as it was. *)
Theorem source_without_time_axis_is_skipped env lat_bounds lon_bounds df name source
    lat lon vars :
  Xr.open_mfdataset
    (omap content (filter (λ f, is_Some (content f)) (glob_nc env (folder source))))
  = Ok (Gridded None lat lon vars) →
  is_gridded source = true →
  (needs_time source = true →
   (∃ f, f ∈ filter (λ f, is_Some (content f)) (glob_nc env (folder source))
         ∧ start_date f = None)
   ∨ length (filter (λ f, is_Some (content f)) (glob_nc env (folder source)))
     ≠ Xr.time_size (Gridded None lat lon vars)) →
  process_or_skip env lat_bounds lon_bounds df (name, source) = df.
Proof.
  intros Hopen Hgrid Hnames. unfold process_or_skip, process_source. cbn [fst snd].
  rewrite (open_multifile_dataset_eq _ _ _ _ _ Hopen).
  assert ((if needs_time source
           then _build_time_coordinate_from_filenames (Gridded None lat lon vars)
                  (filter (λ f, is_Some (content f)) (glob_nc env (folder source)))
           else Gridded None lat lon vars) = Gridded None lat lon vars) as ->.
  { destruct (needs_time source); [|done]. by apply build_time_fails, Hnames. }
  destruct (crop (Gridded None lat lon vars) lat_bounds lon_bounds) as [[ds|]|e] eqn:Ec;
    cbn [mbind result_bind]; [|done|done].
  apply crop_keeps_time in Ec as (lat' & lon' & vars' & ->). rewrite Hgrid.
  destruct (extract_gridded_needs_time lat' lon' vars' (variable source) df) as [e ->].
  done.
Qed.

Lemma source_without_time_axis_is_skipped_witness :
  process_or_skip undated_env (10, 12)%Q (20, 25)%Q demo_points
    ("chlor_a", mkSource chl_folder "chlor_a" true true) = demo_points.
Proof.
  eapply (source_without_time_axis_is_skipped undated_env (10, 12)%Q (20, 25)%Q demo_points
            "chlor_a" (mkSource chl_folder "chlor_a" true true)).
  - vm_compute. reflexivity.
  - reflexivity.
  - intros _. left.
    exists (mkNcFile "composite.nc" (Some (demo_grid "chlor_a" (Fin 3))) None).
    split; [|reflexivity]. vm_compute. left.
Defined.

(** ** The crop on a grid with descending latitudes and ascending longitudes *)

Lemma increasing_le xs i j x y :
  increasing xs → xs !! i = Some x → xs !! j = Some y → (i ≤ j)%nat → (x <= y)%Q.
Proof.
  intros Hinc Hi Hj Hij. destruct (decide (i = j)) as [->|Hne].
  - rewrite Hi in Hj. inversion Hj. lra.
  - apply Qlt_le_weak. apply (Hinc i j); [done|done|lia].
Qed.

Lemma searchsorted_left_iff xs v i x :
  increasing xs → xs !! i = Some x →
  (i < Index.searchsorted xs v Index.Left)%nat ↔ (x < v)%Q.
Proof.
  intros Hinc Hi. destruct (searchsorted_left_spec xs v) as (Hk & Hlt & Hge).
  split; [by apply Hlt|]. intros Hx.
  destruct (decide (i < Index.searchsorted xs v Index.Left)%nat) as [|Hn]; [done|].
  exfalso. assert (Hlen : (i < length xs)%nat) by (apply lookup_lt_is_Some; eauto).
  destruct (lookup_lt_is_Some_2 xs (Index.searchsorted xs v Index.Left)) as [y Hy]; [lia|].
  pose proof (Hge y Hy).
  pose proof (increasing_le xs _ _ y x Hinc Hy Hi ltac:(lia)). lra.
Qed.

Lemma searchsorted_right_iff xs v i x :
  increasing xs → xs !! i = Some x →
  (i < Index.searchsorted xs v Index.Right)%nat ↔ (x <= v)%Q.
Proof.
  intros Hinc Hi. destruct (searchsorted_right_spec xs v) as (Hk & Hle & Hgt).
  split; [by apply Hle|]. intros Hx.
  destruct (decide (i < Index.searchsorted xs v Index.Right)%nat) as [|Hn]; [done|].
  exfalso. assert (Hlen : (i < length xs)%nat) by (apply lookup_lt_is_Some; eauto).
  destruct (lookup_lt_is_Some_2 xs (Index.searchsorted xs v Index.Right)) as [y Hy]; [lia|].
  pose proof (Hgt y Hy).
  pose proof (increasing_le xs _ _ y x Hinc Hy Hi ltac:(lia)). lra.
Qed.

(** The positions of a label that occurs once. *)
Lemma get_loc_at xs v e x :
  (∀ i j a b, xs !! i = Some a → xs !! j = Some b → (i < j)%nat → ¬ (a == b)%Q) →
  Index.get_indexer_exact xs v = Z.of_nat e → xs !! e = Some x → (x == v)%Q →
  Index.get_loc xs v = Ok (e, S e).
Proof.
  intros Hdist He Hx Heq. unfold Index.get_loc. rewrite He.
  rewrite (proj2 (Z.eqb_neq _ _)) by lia. rewrite Nat2Z.id.
  assert (Hrun : Index.run_length (drop e xs) v = 1%nat).
  { rewrite (drop_S xs x e Hx). cbn [Index.run_length].
    rewrite (proj2 (Qeqb_eq x v) Heq). f_equal.
    destruct (drop (S e) xs) as [|y r] eqn:Ed; [done|]. cbn [Index.run_length].
    rewrite (proj2 (Qeqb_neq y v)); [done|]. intros Hy.
    assert (xs !! (S e + 0)%nat = Some y) as Hy' by (by rewrite <- lookup_drop, Ed).
    apply (Hdist e (S e + 0)%nat x y Hx Hy'); [lia | lra]. }
  rewrite Hrun. replace (e + 1)%nat with (S e) by lia.
  rewrite get_indexer_exact_none; [done|].
  intros i y Hy Hyv. rewrite lookup_drop in Hy.
  apply (Hdist e (S e + i)%nat x y Hx Hy); [lia | lra].
Qed.

Lemma bounds_increasing xs v :
  increasing xs →
  ∃ lo hi, Index.get_slice_bound xs v Index.Left = Ok lo
           ∧ Index.get_slice_bound xs v Index.Right = Ok hi
           ∧ ∀ i x, xs !! i = Some x →
               ((i < lo)%nat ↔ (x < v)%Q) ∧ ((i < hi)%nat ↔ (x <= v)%Q).
Proof.
  intros Hinc. unfold Index.get_slice_bound.
  destruct (get_indexer_exact_spec xs v) as [[He _]|(e & y & He & Hy & Heq)].
  - rewrite He. cbn. unfold Index._searchsorted_monotonic.
    rewrite (increasing_monotonic xs Hinc).
    eexists _, _. split; [done|]. split; [done|]. intros i x Hi.
    split; [by apply searchsorted_left_iff | by apply searchsorted_right_iff].
  - rewrite He, (proj2 (Z.eqb_neq _ _)) by lia.
    rewrite (get_loc_at xs v e y); [|..|done|done|done].
    2:{ intros i j a b Hi Hj Hij Hab. specialize (Hinc i j a b Hi Hj Hij). lra. }
    cbn. exists e, (S e). split; [done|]. split; [done|]. intros i x Hi.
    destruct (decide (i < e)%nat) as [Hlt|Hge].
    + pose proof (Hinc i e x y Hi Hy Hlt). split; split; intros; lra || lia.
    + pose proof (increasing_le xs e i y x Hinc Hy Hi ltac:(lia)).
      destruct (decide (i = e)) as [->|Hne].
      * rewrite Hi in Hy. inversion Hy; subst. split; split; intros; lra || lia.
      * pose proof (Hinc e i y x Hy Hi ltac:(lia)). split; split; intros; lra || lia.
Qed.

Lemma bounds_decreasing xs v :
  decreasing xs → Index.is_monotonic_increasing xs = false →
  ∃ lo hi, Index.get_slice_bound xs v Index.Left = Ok lo
           ∧ Index.get_slice_bound xs v Index.Right = Ok hi
           ∧ ∀ i x, xs !! i = Some x →
               ((i < lo)%nat ↔ (v < x)%Q) ∧ ((i < hi)%nat ↔ (v <= x)%Q).
Proof.
  intros Hdec Hni. unfold Index.get_slice_bound.
  destruct (get_indexer_exact_spec xs v) as [[He _]|(e & y & He & Hy & Heq)].
  - rewrite He. cbn. unfold Index._searchsorted_monotonic.
    rewrite Hni, (decreasing_monotonic xs Hdec).
    eexists _, _. split; [done|]. split; [done|]. intros i x Hi.
    assert (Hlen : (i < length xs)%nat) by (apply lookup_lt_is_Some; eauto).
    assert (Hrev : rev xs !! (length xs - S i)%nat = Some x).
    { rewrite rev_lookup by lia. rewrite <- Hi. f_equal. lia. }
    pose proof (rev_increasing xs Hdec) as Hinc.
    pose proof (searchsorted_right_iff (rev xs) v _ x Hinc Hrev) as Hr.
    pose proof (searchsorted_left_iff (rev xs) v _ x Hinc Hrev) as Hl.
    split; split; intros H.
    + destruct (Qlt_le_dec v x) as [|Hle]; [done|]. apply Hr in Hle. lia.
    + destruct (decide (i < length xs - Index.searchsorted (rev xs) v Index.Right)%nat)
        as [|Hn]; [done|].
      assert (length xs - S i < Index.searchsorted (rev xs) v Index.Right)%nat as Hc by lia.
      apply Hr in Hc. lra.
    + destruct (Qlt_le_dec x v) as [Hlt|]; [|done]. apply Hl in Hlt. lia.
    + destruct (decide (i < length xs - Index.searchsorted (rev xs) v Index.Left)%nat)
        as [|Hn]; [done|].
      assert (length xs - S i < Index.searchsorted (rev xs) v Index.Left)%nat as Hc by lia.
      apply Hl in Hc. lra.
  - rewrite He, (proj2 (Z.eqb_neq _ _)) by lia.
    rewrite (get_loc_at xs v e y); [|..|done|done|done].
    2:{ intros i j a b Hi Hj Hij Hab. specialize (Hdec i j a b Hi Hj Hij). lra. }
    cbn. exists e, (S e). split; [done|]. split; [done|]. intros i x Hi.
    destruct (decide (i < e)%nat) as [Hlt|Hge].
    + pose proof (Hdec i e x y Hi Hy Hlt). split; split; intros; lra || lia.
    + destruct (decide (i = e)) as [->|Hne].
      * rewrite Hi in Hy. inversion Hy; subst. split; split; intros; lra || lia.
      * pose proof (Hdec e i y x Hy Hi ltac:(lia)). split; split; intros; lra || lia.
Qed.

Lemma islice_elem (lohi : nat * nat) (xs : list Q) x :
  x ∈ Index.islice lohi xs ↔ ∃ i, xs !! i = Some x ∧ (lohi.1 ≤ i < lohi.2)%nat.
Proof.
  unfold Index.islice. change (firstn ?n ?l) with (take n l). change (skipn ?n ?l) with (drop n l).
  rewrite list_elem_of_lookup. split.
  - intros [k Hk]. apply lookup_take_Some in Hk as [Hk Hlt]. rewrite lookup_drop in Hk.
    exists (lohi.1 + k)%nat. split; [done | lia].
  - intros (i & Hi & Hlo & Hhi). exists (i - lohi.1)%nat.
    rewrite lookup_take_lt by lia. rewrite lookup_drop. rewrite <- Hi. f_equal. lia.
Qed.

Lemma crop_eq t lat lon vars lat_bounds lon_bounds :
  decreasing lat → (2 ≤ length lat)%nat → increasing lon →
  ∃ ilat ilon,
    (∀ i x, lat !! i = Some x → (ilat.1 ≤ i < ilat.2)%nat ↔ inside lat_bounds x)
    ∧ (∀ i x, lon !! i = Some x → (ilon.1 ≤ i < ilon.2)%nat ↔ inside lon_bounds x)
    ∧ crop (Gridded t lat lon vars) lat_bounds lon_bounds
      = Ok (if (length (Index.islice ilat lat) =? 0)%nat
               || (length (Index.islice ilon lon) =? 0)%nat
            then None
            else Some (Gridded t (Index.islice ilat lat) (Index.islice ilon lon)
                         (sliced ilat ilon vars))).
Proof.
  intros Hdec Hlen Hinc.
  assert (Hni : Index.is_monotonic_increasing lat = false).
  { destruct lat as [|x [|y r]]; [cbn in Hlen; lia ..|]. by apply decreasing_not_increasing. }
  destruct (bounds_decreasing lat (max2 lat_bounds) Hdec Hni) as (lo1 & hi1' & Hlo1 & _ & H1).
  destruct (bounds_decreasing lat (min2 lat_bounds) Hdec Hni) as (lo1' & hi1 & _ & Hhi1 & H2).
  destruct (bounds_increasing lon (min2 lon_bounds) Hinc) as (lo2 & hi2' & Hlo2 & _ & H3).
  destruct (bounds_increasing lon (max2 lon_bounds) Hinc) as (lo2' & hi2 & _ & Hhi2 & H4).
  exists (lo1, hi1), (lo2, hi2). cbn [fst snd]. split; [|split].
  - intros i x Hi. destruct (H1 i x Hi) as [Ha _]. destruct (H2 i x Hi) as [_ Hb].
    unfold inside. split.
    + intros [Hge Hlt]. split; [by apply Hb|].
      destruct (Qlt_le_dec (max2 lat_bounds) x) as [Hc|]; [|done]. apply Ha in Hc. lia.
    + intros [Hmin Hmax]. split; [|by apply Hb].
      destruct (decide (i < lo1)%nat) as [Hc|]; [|lia]. apply Ha in Hc. lra.
  - intros i x Hi. destruct (H3 i x Hi) as [Ha _]. destruct (H4 i x Hi) as [_ Hb].
    unfold inside. split.
    + intros [Hge Hlt]. split; [|by apply Hb].
      destruct (Qlt_le_dec x (min2 lon_bounds)) as [Hc|]; [|done]. apply Ha in Hc. lia.
    + intros [Hmin Hmax]. split; [|by apply Hb].
      destruct (decide (i < lo2)%nat) as [Hc|]; [|lia]. apply Ha in Hc. lra.
  - unfold crop, Xr.sel_slices, Index.slice_indexer. cbn [fst snd].
    rewrite Hlo1, Hhi1, Hlo2, Hhi2. cbn [mbind result_bind Xr.dim_lat Xr.dim_lon].
    by destruct (_ || _).
Qed.

(** X9: on a grid whose latitudes descend and whose longitudes ascend,
    the crop keeps exactly the latitudes and the longitudes that lie within
    the bounds of the presence points, bounds included, in the order of the
    grid, together with their cells; the source is skipped exactly when no
    latitude, or no longitude, of the grid lies within the bounds. *)
Theorem crop_keeps_the_labels_within_bounds t lat lon vars lat_bounds lon_bounds :
  decreasing lat → (2 ≤ length lat)%nat → increasing lon →
  ∃ ilat ilon,
    (∀ i x, lat !! i = Some x → (ilat.1 ≤ i < ilat.2)%nat ↔ inside lat_bounds x)
    ∧ (∀ i x, lon !! i = Some x → (ilon.1 ≤ i < ilon.2)%nat ↔ inside lon_bounds x)
    ∧ (∀ x, x ∈ Index.islice ilat lat ↔ x ∈ lat ∧ inside lat_bounds x)
    ∧ (∀ x, x ∈ Index.islice ilon lon ↔ x ∈ lon ∧ inside lon_bounds x)
    ∧ ((∃ x, x ∈ lat ∧ inside lat_bounds x) → (∃ y, y ∈ lon ∧ inside lon_bounds y) →
       crop (Gridded t lat lon vars) lat_bounds lon_bounds
       = Ok (Some (Gridded t (Index.islice ilat lat) (Index.islice ilon lon)
                     (sliced ilat ilon vars))))
    ∧ (¬ (∃ x, x ∈ lat ∧ inside lat_bounds x) ∨ ¬ (∃ y, y ∈ lon ∧ inside lon_bounds y) →
       crop (Gridded t lat lon vars) lat_bounds lon_bounds = Ok None).
Proof.
  intros Hdec Hlen Hinc.
  destruct (crop_eq t lat lon vars lat_bounds lon_bounds Hdec Hlen Hinc)
    as (ilat & ilon & Hlat & Hlon & Hcrop).
  assert (Elat : ∀ x, x ∈ Index.islice ilat lat ↔ x ∈ lat ∧ inside lat_bounds x).
  { intros x. rewrite islice_elem, list_elem_of_lookup. split.
    - intros (i & Hi & Hr). split; [eauto | by apply (proj1 (Hlat i x Hi))].
    - intros [[i Hi] Hin]. exists i. split; [done | by apply (proj2 (Hlat i x Hi))]. }
  assert (Elon : ∀ x, x ∈ Index.islice ilon lon ↔ x ∈ lon ∧ inside lon_bounds x).
  { intros x. rewrite islice_elem, list_elem_of_lookup. split.
    - intros (i & Hi & Hr). split; [eauto | by apply (proj1 (Hlon i x Hi))].
    - intros [[i Hi] Hin]. exists i. split; [done | by apply (proj2 (Hlon i x Hi))]. }
  exists ilat, ilon. do 4 (split; [done|]). rewrite Hcrop. split.
  - intros (x & Hx) (y & Hy). apply Elat in Hx. apply Elon in Hy.
    destruct (Index.islice ilat lat) as [|? ?]; [by apply elem_of_nil in Hx|].
    destruct (Index.islice ilon lon) as [|? ?]; [by apply elem_of_nil in Hy|]. done.
  - intros [Hn|Hn].
    + destruct (Index.islice ilat lat) as [|x r] eqn:E; [done|].
      exfalso. apply Hn. exists x. apply Elat. left.
    + destruct (Index.islice ilon lon) as [|y r] eqn:E; [by rewrite orb_true_r|].
      exfalso. apply Hn. exists y. apply Elon. left.
Qed.

Lemma crop_keeps_the_labels_within_bounds_witness :
  ∃ ilat ilon,
    (∀ i x, [2; 1; 0]%Q !! i = Some x → (ilat.1 ≤ i < ilat.2)%nat ↔ inside mid_bounds x)
    ∧ (∀ i x, [0; 1; 2]%Q !! i = Some x → (ilon.1 ≤ i < ilon.2)%nat ↔ inside mid_bounds x)
    ∧ (∀ x, x ∈ Index.islice ilat [2; 1; 0]%Q ↔ x ∈ [2; 1; 0]%Q ∧ inside mid_bounds x)
    ∧ (∀ x, x ∈ Index.islice ilon [0; 1; 2]%Q ↔ x ∈ [0; 1; 2]%Q ∧ inside mid_bounds x)
    ∧ ((∃ x, x ∈ [2; 1; 0]%Q ∧ inside mid_bounds x) →
       (∃ y, y ∈ [0; 1; 2]%Q ∧ inside mid_bounds y) →
       crop (Gridded None [2; 1; 0]%Q [0; 1; 2]%Q [("sss_smap", nine)]) mid_bounds mid_bounds
       = Ok (Some (Gridded None (Index.islice ilat [2; 1; 0]%Q)
                     (Index.islice ilon [0; 1; 2]%Q)
                     (sliced ilat ilon [("sss_smap", nine)]))))
    ∧ (¬ (∃ x, x ∈ [2; 1; 0]%Q ∧ inside mid_bounds x)
       ∨ ¬ (∃ y, y ∈ [0; 1; 2]%Q ∧ inside mid_bounds y) →
       crop (Gridded None [2; 1; 0]%Q [0; 1; 2]%Q [("sss_smap", nine)]) mid_bounds mid_bounds
       = Ok None).
Proof.
  apply (crop_keeps_the_labels_within_bounds None [2; 1; 0]%Q [0; 1; 2]%Q
           [("sss_smap", nine)] mid_bounds mid_bounds).
  - by apply descending_decreasing.
  - cbn. lia.
  - by apply ascending_increasing.
Defined.

(** ** The sources are independent of one another *)

Lemma get_column_absent df c : c ∉ columns df → DataFrame.get_column df c = Raise KeyError.
Proof.
  intros H. unfold DataFrame.get_column. by rewrite (proj2 (index_of_None c (columns df)) H).
Qed.

Lemma extract_all_column env lat_bounds lon_bounds points sources c :
  well_formed points →
  (∀ c, c ∈ ["time"; "lat"; "lon"] → c ∈ columns points) →
  NoDup (map fst sources) →
  (∀ ns, ns ∈ sources → ns.1 ∉ columns points) →
  DataFrame.get_column (extract_all env lat_bounds lon_bounds sources points) c =
    if decide (c ∈ columns points) then DataFrame.get_column points c
    else match list_find (λ ns, ns.1 = c) sources with
         | Some (_, ns) =>
             match source_values env lat_bounds lon_bounds points ns.2 with
             | Ok (Some vals) => Ok (map Float vals)
             | _ => Raise KeyError
             end
         | None => Raise KeyError
         end.
Proof.
  intros Hwf Hcoord Hnd Hfresh.
  destruct (extract_all_spec env lat_bounds lon_bounds points sources points
              Hwf (same_points_refl _) Hcoord Hnd Hfresh) as (_ & _ & Hcols & Hold & Hnew).
  destruct (decide (c ∈ columns points)) as [Hc|Hc]; [by apply Hold|].
  destruct (list_find (λ ns, ns.1 = c) sources) as [[k ns]|] eqn:Ef.
  - apply list_find_Some in Ef as (Hk & Hname & _).
    assert (Hin : ns ∈ sources) by (apply list_elem_of_lookup; eauto).
    destruct ns as [name source]. cbn [fst snd] in *. subst name.
    destruct (source_values env lat_bounds lon_bounds points source) as [[vals|]|e] eqn:Ev.
    + by apply (Hnew c source vals).
    + apply get_column_absent. rewrite Hcols, elem_of_app. intros [H|H]; [done|].
      apply list_elem_of_fmap in H as ([n s] & Hn & Hs). cbn [fst] in Hn. subst n.
      apply list_elem_of_filter in Hs as [Hp Hs]. cbn [snd] in Hp.
      assert (s = source) as ->.
      { apply list_elem_of_lookup in Hs as [j Hj]. apply list_elem_of_lookup in Hin as [i Hi].
        assert (i = j) as ->.
        { eapply NoDup_lookup; [exact Hnd | |]; rewrite list_lookup_fmap;
            [by rewrite Hi | by rewrite Hj]. }
        congruence. }
      unfold processed in Hp. by rewrite Ev in Hp.
    + apply get_column_absent. rewrite Hcols, elem_of_app. intros [H|H]; [done|].
      apply list_elem_of_fmap in H as ([n s] & Hn & Hs). cbn [fst] in Hn. subst n.
      apply list_elem_of_filter in Hs as [Hp Hs]. cbn [snd] in Hp.
      assert (s = source) as ->.
      { apply list_elem_of_lookup in Hs as [j Hj]. apply list_elem_of_lookup in Hin as [i Hi].
        assert (i = j) as ->.
        { eapply NoDup_lookup; [exact Hnd | |]; rewrite list_lookup_fmap;
            [by rewrite Hi | by rewrite Hj]. }
        congruence. }
      unfold processed in Hp. by rewrite Ev in Hp.
  - apply get_column_absent. rewrite Hcols, elem_of_app. intros [H|H]; [done|].
    apply list_elem_of_fmap in H as (ns & Hn & Hs).
    apply list_elem_of_filter in Hs as [_ Hs].
    apply list_find_None in Ef. by apply (proj1 (Forall_forall _ _) Ef ns Hs).
Qed.

Lemma list_find_perm (sources sources' : list (string * Source)) c :
  NoDup (map fst sources) → sources' ≡ₚ sources →
  snd <$> list_find (λ ns, ns.1 = c) sources' = snd <$> list_find (λ ns, ns.1 = c) sources.
Proof.
  intros Hnd Hperm.
  assert (Hnd' : NoDup (map fst sources')) by (by rewrite Hperm).
  destruct (list_find (λ ns, ns.1 = c) sources) as [[k ns]|] eqn:Ef;
    destruct (list_find (λ ns, ns.1 = c) sources') as [[k' ns']|] eqn:Ef'; cbn.
  - f_equal. apply list_find_Some in Ef as (Hk & Hname & _).
    apply list_find_Some in Ef' as (Hk' & Hname' & _).
    assert (Hin' : ns' ∈ sources).
    { rewrite <- Hperm. apply list_elem_of_lookup. eauto. }
    apply list_elem_of_lookup in Hin' as [j Hj].
    assert (j = k) as ->.
    { eapply NoDup_lookup; [exact Hnd | |]; rewrite list_lookup_fmap;
        [by rewrite Hj | rewrite Hk; cbn; congruence]. }
    congruence.
  - exfalso. apply list_find_Some in Ef as (Hk & Hname & _).
    apply list_find_None in Ef'.
    assert (Hin : ns ∈ sources') by (rewrite Hperm; apply list_elem_of_lookup; eauto).
    by apply (proj1 (Forall_forall _ _) Ef' ns Hin).
  - exfalso. apply list_find_Some in Ef' as (Hk & Hname & _).
    apply list_find_None in Ef.
    assert (Hin : ns' ∈ sources) by (rewrite <- Hperm; apply list_elem_of_lookup; eauto).
    by apply (proj1 (Forall_forall _ _) Ef ns' Hin).
  - done.
Qed.

(** X10: the sources do not depend on one another: whatever the order in
    which the loop visits them, every column of the resulting table holds
    the same values (the columns themselves come in the order of the
    visits).  A source is read only through the coordinate columns, which
    no source writes. *)
Theorem source_order_does_not_change_values env lat_bounds lon_bounds points
    sources sources' :
  well_formed points →
  (∀ c, c ∈ ["time"; "lat"; "lon"] → c ∈ columns points) →
  NoDup (map fst sources) →
  (∀ ns, ns ∈ sources → ns.1 ∉ columns points) →
  sources' ≡ₚ sources →
  ∀ c, DataFrame.get_column (extract_all env lat_bounds lon_bounds sources' points) c
       = DataFrame.get_column (extract_all env lat_bounds lon_bounds sources points) c.
Proof.
  intros Hwf Hcoord Hnd Hfresh Hperm c.
  assert (Hnd' : NoDup (map fst sources')) by (by rewrite Hperm).
  assert (Hfresh' : ∀ ns, ns ∈ sources' → ns.1 ∉ columns points).
  { intros ns Hns. apply Hfresh. by rewrite <- Hperm. }
  rewrite !extract_all_column by done.
  destruct (decide (c ∈ columns points)); [done|].
  pose proof (list_find_perm sources sources' c Hnd Hperm) as Hfind.
  destruct (list_find _ sources) as [[k ns]|]; destruct (list_find _ sources') as [[k' ns']|];
    cbn in Hfind; try done; by inversion Hfind.
Qed.

Lemma source_order_does_not_change_values_witness :
  DataFrame.get_column
    (extract_all faulty_env (10, 12)%Q (20, 25)%Q (reverse data_sources) demo_points) "ssha"
  = DataFrame.get_column
      (extract_all faulty_env (10, 12)%Q (20, 25)%Q data_sources demo_points) "ssha".
Proof.
  refine (source_order_does_not_change_values faulty_env (10, 12)%Q (20, 25)%Q demo_points
            data_sources (reverse data_sources) _ _ _ _ _ "ssha").
  - repeat constructor.
  - intros c Hc.
    repeat (apply elem_of_cons in Hc as [->|Hc]; [in_list|]). by apply elem_of_nil in Hc.
  - apply (bool_decide_unpack _). by vm_compute.
  - intros ns Hns Hin. vm_compute in Hin.
    repeat (apply elem_of_cons in Hns as [->|Hns];
            [repeat (apply elem_of_cons in Hin as [Hin|Hin]; [discriminate Hin|]);
             by apply elem_of_nil in Hin|]).
    by apply elem_of_nil in Hns.
  - apply reverse_Permutation.
Defined.

Import SstDownloader.

(** ** The downloader (C8) *)

(** A file that is on disk and larger than 10000 bytes is not requested
    again. *)
Lemma download_skips_valid_file server start_date retries w :
  valid_file w (DATA_DIR +:+ "/" +:+ file_name_of start_date) = true →
  download_nc_file server start_date retries w
  = (Some (DATA_DIR +:+ "/" +:+ file_name_of start_date), w).
Proof. intros H. unfold download_nc_file. by rewrite H. Qed.

(** At most [left] requests are sent, each failed one followed by a sleep of
    5 seconds. *)
Lemma attempts_bounded server fname url save_path left w :
  let w' := (attempts server fname url save_path left w).2 in
  (requests w <= requests w' <= requests w + left)%nat
  ∧ (slept w <= slept w' <= slept w + 5 * left)%nat.
Proof.
  revert w. induction left as [|n IH]; intros w; simpl; [lia|].
  destruct (server (requests w) url) as [r|e].
  - destruct (contains "text/html" (content_type r)); simpl; [lia|].
    destruct (status_code r =? 200)%Z.
    + destruct (stream_ok r).
      * destruct (valid_file _ save_path); simpl; lia.
      * specialize (IH (sleep (write_file (sent w) save_path (body r)) 5)). simpl in IH. lia.
    + destruct (status_code r =? 404)%Z; simpl; [lia|].
      specialize (IH (sleep (sent w) 5)). simpl in IH. lia.
  - specialize (IH (sleep (sent w) 5)). simpl in IH. lia.
Qed.

(** When every answer is a transient failure, all [left] attempts are made
    and the target is recorded in the missing-files log; the function
    returns [None], it does not raise. *)
Lemma attempts_exhausted server fname url save_path left w :
  (∀ n, transient (server n url)) →
  let r := attempts server fname url save_path left w in
  r.1 = None
  ∧ missing_log r.2 = missing_log w ++ [fname +:+ " (Max retries reached)"]
  ∧ requests r.2 = (requests w + left)%nat
  ∧ slept r.2 = (slept w + 5 * left)%nat.
Proof.
  intros Ht. revert w. induction left as [|n IH]; intros w; simpl.
  - repeat split; lia.
  - specialize (Ht (requests w)) as Hn. unfold transient in Hn.
    destruct (server (requests w) url) as [r|e].
    + destruct Hn as [-> [[-> ->]|[-> ->]]].
      * destruct (IH (sleep (write_file (sent w) save_path (body r)) 5)) as (H1 & H2 & H3 & H4).
        simpl in *. repeat split; try done; lia.
      * destruct (IH (sleep (sent w) 5)) as (H1 & H2 & H3 & H4).
        simpl in *. repeat split; try done; lia.
    + destruct (IH (sleep (sent w) 5)) as (H1 & H2 & H3 & H4).
      simpl in *. repeat split; try done; lia.
Qed.

(** A 404 is recorded in the log at once. *)
Lemma not_found_is_logged server fname url save_path left w r :
  server (requests w) url = Ok r →
  contains "text/html" (content_type r) = false →
  status_code r = 404%Z →
  attempts server fname url save_path (S left) w
  = (None, write_log (sent w) (fname +:+ " (404 Not Found)")).
Proof. intros H1 H2 H3. simpl. by rewrite H1, H2, H3. Qed.

(** An HTML page ends the download of the target without a log entry. *)
Lemma html_page_is_not_logged server fname url save_path left w r :
  server (requests w) url = Ok r →
  contains "text/html" (content_type r) = true →
  attempts server fname url save_path (S left) w = (None, sent w)
  ∧ missing_log (sent w) = missing_log w.
Proof. intros H1 H2. simpl. by rewrite H1, H2. Qed.

(** C8, on the input where the code departs from it: the server answers
    the request for the first composite with an HTML page (the file name is
    not one it knows).  The download returns [None] after one request, and
    the missing-files log is still empty; so it is when the body received
    is too small and the file is deleted.  A server that is unavailable is
    tried three times and the target is logged. *)
Theorem permanent_failure_not_logged :
  download_nc_file html_server 18262 3 empty_world = (None, mkWorld ∅ [] 1 0)
  ∧ download_nc_file stub_server 18262 3 empty_world = (None, mkWorld ∅ [] 1 0)
  ∧ download_nc_file unavailable_server 18262 3 empty_world
    = (None, mkWorld ∅
               ["AQUA_MODIS.20200101_20200108.L3m.8D.SST.sst.4km.nc (Max retries reached)"]
               3 15).
Proof. repeat split; by vm_compute. Qed.

(** The run over all dates goes on after such failures. *)
Example run_continues_after_failures :
  let r := download_all html_server [18262; 18270; 18278]%Z empty_world in
  r.1 = [] ∧ requests r.2 = 3%nat ∧ missing_log r.2 = [].
Proof. by vm_compute. Qed.

(** ** The downloader: what a call leaves behind *)

Ltac world :=
  cbn [fst snd requests slept files missing_log write_file sent remove sleep write_log].
Tactic Notation "world" "in" hyp(H) :=
  cbn [fst snd requests slept files missing_log write_file sent remove sleep write_log] in H.

(** What the retry loop guarantees, whatever the server answers. *)
Lemma attempts_invariant server fname url save_path left w :
  let r := attempts server fname url save_path left w in
  (requests w <= requests r.2 <= requests w + left)%nat
  ∧ (slept w <= slept r.2 <= slept w + 5 * (requests r.2 - requests w))%nat
  ∧ (∀ path, path ≠ save_path → files r.2 !! path = files w !! path)
  ∧ (∀ p, r.1 = Some p →
       p = save_path ∧ valid_file r.2 save_path = true ∧ missing_log r.2 = missing_log w)
  ∧ (r.1 = None →
       missing_log r.2 = missing_log w ∨ ∃ line, missing_log r.2 = missing_log w ++ [line]).
Proof.
  revert w. induction left as [|n IH]; intros w; cbn [attempts].
  - world. split; [lia|]. split; [lia|]. split; [done|]. split; [done|]. right. eauto.
  - destruct (server (requests w) url) as [r|e].
    + destruct (contains "text/html" (content_type r)).
      { world. split; [lia|]. split; [lia|]. split; [done|]. split; [done|]. by left. }
      destruct (status_code r =? 200)%Z.
      * destruct (stream_ok r).
        -- destruct (valid_file (write_file (sent w) save_path (body r)) save_path) eqn:Ev.
           ++ world. split; [lia|]. split; [lia|]. split; [|split; [|done]].
              ** intros path Hp. by rewrite lookup_insert_ne.
              ** intros p Hp. inversion Hp; subst. split; [done|]. split; [exact Ev|done].
           ++ world. split; [lia|]. split; [lia|]. split; [|split; [done|by left]].
              intros path Hp. rewrite lookup_delete_ne by done. by rewrite lookup_insert_ne.
        -- specialize (IH (sleep (write_file (sent w) save_path (body r)) 5)).
           world in IH. destruct IH as (I1 & I2 & I3 & I4 & I5).
           split; [lia|]. split; [lia|]. split; [|split; [done|done]].
           intros path Hp. rewrite I3 by done. by rewrite lookup_insert_ne.
      * destruct (status_code r =? 404)%Z.
        { world. split; [lia|]. split; [lia|]. split; [done|]. split; [done|]. right. eauto. }
        specialize (IH (sleep (sent w) 5)). world in IH.
        destruct IH as (I1 & I2 & I3 & I4 & I5).
        split; [lia|]. split; [lia|]. split; [done|]. split; done.
    + specialize (IH (sleep (sent w) 5)). world in IH.
      destruct IH as (I1 & I2 & I3 & I4 & I5).
      split; [lia|]. split; [lia|]. split; [done|]. split; done.
Qed.

(** The same for one call of [download_nc_file]. *)
Lemma download_invariant server d retries w :
  let r := download_nc_file server d retries w in
  (requests w <= requests r.2 <= requests w + retries)%nat
  ∧ (slept w <= slept r.2 <= slept w + 5 * (requests r.2 - requests w))%nat
  ∧ (∀ path, path ≠ save_path_of d → files r.2 !! path = files w !! path)
  ∧ (∀ p, r.1 = Some p →
       p = save_path_of d ∧ valid_file r.2 (save_path_of d) = true
       ∧ missing_log r.2 = missing_log w)
  ∧ (r.1 = None →
       missing_log r.2 = missing_log w ∨ ∃ line, missing_log r.2 = missing_log w ++ [line]).
Proof.
  unfold download_nc_file. fold (save_path_of d).
  destruct (valid_file w (save_path_of d)) eqn:Ev.
  - world. split; [lia|]. split; [lia|]. split; [done|]. split; [|done].
    intros p Hp. inversion Hp; subst. done.
  - apply attempts_invariant.
Qed.

(** X11: a call that returns a path returns the path of its target, leaves
    there a file larger than 10000 bytes, and writes nothing to the log. *)
Theorem download_success_leaves_valid_file server d retries w p w' :
  download_nc_file server d retries w = (Some p, w') →
  p = save_path_of d ∧ valid_file w' p = true ∧ missing_log w' = missing_log w.
Proof.
  intros H. destruct (download_invariant server d retries w) as (_ & _ & _ & Hs & _).
  rewrite H in Hs. destruct (Hs p eq_refl) as (-> & Hv & Hl). done.
Qed.

Lemma download_success_leaves_valid_file_witness :
  save_path_of 18262 = save_path_of 18262
  ∧ valid_file (download_nc_file flaky_server 18262 3 empty_world).2 (save_path_of 18262) = true
  ∧ missing_log (download_nc_file flaky_server 18262 3 empty_world).2 = missing_log empty_world.
Proof.
  apply (download_success_leaves_valid_file flaky_server 18262 3 empty_world
           (save_path_of 18262) (download_nc_file flaky_server 18262 3 empty_world).2).
  vm_compute. reflexivity.
Defined.

(** X12: once a call has returned a path, calling again for the same date
    returns the same path and changes nothing: no request is sent, whatever
    the server would answer. *)
Theorem download_again_sends_nothing server d retries w p w' server' retries' :
  download_nc_file server d retries w = (Some p, w') →
  download_nc_file server' d retries' w' = (Some p, w').
Proof.
  intros H. destruct (download_invariant server d retries w) as (_ & _ & _ & Hs & _).
  rewrite H in Hs. destruct (Hs p eq_refl) as (-> & Hv & _). cbn [snd] in Hv.
  unfold download_nc_file. fold (save_path_of d). by rewrite Hv.
Qed.

Lemma download_again_sends_nothing_witness :
  download_nc_file html_server 18262 5 (download_nc_file flaky_server 18262 3 empty_world).2
  = (Some (save_path_of 18262), (download_nc_file flaky_server 18262 3 empty_world).2).
Proof.
  apply (download_again_sends_nothing flaky_server 18262 3 empty_world).
  vm_compute. reflexivity.
Defined.

(** X13: a call sends at most [retries] requests and sleeps at most 5
    seconds per request it sent. *)
Theorem download_effort_is_bounded server d retries w :
  (requests (download_nc_file server d retries w).2 <= requests w + retries)%nat
  ∧ (slept (download_nc_file server d retries w).2
     <= slept w + 5 * (requests (download_nc_file server d retries w).2 - requests w))%nat.
Proof.
  destruct (download_invariant server d retries w) as (H1 & H2 & _). cbv zeta in H1, H2. lia.
Qed.

(** X14: a call touches no file but its target, and it appends at most one
    line to the missing-files log, none when it returns a path. *)
Theorem download_touches_only_its_target server d retries w path :
  path ≠ save_path_of d →
  files (download_nc_file server d retries w).2 !! path = files w !! path
  ∧ (missing_log (download_nc_file server d retries w).2 = missing_log w
     ∨ ∃ line, (download_nc_file server d retries w).1 = None
               ∧ missing_log (download_nc_file server d retries w).2 = missing_log w ++ [line]).
Proof.
  intros Hp. destruct (download_invariant server d retries w) as (_ & _ & Hf & Hs & Hn).
  cbv zeta in Hf, Hs, Hn. split; [by apply Hf|].
  destruct (download_nc_file server d retries w).1 as [p|] eqn:E.
  - left. by apply (Hs p).
  - destruct (Hn eq_refl) as [Hl|[line Hl]]; [by left | right; eauto].
Qed.

Lemma download_touches_only_its_target_witness :
  files (download_nc_file unavailable_server 18262 3 empty_world).2 !! "notes.txt"
  = files empty_world !! "notes.txt"
  ∧ (missing_log (download_nc_file unavailable_server 18262 3 empty_world).2
     = missing_log empty_world
     ∨ ∃ line, (download_nc_file unavailable_server 18262 3 empty_world).1 = None
               ∧ missing_log (download_nc_file unavailable_server 18262 3 empty_world).2
                 = missing_log empty_world ++ [line]).
Proof.
  apply (download_touches_only_its_target unavailable_server 18262 3 empty_world "notes.txt").
  vm_compute. discriminate.
Defined.

(** X15: when the target is not on disk and every answer is a transient
    failure, the call makes all [retries] attempts, sleeps 5 seconds after
    each, records the target in the log as out of retries and returns
    [None]. *)
Theorem transient_failures_use_all_retries server d retries w :
  valid_file w (save_path_of d) = false →
  (∀ n, transient (server n (BASE_URL +:+ file_name_of d))) →
  (download_nc_file server d retries w).1 = None
  ∧ requests (download_nc_file server d retries w).2 = (requests w + retries)%nat
  ∧ slept (download_nc_file server d retries w).2 = (slept w + 5 * retries)%nat
  ∧ missing_log (download_nc_file server d retries w).2
    = missing_log w ++ [file_name_of d +:+ " (Max retries reached)"].
Proof.
  intros Hv Ht. unfold download_nc_file. fold (save_path_of d). rewrite Hv.
  destruct (attempts_exhausted server (file_name_of d) (BASE_URL +:+ file_name_of d)
              (save_path_of d) retries w Ht) as (H1 & H2 & H3 & H4).
  done.
Qed.

Lemma transient_failures_use_all_retries_witness :
  (download_nc_file unavailable_server 18262 3 empty_world).1 = None
  ∧ requests (download_nc_file unavailable_server 18262 3 empty_world).2
    = (requests empty_world + 3)%nat
  ∧ slept (download_nc_file unavailable_server 18262 3 empty_world).2
    = (slept empty_world + 5 * 3)%nat
  ∧ missing_log (download_nc_file unavailable_server 18262 3 empty_world).2
    = missing_log empty_world ++ [file_name_of 18262 +:+ " (Max retries reached)"].
Proof.
  apply (transient_failures_use_all_retries unavailable_server 18262 3 empty_world).
  - vm_compute. reflexivity.
  - intros n. vm_compute. split; [reflexivity|]. right. split; reflexivity.
Defined.

(** ** The main download loop *)

Lemma valid_file_same w w' path :
  files w' !! path = files w !! path → valid_file w' path = valid_file w path.
Proof. intros H. unfold valid_file. by rewrite H. Qed.

Lemma download_all_invariant server dates fs w :
  let step := λ (acc : list string * World) d,
                let '(file_path, w') := download_nc_file server d 3 acc.2 in
                (match file_path with Some p => acc.1 ++ [p] | None => acc.1 end, w') in
  let r := fold_left step dates (fs, w) in
  (length r.1 + length (missing_log r.2)
   <= length fs + length (missing_log w) + length dates)%nat
  ∧ (requests r.2 <= requests w + 3 * length dates)%nat
  ∧ (∀ p, p ∈ r.1 → p ∈ fs ∨ ∃ d, d ∈ dates ∧ p = save_path_of d)
  ∧ ((∀ p, p ∈ fs → valid_file w p = true) → ∀ p, p ∈ r.1 → valid_file r.2 p = true).
Proof.
  intros step. revert fs w. induction dates as [|d rest IH]; intros fs w; cbn [fold_left].
  - cbn. split; [lia|]. split; [lia|]. split; [by left | done].
  - pose proof (download_invariant server d 3 w) as (I1 & I2 & I3 & I4 & I5).
    cbv zeta in I1, I2, I3, I4, I5.
    destruct (download_nc_file server d 3 w) as [[p|] w'] eqn:E; cbn [fst snd] in *.
    + destruct (I4 p eq_refl) as (-> & Hv & Hl).
      assert (Hstep : step (fs, w) d = (fs ++ [save_path_of d], w'))
        by (unfold step; cbn [fst snd]; by rewrite E).
      rewrite Hstep.
      destruct (IH (fs ++ [save_path_of d]) w') as (J1 & J2 & J3 & J4).
      cbv zeta in J1, J2, J3, J4. fold step in J1, J2, J3, J4.
      rewrite length_app in J1. cbn [length] in *.
      split; [rewrite Hl in J1; lia|]. split; [lia|]. split.
      * intros q Hq. destruct (J3 q Hq) as [Hin | (d' & Hd' & ->)].
        -- apply elem_of_app in Hin as [Hin|Hin]; [by left|].
           apply list_elem_of_singleton in Hin as ->. right. exists d. split; [left|done].
        -- right. exists d'. split; [by right | done].
      * intros Hold. apply J4. intros q Hq.
        apply elem_of_app in Hq as [Hq|Hq].
        -- destruct (decide (q = save_path_of d)) as [->|Hne]; [done|].
           rewrite (valid_file_same w w' q) by (by apply I3). by apply Hold.
        -- by apply list_elem_of_singleton in Hq as ->.
    + assert (Hstep : step (fs, w) d = (fs, w'))
        by (unfold step; cbn [fst snd]; by rewrite E).
      rewrite Hstep.
      destruct (IH fs w') as (J1 & J2 & J3 & J4).
      cbv zeta in J1, J2, J3, J4. fold step in J1, J2, J3, J4. cbn [length].
      split; [destruct (I5 eq_refl) as [Hl|[line Hl]]; rewrite Hl in J1;
              rewrite ?length_app in J1; cbn [length] in J1; lia|].
      split; [lia|]. split.
      * intros q Hq. destruct (J3 q Hq) as [Hin | (d' & Hd' & ->)]; [by left|].
        right. exists d'. split; [by right | done].
      * intros Hold. apply J4. intros q Hq.
        destruct (decide (q = save_path_of d)) as [->|Hne].
        -- (* the target was valid before the call: the call returned it *)
           exfalso. unfold download_nc_file in E. fold (save_path_of d) in E.
           rewrite (Hold _ Hq) in E. discriminate.
        -- rewrite (valid_file_same w w' q) by (by apply I3). by apply Hold.
Qed.

(** X16: the main loop over any list of dates ends with each date accounted
    for at most once, as a file obtained or as a log line; it sends at most
    three requests per date; every path it collects is the target of one of
    the dates and still holds a file larger than 10000 bytes at the end. *)
Theorem download_all_accounting server dates w :
  let r := download_all server dates w in
  (length r.1 + length (missing_log r.2) <= length (missing_log w) + length dates)%nat
  ∧ (requests r.2 <= requests w + 3 * length dates)%nat
  ∧ (∀ p, p ∈ r.1 → (∃ d, d ∈ dates ∧ p = save_path_of d) ∧ valid_file r.2 p = true).
Proof.
  destruct (download_all_invariant server dates [] w) as (H1 & H2 & H3 & H4).
  cbv zeta in *. unfold download_all. cbn [length] in H1.
  split; [lia|]. split; [lia|]. intros p Hp. split.
  - destruct (H3 p Hp) as [Hin|Hd]; [by apply elem_of_nil in Hin | done].
  - apply H4; [|done]. intros q Hq. by apply elem_of_nil in Hq.
Qed.

(** ** The start dates *)

(** 31 December is the 365th or the 366th day of its year. *)
Lemma year_span (y : Z) :
  (364 <= Calendar.days_from_civil y 12 31 - Calendar.days_from_civil y 1 1 <= 365)%Z.
Proof.
  unfold Calendar.days_from_civil. cbn -[Z.div Z.mul Z.add Z.sub].
  Z.to_euclidean_division_equations. lia.
Qed.

(** The walk from [d] that ends after [n] days: the [n]-th day is the last
    one not past [stop]. *)
Lemma date_range_from_steps (n : nat) : ∀ (fuel : nat) (d stop step : Z),
  (0 < step)%Z → (n ≤ fuel)%nat →
  (d + step * (Z.of_nat n - 1) <= stop)%Z → (stop < d + step * Z.of_nat n)%Z →
  date_range_from fuel d stop step = map (λ k, (d + step * Z.of_nat k)%Z) (seq 0 n).
Proof.
  induction n as [|n IH]; intros fuel d stop step Hstep Hfuel Hlast Hnext.
  - destruct fuel as [|fuel]; [done|]. cbn [date_range_from map seq].
    by rewrite (proj2 (Z.leb_gt d stop)) by lia.
  - destruct fuel as [|fuel]; [lia|]. cbn [date_range_from].
    rewrite (proj2 (Z.leb_le d stop)) by nia.
    cbn [seq map]. f_equal; [f_equal; lia|].
    rewrite (IH fuel (d + step)%Z stop step) by lia.
    rewrite <- fmap_S_seq, <- list_fmap_compose. apply list_fmap_ext.
    intros i k _. cbn. lia.
Qed.

(** X17: [pd.date_range] from 1 January to 31 December in steps of 8 days
    yields 46 start dates in every year, leap or not: 1 January and every
    eighth day after it, the last one 360 days later and at least 4 days
    before 31 December; the next step would pass the end of the year.  The
    grid of periods starts afresh each year. *)
Theorem year_has_46_periods (y : Z) :
  year_dates y = map (λ k, (Calendar.days_from_civil y 1 1 + 8 * Z.of_nat k)%Z) (seq 0 46)
  ∧ length (year_dates y) = 46%nat
  ∧ (Calendar.days_from_civil y 12 31 < Calendar.days_from_civil y 1 1 + 8 * 46)%Z
  ∧ ∀ d, d ∈ year_dates y →
      (Calendar.days_from_civil y 1 1 <= d <= Calendar.days_from_civil y 12 31 - 4)%Z.
Proof.
  pose proof (year_span y) as Hspan.
  assert (Heq : year_dates y
                = map (λ k, (Calendar.days_from_civil y 1 1 + 8 * Z.of_nat k)%Z) (seq 0 46)).
  { unfold year_dates, date_range. apply date_range_from_steps; lia. }
  split; [done|]. split; [|split; [lia|]].
  - by rewrite Heq, length_map, length_seq.
  - intros d Hd. rewrite Heq in Hd.
    apply list_elem_of_fmap in Hd as (k & -> & Hk). apply elem_of_seq in Hk. lia.
Qed.
